(** * PulseAI wearable firmware: a shallow embedding of the control loop

    The development follows [esp32-smartwatch-firmware.ino].  Every C++
    global becomes a record field, every function a Rocq function on the
    device state, and every value the firmware obtains from the outside
    (sensor registers, the modem's serial line, [millis()]) an explicit
    argument.

    Conventions.
    - [unsigned long] is a 32-bit word on the ESP32: values are kept in [Z]
      and subtraction wraps ([usub]).
    - [float] values are modelled by the rational they denote ([Q]); the
      firmware only compares, copies and truncates them.  NaN and the
      infinities are outside the model; the one place where an infinity
      can arise (a beat interval of 0 ms) is rejected by the same guard
      in the model and in the source.
    - [millis()] is read at many places of one loop pass.  An iteration
      receives a function from the source line of the call to the value
      read there, so no two reads are forced to agree.  A function that
      the loop calls from several places ([triggerEmergency],
      [sendDataToCloud], ...) receives what it reads as an argument.
    - Everything written to the modem, the network or the radio is
      appended to a log that is part of the state.
    - The control loop sees [sendSMS] and [sendDataViaGSM] through what
      they wrote and returned.  Module [Modem], at the end of the
      definitions, unfolds the same functions, [sendATCommand] and
      [initGPRS] down to the characters read from the serial line.
    - [setup] arms a task watchdog that only the first statement of
      [loop] feeds.  [loop] and the modem calls describe the code run to
      its end; [watched_loop], [reachable] and [watched] say what the
      watchdog makes of them. *)

From Stdlib Require Import ZArith QArith Qround Lia Bool String Ascii DecimalString.
From stdpp Require Import base list.

Local Open Scope Z_scope.

(** ** Machine arithmetic *)

Definition two32 : Z := 2 ^ 32.

(** Value of an [unsigned long] expression. *)
Definition u32 (z : Z) : Z := z mod two32.

(** [a - b] on [unsigned long]. *)
Definition usub (a b : Z) : Z := u32 (a - b).

(** Conversion of an [unsigned long] to [long]. *)
Definition s32 (z : Z) : Z :=
  let w := u32 z in if w <? 2 ^ 31 then w else w - two32.

(** Value of a [byte] expression. *)
Definition u8 (z : Z) : Z := z mod 256.

(** ** Float comparisons and casts *)

Definition Qleb (x y : Q) : bool := Qle_bool x y.
Definition Qltb (x y : Q) : bool := negb (Qle_bool y x).

(** Truncation toward zero, as done by a float to integer cast. *)
Definition Qtrunc (x : Q) : Z := Z.quot (Qnum x) (Zpos (Qden x)).

(** [(byte)f]. *)
Definition byte_of_float (x : Q) : Z := u8 (Qtrunc x).

(** [(float)n] for an integer that a float represents exactly. *)
Definition float_of_int (n : Z) : Q := inject_Z n.

(** ** Configuration constants *)

Definition HTTP_TIMEOUT : Z := 10000.
Definition MAX_UPLOAD_RETRIES : Z := 3.
Definition HR_HIGH_THRESH : Q := 140.
Definition HR_LOW_THRESH : Q := 40.
Definition SPO2_LOW_THRESH : Q := 90.
Definition ACCEL_FALL_THRESH : Q := 25.
Definition GYRO_FALL_THRESH : Q := 200.
Definition CALL_INTERVAL : Z := 30000.
Definition RATE_SIZE : Z := 8.
Definition BUFFER_LENGTH : Z := 100.
Definition SPO2_CALC_INTERVAL : Z := 5000.
Definition FALL_CONFIRM_DELAY : Z := 300.
Definition POST_FALL_STILLNESS_THRESH : Q := 12.
Definition SPO2_SAMPLE_INTERVAL : Z := 10.
Definition DATA_INTERVAL : Z := 120000.
Definition WIFI_RECONNECT_INTERVAL : Z := 30000.
Definition DATA_QUEUE_SIZE : Z := 5.
Definition EMERGENCY_PHONE : string := "+917338033618".

(** ** Vital-sign acquisition state *)

(** The globals of the beat averaging code. *)
Record BeatHistory := mkBeatHistory {
  rates : list Z;          (* byte rates[RATE_SIZE] *)
  rateSpot : Z;            (* byte *)
  lastBeat : Z;            (* long *)
  beatsPerMinute : Q;      (* float *)
  beatAvg : Z;             (* int *)
  validBeatCount : Z       (* int *)
}.

(** The globals of the incremental SpO2 collection. *)
Record Spo2Window := mkSpo2Window {
  irBuffer : list Z;
  redBuffer : list Z;
  spo2SampleIndex : Z;     (* byte *)
  spo2CollectionActive : bool;
  lastSpo2Sample : Z;
  lastSpO2Calc : Z
}.

Record Vitals := mkVitals {
  beats : BeatHistory;
  window : Spo2Window;
  lastValidSpO2 : Q;
  lastValidHR : Q;
  wasFingerDetected : bool
}.

(** Outputs of the external routine
    [maxim_heart_rate_and_oxygen_saturation]. *)
Record Estimate := mkEstimate {
  spo2Value : Z;           (* int32_t *)
  validSPO2 : Z;           (* int8_t *)
  heartRateValue : Z;      (* int32_t *)
  validHeartRate : Z       (* int8_t *)
}.

(** What section A of [loop] reads from the pulse sensor in one pass. *)
Record PulseIn := mkPulseIn {
  irValue : Z;                       (* particleSensor.getIR(), line 294 *)
  redValue : Z;                      (* particleSensor.getRed(), line 295 *)
  beatSeen : bool;                   (* checkForBeat(irValue) *)
  sampleAvailable : bool;            (* particleSensor.available() *)
  sampleRed : Z;                     (* getRed(), line 350 *)
  sampleIR : Z;                      (* getIR(), line 351 *)
  maxim : list Z -> list Z -> Estimate
}.

(** The clock of one loop pass: source line of the [millis()] call to the
    value it returned. *)
Definition Clock := Z -> Z.

Definition zero_rates : list Z := replicate (Z.to_nat RATE_SIZE) 0.
Definition zero_buffer : list Z := replicate (Z.to_nat BUFFER_LENGTH) 0.

(** The state the C++ initialisers give the globals. *)
Definition boot_beats : BeatHistory :=
  mkBeatHistory zero_rates 0 0 0 0 0.

Definition boot_window : Spo2Window :=
  mkSpo2Window zero_buffer zero_buffer 0 false 0 0.

Definition boot_vitals : Vitals :=
  mkVitals boot_beats boot_window 0 0 false.

(** [rates[x]], read within bounds. *)
Definition rate_at (rs : list Z) (x : nat) : Z := default 0 (rs !! x).

(** The summing [for] loop of lines 328-329, [x] running from 0 up to the
    count. *)
Fixpoint sum_rates (rs : list Z) (x : nat) (todo : nat) (acc : Z) : Z :=
  match todo with
  | O => acc
  | S k => sum_rates rs (S x) k (acc + rate_at rs x)
  end.

(** Lines 301-311: the reset done when the finger has just been removed. *)
Definition reset_readings (v : Vitals) : Vitals :=
  mkVitals
    (mkBeatHistory zero_rates 0 0 (beatsPerMinute (beats v)) 0 0)
    (window v) 0 0 (wasFingerDetected v).

(** Lines 321-333: an accepted rate is stored and the average recomputed. *)
Definition store_beat (b : BeatHistory) : BeatHistory * Q :=
  let rates' := <[Z.to_nat (rateSpot b) := byte_of_float (beatsPerMinute b)]> (rates b) in
  let spot' := u8 (u8 (rateSpot b + 1) mod RATE_SIZE) in
  let count' := if validBeatCount b <? RATE_SIZE
                then validBeatCount b + 1 else validBeatCount b in
  let total := sum_rates rates' 0 (Z.to_nat count') 0 in
  let avg := Z.quot total count' in
  (mkBeatHistory rates' spot' (lastBeat b) (beatsPerMinute b) avg count',
   float_of_int avg).

(** Lines 315-334: heart-rate detection.  The rate is the exact quotient
    60000 / delta.  For an integer [delta] that quotient is exactly 40 (at
    1500 ms, where the [float] computation is exact too) or at least 0.02
    away from both bounds of the guard, and within the guard it is an
    integer or at least 1/1500 away from one; the rounding of the [float]
    computation is far smaller, so the guard decides and the cast truncates
    as in the source. *)
Definition detect_beat (ck : Clock) (inp : PulseIn) (finger : bool) (v : Vitals) : Vitals :=
  if finger && beatSeen inp then
    let b := beats v in
    let delta := s32 (usub (ck 316) (u32 (lastBeat b))) in
    let bpm := (60 / (inject_Z delta / 1000))%Q in
    let b1 := mkBeatHistory (rates b) (rateSpot b) (s32 (ck 317)) bpm
                            (beatAvg b) (validBeatCount b) in
    if Qleb 40 bpm && Qleb bpm 180 then
      let '(b2, hr) := store_beat b1 in
      mkVitals b2 (window v) (lastValidSpO2 v) hr (wasFingerDetected v)
    else
      mkVitals b1 (window v) (lastValidSpO2 v) (lastValidHR v) (wasFingerDetected v)
  else v.

(** Lines 365-372: which outputs of the estimation routine are kept. *)
Definition accept_estimate (e : Estimate) (v : Vitals) : Vitals :=
  let spo2' :=
    if negb (validSPO2 e =? 0) && (70 <=? spo2Value e) && (spo2Value e <=? 100)
    then float_of_int (spo2Value e) else lastValidSpO2 v in
  let hr' :=
    if negb (validHeartRate e =? 0) && (40 <=? heartRateValue e)
       && (heartRateValue e <=? 180) && (validBeatCount (beats v) <? 4)
    then float_of_int (heartRateValue e) else lastValidHR v in
  mkVitals (beats v) (window v) spo2' hr' (wasFingerDetected v).

Definition with_window (w : Spo2Window) (v : Vitals) : Vitals :=
  mkVitals (beats v) w (lastValidSpO2 v) (lastValidHR v) (wasFingerDetected v).

(** Lines 339-343: a collection is started every [SPO2_CALC_INTERVAL]. *)
Definition start_collection (ck : Clock) (w : Spo2Window) : Spo2Window :=
  if negb (spo2CollectionActive w)
     && (SPO2_CALC_INTERVAL <=? usub (ck 339) (lastSpO2Calc w))
  then mkSpo2Window (irBuffer w) (redBuffer w) 0 true (u32 (ck 342)) (lastSpO2Calc w)
  else w.

(** Lines 350-353: one sample pair is stored and the cursor advanced. *)
Definition store_sample (inp : PulseIn) (w : Spo2Window) : list Z * list Z * Z :=
  (<[Z.to_nat (spo2SampleIndex w) := sampleIR inp]> (irBuffer w),
   <[Z.to_nat (spo2SampleIndex w) := sampleRed inp]> (redBuffer w),
   u8 (spo2SampleIndex w + 1)).

(** Lines 337-382: the non-blocking SpO2 collection. *)
Definition collect_spo2 (ck : Clock) (inp : PulseIn) (finger : bool) (v : Vitals) : Vitals :=
  if finger then
    let w1 := start_collection ck (window v) in
    (* lines 346-377 *)
    if spo2CollectionActive w1
       && (SPO2_SAMPLE_INTERVAL <=? usub (ck 346) (lastSpo2Sample w1))
    then
      if sampleAvailable inp then
        let '(ir', red', idx') := store_sample inp w1 in
        if BUFFER_LENGTH <=? idx' then
          let w2 := mkSpo2Window ir' red' idx' false (u32 (ck 347)) (u32 (ck 358)) in
          accept_estimate (maxim inp ir' red') (with_window w2 v)
        else
          with_window (mkSpo2Window ir' red' idx' true (u32 (ck 347)) (lastSpO2Calc w1)) v
      else
        with_window (mkSpo2Window (irBuffer w1) (redBuffer w1) (spo2SampleIndex w1)
                       true (u32 (ck 347)) (lastSpO2Calc w1)) v
    else with_window w1 v
  else
    let w := window v in
    with_window (mkSpo2Window (irBuffer w) (redBuffer w) 0 false
                   (lastSpo2Sample w) (lastSpO2Calc w)) v.

(** The heart rate and SpO2 a loop pass works with (lines 385-386). *)
Record Reported := mkReported {
  currentSpO2 : Q;
  currentHR : Q
}.

(** Lines 294-386: section A of [loop]. *)
Definition read_vitals (ck : Clock) (inp : PulseIn) (v : Vitals) : Vitals * bool * Reported :=
  let fingerDetected := 50000 <? irValue inp in
  let v1 := if negb fingerDetected && wasFingerDetected v then reset_readings v else v in
  let v2 := mkVitals (beats v1) (window v1) (lastValidSpO2 v1) (lastValidHR v1) fingerDetected in
  let v3 := detect_beat ck inp fingerDetected v2 in
  let v4 := collect_spo2 ck inp fingerDetected v3 in
  (v4, fingerDetected,
   mkReported (if fingerDetected then lastValidSpO2 v4 else 0)
              (if fingerDetected then lastValidHR v4 else 0)).

(** ** Strings received from the modem *)

(** [s.indexOf(pat)]: position of the first occurrence, or -1. *)
Definition indexOf (s pat : string) : Z :=
  match String.index 0 pat s with
  | Some n => Z.of_nat n
  | None => -1
  end.

Definition contains (s pat : string) : bool := negb (indexOf s pat =? -1).

(** [s.substring(left)] with an [int] argument that is not negative. *)
Definition substringFrom (s : string) (left : Z) : string :=
  let n := Z.to_nat left in
  String.substring n (String.length s - n) s.

Definition is_space (c : ascii) : bool :=
  let n := Z.of_nat (nat_of_ascii c) in
  (n =? 32) || ((9 <=? n) && (n <=? 13)).

Definition digit_of (c : ascii) : option Z :=
  let n := Z.of_nat (nat_of_ascii c) in
  if (48 <=? n) && (n <=? 57) then Some (n - 48) else None.

Fixpoint skip_spaces (s : string) : string :=
  match s with
  | String c rest => if is_space c then skip_spaces rest else s
  | EmptyString => s
  end.

Fixpoint read_digits (s : string) (acc : Z) : Z :=
  match s with
  | String c rest =>
      match digit_of c with
      | Some d => read_digits rest (10 * acc + d)
      | None => acc
      end
  | EmptyString => acc
  end.

(** The range of a [long], which has 32 bits on this chip. *)
Definition LONG_MAX : Z := 2147483647.
Definition LONG_MIN : Z := -2147483648.

(** A number outside the range of a [long] is returned by [strtol] as the
    nearest bound. *)
Definition saturate (z : Z) : Z := Z.max LONG_MIN (Z.min LONG_MAX z).

(** [s.toInt()], which is [atol]: leading blanks, a sign, then digits,
    read into a [long].  Line 963 stores the result in an [int] of the
    same width. *)
Definition toInt (s : string) : Z :=
  saturate
    match skip_spaces s with
    | String "-"%char rest => - read_digits rest 0
    | String "+"%char rest => read_digits rest 0
    | t => read_digits t 0
    end.

(** ** What the firmware emits *)

(** The text of a notification: either a literal, or a literal followed by
    [String(hr) + ", SpO2: " + String(spo2)]. *)
Inductive SmsText :=
| Plain (text : string)
| WithVitals (lead : string) (hr spo2 : Q).

(** A JSON value stored in a document. *)
Inductive JValue :=
| JString (s : string)
| JFloat (x : Q)
| JUInt (n : Z)
| JBool (b : bool).

Definition JsonDoc := list (string * JValue).

Inductive Output :=
| AtCmgs (num : string)            (* AT+CMGS="num" *)
| SmsBody (msg : SmsText)          (* message text followed by CTRL+Z *)
| SmsEscape                        (* ESC: the send is cancelled *)
| AtCmgr (index : Z)
| AtCmgd (index : Z)
| Atd (num : string)               (* ATD<num>; *)
| Ath
| AtClcc
| HttpBegin (timeout : Z)
| HttpPost (attempt : Z) (payload : JsonDoc)
| HttpEnd
| GsmHttp (payload : JsonDoc)      (* payload streamed in a modem HTTP session *)
| WifiDisconnect                   (* WiFi.disconnect(true) *)
| WifiBegin                        (* WiFi.begin(ssid, password) *)
| Delay (ms : Z).

Definition Log := list Output.

(** The time a log shows spent in [delay()], in ms. *)
Definition delay_of (o : Output) : Z :=
  match o with Delay ms => ms | _ => 0 end.

Definition delayed (l : Log) : Z := foldr (fun o acc => delay_of o + acc) 0 l.

(** ** Emergency escalation *)

Record Emergency := mkEmergency {
  emergencyActive : bool;
  emergencyHandled : bool;
  lastCallTime : Z
}.

Definition boot_emergency : Emergency := mkEmergency false false 0.

(** How the modem answers one [sendSMS]. *)
Inductive SmsReply :=
| NoPrompt          (* no '>' within 3 s *)
| Confirmed         (* +CMGS: seen *)
| Rejected          (* ERROR seen *)
| Silent.           (* neither within 10 s *)

(** [sendSMS(num, msg)]: the command, then the text if the modem prompts. *)
Definition sendSMS (reply : SmsReply) (num : string) (msg : SmsText) (log : Log) : Log * bool :=
  match reply with
  | NoPrompt => (log ++ [AtCmgs num; Delay 1000; SmsEscape], false)
  | Confirmed => (log ++ [AtCmgs num; Delay 1000; SmsBody msg; Delay 100], true)
  | Rejected | Silent => (log ++ [AtCmgs num; Delay 1000; SmsBody msg; Delay 100], false)
  end.

(** [triggerEmergency(msg)], lines 883-894.  [now] is the [millis()] of
    line 893. *)
Definition triggerEmergency (reply : SmsReply) (now : Z) (msg : SmsText)
    (st : Emergency * Log) : Emergency * Log :=
  let '(e, log) := st in
  if emergencyActive e || emergencyHandled e then st
  else
    let '(log', _) := sendSMS reply EMERGENCY_PHONE msg log in
    (mkEmergency true false (usub now CALL_INTERVAL), log').

(** What [checkForIncomingSMS] finds on the modem's serial line. *)
Record SerialIn := mkSerialIn {
  rx : option string;      (* readString(), or nothing available *)
  cmgrReply : string;      (* what answers AT+CMGR *)
  ackReply : SmsReply      (* the modem's answer to the confirmation SMS *)
}.

Definition acknowledge_text : SmsText := Plain "Alert acknowledged. Calls stopped.".
Definition resume_text : SmsText := Plain "Alert sequence resumed. Calls restarting.".

(** [checkForIncomingSMS()], lines 949-1007. *)
Definition checkForIncomingSMS (inp : SerialIn) (st : Emergency * Log) : Emergency * Log :=
  let '(e, log) := st in
  match rx inp with
  | None => st
  | Some data =>
      if contains data "+CMTI:" then
        let indexStr := substringFrom data (indexOf data "," + 1) in
        let index := toInt indexStr in
        let log1 := log ++ [AtCmgr index; Delay 500] in
        let smsContent := cmgrReply inp in
        let '(e2, log2) :=
          if contains smsContent "OK" || contains smsContent "ok" then
            (mkEmergency false true (lastCallTime e),
             fst (sendSMS (ackReply inp) EMERGENCY_PHONE acknowledge_text log1))
          else if contains smsContent "Resume" || contains smsContent "resume" then
            (mkEmergency true false (lastCallTime e),
             fst (sendSMS (ackReply inp) EMERGENCY_PHONE resume_text log1))
          else (e, log1) in
        (e2, log2 ++ [AtCmgd index])
      else st
  end.

(** One pass of the call-monitor [while] loop of lines 912-937. *)
Record Poll := mkPoll {
  pollClock : Z;               (* millis() in the loop condition *)
  pollSerial : SerialIn;       (* input of the checkForIncomingSMS call *)
  clccReply : option string    (* readString() after AT+CLCC, if available *)
}.

(** How the monitor loop was left. *)
Inductive MonitorExit :=
| Cancelled        (* [return] of line 919 *)
| Answered         (* [break] of line 934 *)
| TimedOut.        (* loop condition false *)

(** The [while] loop of lines 912-937.  The result also carries the polls
    that were not consumed.  [None]: the supplied polls ended while the
    loop condition still held. *)
Fixpoint monitor_call (callStart : Z) (polls : list Poll) (st : Emergency * Log)
  : option (MonitorExit * (Emergency * Log) * list Poll) :=
  match polls with
  | [] => None
  | p :: rest =>
      if usub (pollClock p) callStart <? 25000 then
        let '(e1, log1) := checkForIncomingSMS (pollSerial p) st in
        if emergencyHandled e1 then
          Some (Cancelled, (e1, log1 ++ [Ath]), rest)
        else
          let log2 := log1 ++ [AtClcc; Delay 500] in
          match clccReply p with
          | Some resp =>
              if contains resp "+CLCC: 1,0,0,0,0" then
                Some (Answered,
                      (mkEmergency false true (lastCallTime e1), log2 ++ [Ath]),
                      rest)
              else monitor_call callStart rest (e1, log2)
          | None => monitor_call callStart rest (e1, log2)
          end
      else Some (TimedOut, st, rest)
  end.

(** [handleEmergencyCalls()], lines 896-947.  The clock gives lines 899,
    900 and 908. *)
Definition handleEmergencyCalls (ck : Clock) (polls : list Poll)
    (st : Emergency * Log) : option (Emergency * Log) :=
  let '(e, log) := st in
  if negb (emergencyActive e) || emergencyHandled e then Some st
  else if CALL_INTERVAL <=? usub (ck 899) (lastCallTime e) then
    let e1 := mkEmergency (emergencyActive e) (emergencyHandled e) (u32 (ck 900)) in
    let log1 := log ++ [Atd EMERGENCY_PHONE] in
    match monitor_call (u32 (ck 908)) polls (e1, log1) with
    | None => None
    | Some (Cancelled, st', _) => Some st'
    | Some (Answered, st', _) => Some st'
    | Some (TimedOut, (e2, log2), _) =>
        if negb (emergencyHandled e2) && emergencyActive e2
        then Some (e2, log2 ++ [Ath])
        else Some (e2, log2)
    end
  else Some st.

(** ** Motion readings *)

(** The fields of the two [sensors_event_t] values the firmware uses. *)
Record Motion := mkMotion {
  accel_x : Q; accel_y : Q; accel_z : Q;
  gyro_x : Q; gyro_y : Q; gyro_z : Q
}.

(** ** JSON payloads *)

(** [doc[key] = value]: the member is replaced if present, added at the
    end otherwise.  The documents below hold at most 14 members, within
    the 400 bytes reserved for them. *)
Fixpoint doc_set (key : string) (v : JValue) (doc : JsonDoc) : JsonDoc :=
  match doc with
  | [] => [(key, v)]
  | (k, w) :: rest =>
      if String.eqb k key then (k, v) :: rest else (k, w) :: doc_set key v rest
  end.

Definition doc_keys (doc : JsonDoc) : list string := map fst doc.

Definition has_key (doc : JsonDoc) (key : string) : bool :=
  existsb (String.eqb key) (doc_keys doc).

(** The members common to the three documents, in source order up to
    [gyro_z]. *)
Definition doc_reading (deviceId : string) (hr spo2 : Q) (m : Motion) : JsonDoc :=
  doc_set "gyro_z" (JFloat (gyro_z m))
  (doc_set "gyro_y" (JFloat (gyro_y m))
  (doc_set "gyro_x" (JFloat (gyro_x m))
  (doc_set "accel_z" (JFloat (accel_z m))
  (doc_set "accel_y" (JFloat (accel_y m))
  (doc_set "accel_x" (JFloat (accel_x m))
  (doc_set "spo2" (JFloat spo2)
  (doc_set "heart_rate" (JFloat hr)
  (doc_set "device_id" (JString deviceId) [])))))))).

(** Lines 474-486, the document of [sendDataToCloud]. *)
Definition cloud_doc (deviceId : string) (now : Z) (hr spo2 : Q) (m : Motion) : JsonDoc :=
  doc_set "gps_long" (JFloat 0)
  (doc_set "gps_lat" (JFloat 0)
  (doc_set "timestamp" (JUInt (u32 now))
  (doc_reading deviceId hr spo2 m))).

(** Lines 843-857, the document of [sendEmergencyDataToCloud]. *)
Definition emergency_doc (deviceId : string) (now : Z) (hr spo2 : Q) (m : Motion) : JsonDoc :=
  doc_set "gps_long" (JFloat 0)
  (doc_set "gps_lat" (JFloat 0)
  (doc_set "manual_trigger" (JBool true)
  (doc_set "emergency" (JBool true)
  (doc_set "timestamp" (JUInt (u32 now))
  (doc_reading deviceId hr spo2 m))))).

(** ** Offline queue *)

Record SensorData := mkSensorData {
  q_hr : Q;
  q_spo2 : Q;
  q_motion : Motion;
  pending : bool
}.

Record Queue := mkQueue {
  dataQueue : list SensorData;   (* SensorData dataQueue[DATA_QUEUE_SIZE] *)
  queueHead : Z                  (* byte *)
}.

Definition empty_slot : SensorData :=
  mkSensorData 0 0 (mkMotion 0 0 0 0 0 0) false.

(** The queue after the initialisation loop of [setup], lines 154-156. *)
Definition boot_queue : Queue :=
  mkQueue (replicate (Z.to_nat DATA_QUEUE_SIZE) empty_slot) 0.

(** Lines 717-729, the document [uploadQueuedData] builds for a slot. *)
Definition queued_doc (deviceId : string) (d : SensorData) : JsonDoc :=
  doc_set "gps_long" (JFloat 0)
  (doc_set "gps_lat" (JFloat 0)
  (doc_set "queued" (JBool true)
  (doc_reading deviceId (q_hr d) (q_spo2 d) (q_motion d)))).

(** [queueData], lines 695-708.  An index outside the array is a memory
    fault, reported as [None]. *)
Definition queueData (hr spo2 : Q) (m : Motion) (q : Queue) : option Queue :=
  let i := Z.to_nat (queueHead q) in
  match dataQueue q !! i with
  | None => None
  | Some _ =>
      Some (mkQueue (<[i := mkSensorData hr spo2 m true]> (dataQueue q))
                    (u8 ((queueHead q + 1) mod DATA_QUEUE_SIZE)))
  end.

(** ** Transport *)

(** The network as one [sendDataViaWiFi] call sees it. *)
Record WifiEnv := mkWifiEnv {
  linkUp : bool;           (* WiFi.status() == WL_CONNECTED at line 511 *)
  post : Z -> Z            (* response code of http.POST at each attempt *)
}.

(** The [for] loop of lines 519-528; [todo] attempts are left and
    [attempt] is the loop variable. *)
Fixpoint post_attempts (env : WifiEnv) (payload : JsonDoc) (attempt : Z)
    (todo : nat) (log : Log) : Log * bool :=
  match todo with
  | O => (log ++ [HttpEnd], false)
  | S k =>
      let responseCode := post env attempt in
      let log1 := log ++ [HttpPost attempt payload] in
      if 0 <? responseCode then (log1 ++ [HttpEnd], true)
      else
        let log2 := if attempt <? MAX_UPLOAD_RETRIES
                    then log1 ++ [Delay 1000] else log1 in
        post_attempts env payload (attempt + 1) k log2
  end.

(** [sendDataViaWiFi], lines 510-532. *)
Definition sendDataViaWiFi (env : WifiEnv) (payload : JsonDoc) (log : Log) : Log * bool :=
  if negb (linkUp env) then (log, false)
  else post_attempts env payload 1 (Z.to_nat MAX_UPLOAD_RETRIES)
                     (log ++ [HttpBegin HTTP_TIMEOUT]).

(** The outcome of one [sendDataViaGSM] call.  The AT dialogue of lines
    535-626 is not unfolded: what matters to its callers is whether the
    payload was streamed to the modem and what the function returned. *)
Inductive GsmOutcome :=
| GsmNoSession               (* a step before the payload failed *)
| GsmPosted (ok : bool).     (* payload streamed; [ok] is the result *)

Definition sendDataViaGSM (o : GsmOutcome) (payload : JsonDoc) (log : Log) : Log * bool :=
  match o with
  | GsmNoSession => (log, false)
  | GsmPosted ok => (log ++ [GsmHttp payload], ok)
  end.

(** The network as one upload sees it. *)
Record UploadEnv := mkUploadEnv {
  wifiStatus : bool;       (* WiFi.status() == WL_CONNECTED in the caller *)
  wifi : WifiEnv;
  gsm : GsmOutcome
}.

(** WiFi first, then the modem: lines 491-502, 736-744 and 864-877. *)
Definition upload (env : UploadEnv) (payload : JsonDoc) (log : Log) : Log * bool :=
  let '(log1, ok) :=
    if wifiStatus env then sendDataViaWiFi (wifi env) payload log
    else (log, false) in
  if ok then (log1, true) else sendDataViaGSM (gsm env) payload log1.

(** [sendDataToCloud], lines 472-507.  [now] is the [millis()] of line
    484. *)
Definition sendDataToCloud (deviceId : string) (env : UploadEnv) (now : Z)
    (hr spo2 : Q) (m : Motion) (st : Queue * Log) : option (Queue * Log) :=
  let '(q, log) := st in
  let '(log1, ok) := upload env (cloud_doc deviceId now hr spo2 m) log in
  if ok then Some (q, log1)
  else match queueData hr spo2 m q with
       | Some q' => Some (q', log1)
       | None => None
       end.

(** [sendEmergencyDataToCloud], lines 842-880: nothing is queued. *)
Definition sendEmergencyDataToCloud (deviceId : string) (env : UploadEnv) (now : Z)
    (hr spo2 : Q) (m : Motion) (log : Log) : Log :=
  fst (upload env (emergency_doc deviceId now hr spo2 m) log).

(** The body of the [for] loop of [uploadQueuedData] for slot [i]. *)
Definition upload_slot (deviceId : string) (envs : nat -> UploadEnv) (i : nat)
    (st : list SensorData * Log) : list SensorData * Log :=
  let '(slots, log) := st in
  match slots !! i with
  | Some d =>
      if pending d then
        let '(log1, ok) := upload (envs i) (queued_doc deviceId d) log in
        let slots' :=
          if ok then <[i := mkSensorData (q_hr d) (q_spo2 d) (q_motion d) false]> slots
          else slots in
        (slots', log1 ++ [Delay 100])
      else st
  | None => st
  end.

(** [uploadQueuedData], lines 711-758. *)
Definition uploadQueuedData (deviceId : string) (envs : nat -> UploadEnv)
    (st : Queue * Log) : Queue * Log :=
  let '(q, log) := st in
  let '(slots, log') :=
    fold_left (fun acc i => upload_slot deviceId envs i acc)
              (seq 0 (Z.to_nat DATA_QUEUE_SIZE)) (dataQueue q, log) in
  (mkQueue slots (queueHead q), log').

(** ** The device *)

Record FallState := mkFallState {
  fallDetectedTime : Z;
  fallPending : bool
}.

Record Net := mkNet {
  wifiConnected : bool;
  lastWiFiCheck : Z
}.

Record Button := mkButton {
  buttonPressStart : Z;
  buttonPressed : bool
}.

Record Device := mkDevice {
  deviceId : string;
  net : Net;
  vitals : Vitals;
  fall : FallState;
  emergency : Emergency;
  queue : Queue;
  button : Button;
  previousMillis : Z;
  log : Log
}.

(** The globals when [loop] first runs; [wifiUp] is what the connection
    attempt of [setup] achieved and [mac] the identifier derived there. *)
Definition boot (mac : string) (wifiUp : bool) : Device :=
  mkDevice mac (mkNet wifiUp 0) boot_vitals (mkFallState 0 false)
           boot_emergency boot_queue (mkButton 0 false) 0 [].

Definition set_net (x : Net) (d : Device) : Device :=
  mkDevice (deviceId d) x (vitals d) (fall d) (emergency d) (queue d)
           (button d) (previousMillis d) (log d).
Definition set_vitals (x : Vitals) (d : Device) : Device :=
  mkDevice (deviceId d) (net d) x (fall d) (emergency d) (queue d)
           (button d) (previousMillis d) (log d).
Definition set_fall (x : FallState) (d : Device) : Device :=
  mkDevice (deviceId d) (net d) (vitals d) x (emergency d) (queue d)
           (button d) (previousMillis d) (log d).
Definition set_emergency (x : Emergency) (d : Device) : Device :=
  mkDevice (deviceId d) (net d) (vitals d) (fall d) x (queue d)
           (button d) (previousMillis d) (log d).
Definition set_queue (x : Queue) (d : Device) : Device :=
  mkDevice (deviceId d) (net d) (vitals d) (fall d) (emergency d) x
           (button d) (previousMillis d) (log d).
Definition set_button (x : Button) (d : Device) : Device :=
  mkDevice (deviceId d) (net d) (vitals d) (fall d) (emergency d) (queue d)
           x (previousMillis d) (log d).
Definition set_previousMillis (x : Z) (d : Device) : Device :=
  mkDevice (deviceId d) (net d) (vitals d) (fall d) (emergency d) (queue d)
           (button d) x (log d).
Definition set_log (x : Log) (d : Device) : Device :=
  mkDevice (deviceId d) (net d) (vitals d) (fall d) (emergency d) (queue d)
           (button d) (previousMillis d) x.

Definition emit (o : list Output) (d : Device) : Device := set_log (log d ++ o) d.

(** Run a function of the escalation code on the device. *)
Definition on_alarm (f : Emergency * Log -> Emergency * Log) (d : Device) : Device :=
  let '(e, l) := f (emergency d, log d) in set_emergency e (set_log l d).

(** Run a function of the queueing code on the device. *)
Definition on_store (f : Queue * Log -> option (Queue * Log)) (d : Device) : option Device :=
  match f (queue d, log d) with
  | Some (q, l) => Some (set_queue q (set_log l d))
  | None => None
  end.

(** What one [triggerEmergency] call meets: the modem's answer to its SMS
    and the [millis()] of line 893. *)
Record TriggerEnv := mkTriggerEnv {
  smsReply : SmsReply;
  triggerClock : Z
}.

(** What one cloud upload meets: the network and the [millis()] stored as
    timestamp. *)
Record CloudEnv := mkCloudEnv {
  network : UploadEnv;
  cloudClock : Z
}.

(** A [triggerEmergency] call together with the upload that accompanies
    it. *)
Record AlertEnv := mkAlertEnv {
  alertTrigger : TriggerEnv;
  alertCloud : CloudEnv
}.

Definition trigger (env : TriggerEnv) (msg : SmsText) (d : Device) : Device :=
  on_alarm (triggerEmergency (smsReply env) (triggerClock env) msg) d.

Definition cloud (env : CloudEnv) (hr spo2 : Q) (m : Motion) (d : Device) : option Device :=
  on_store (sendDataToCloud (deviceId d) (network env) (cloudClock env) hr spo2 m) d.

Definition idle (d : Device) : bool :=
  negb (emergencyActive (emergency d)) && negb (emergencyHandled (emergency d)).

Definition fall_text : SmsText := Plain "FALL DETECTED! User may be unresponsive.".

(** Lines 396-403: an impact opens a candidate. *)
Definition fall_impact (ck : Clock) (accelMag gyroMag : Q) (d : Device) : Device :=
  if Qltb ACCEL_FALL_THRESH accelMag && Qltb GYRO_FALL_THRESH gyroMag then
    if negb (fallPending (fall d)) && idle d
    then set_fall (mkFallState (u32 (ck 400)) true) d
    else d
  else d.

(** Lines 405-424: the stillness check once the delay has passed. *)
Definition fall_confirm (ck : Clock) (env : AlertEnv) (accelMag : Q)
    (r : Reported) (m : Motion) (d : Device) : option Device :=
  if fallPending (fall d)
     && (FALL_CONFIRM_DELAY <=? usub (ck 406) (fallDetectedTime (fall d))) then
    let d1 := set_fall (mkFallState (fallDetectedTime (fall d)) false) d in
    if Qltb accelMag POST_FALL_STILLNESS_THRESH then
      if idle d1 then
        cloud (alertCloud env) (currentHR r) (currentSpO2 r) m
              (trigger (alertTrigger env) fall_text d1)
      else Some d1
    else Some d1
  else Some d.

(** Lines 426-430: the one second timeout. *)
Definition fall_timeout (ck : Clock) (d : Device) : Device :=
  if fallPending (fall d) && (1000 <? usub (ck 427) (fallDetectedTime (fall d)))
  then set_fall (mkFallState (fallDetectedTime (fall d)) false) d
  else d.

(** Lines 396-430: the fall detector. *)
Definition detect_fall (ck : Clock) (env : AlertEnv) (accelMag gyroMag : Q)
    (r : Reported) (m : Motion) (d : Device) : option Device :=
  match fall_confirm ck env accelMag r m (fall_impact ck accelMag gyroMag d) with
  | Some d' => Some (fall_timeout ck d')
  | None => None
  end.

Definition vitals_text (r : Reported) : SmsText :=
  WithVitals "CRITICAL VITALS ALERT! HR: " (currentHR r) (currentSpO2 r).

(** Lines 434-448: the physiological detector. *)
Definition detect_vitals (env : AlertEnv) (fingerDetected : bool)
    (r : Reported) (m : Motion) (d : Device) : option Device :=
  if fingerDetected && (4 <=? validBeatCount (beats (vitals d))) then
    let hrEmergency :=
      Qltb HR_HIGH_THRESH (currentHR r)
      || (Qltb 0 (currentHR r) && Qltb (currentHR r) HR_LOW_THRESH) in
    let spo2Emergency :=
      Qltb 0 (currentSpO2 r) && Qltb (currentSpO2 r) SPO2_LOW_THRESH in
    if hrEmergency || spo2Emergency then
      if idle d then
        cloud (alertCloud env) (currentHR r) (currentSpO2 r) m
              (trigger (alertTrigger env) (vitals_text r) d)
      else Some d
    else Some d
  else Some d.

(** [triggerManualEmergency], lines 812-840. *)
Definition triggerManualEmergency (env : AlertEnv) (r : Reported) (m : Motion)
    (d : Device) : Device :=
  let d1 := set_emergency (mkEmergency false false (lastCallTime (emergency d))) d in
  let testHR := if Qltb 0 (currentHR r) then currentHR r else 75%Q in
  let testSpO2 := if Qltb 0 (currentSpO2 r) then currentSpO2 r else 98%Q in
  let d2 := set_log (sendEmergencyDataToCloud (deviceId d1) (network (alertCloud env))
                       (cloudClock (alertCloud env)) testHR testSpO2 m (log d1)) d1 in
  trigger (alertTrigger env) (WithVitals "MANUAL EMERGENCY TEST! HR: " testHR testSpO2) d2.

(** What [checkManualEmergencyTrigger] reads. *)
Record ManualIn := mkManualIn {
  serialCmd : option ascii;    (* Serial.read(), if available *)
  buttonLow : bool;            (* digitalRead(EMERGENCY_BUTTON_PIN) == LOW *)
  serialAlert : AlertEnv;      (* for the call of line 774 *)
  buttonAlert : AlertEnv       (* for the call of line 803 *)
}.

Definition is_char (c : ascii) (a b : string) : bool :=
  String.eqb (String c EmptyString) a || String.eqb (String c EmptyString) b.

(** [checkManualEmergencyTrigger], lines 764-810. *)
Definition checkManualEmergencyTrigger (ck : Clock) (inp : ManualIn)
    (r : Reported) (m : Motion) (d : Device) : Device :=
  let d1 :=
    match serialCmd inp with
    | Some cmd =>
        if is_char cmd "E" "e" then triggerManualEmergency (serialAlert inp) r m d
        else if is_char cmd "R" "r" then
          set_emergency (mkEmergency false false (lastCallTime (emergency d))) d
        else d
    | None => d
    end in
  if buttonLow inp then
    let b1 := if buttonPressed (button d1) then button d1
              else mkButton (u32 (ck 798)) true in
    let d2 := set_button b1 d1 in
    if 2000 <=? usub (ck 801) (buttonPressStart b1) then
      emit [Delay 1000]
        (set_button (mkButton (buttonPressStart b1) false)
           (triggerManualEmergency (buttonAlert inp) r m d2))
    else d2
  else set_button (mkButton (buttonPressStart (button d1)) false) d1.

(** ** The control loop *)

Inductive WlStatus := WL_CONNECTED | WL_IDLE_STATUS | WL_DISCONNECTED | WL_OTHER.

Definition is_connected (s : WlStatus) : bool :=
  match s with WL_CONNECTED => true | _ => false end.

(** Everything one pass of [loop] obtains from outside the program. *)
Record LoopIn := mkLoopIn {
  clock : Clock;
  wlStatus : WlStatus;             (* WiFi.status(), line 260 *)
  flushEnv : nat -> UploadEnv;     (* network during uploadQueuedData, per slot *)
  pulse : PulseIn;
  motion : Motion;                 (* mpu.getEvent *)
  accelMag : Q;                    (* the float computed at line 390 *)
  gyroMag : Q;                     (* the float computed at line 391 *)
  fallAlert : AlertEnv;            (* calls of lines 413 and 417 *)
  vitalsAlert : AlertEnv;          (* calls of lines 441 and 445 *)
  polls : list Poll;               (* the call monitor, if it runs *)
  serial : SerialIn;               (* the checkForIncomingSMS of line 456 *)
  manual : ManualIn;
  periodic : CloudEnv              (* call of line 467 *)
}.

(** Lines 260-291: WiFi supervision. *)
Definition check_wifi (inp : LoopIn) (d : Device) : Device :=
  let ck := clock inp in
  let n := net d in
  match wlStatus inp with
  | WL_CONNECTED =>
      if wifiConnected n then d
      else
        let d1 := set_net (mkNet true (lastWiFiCheck n)) d in
        let '(q, l) := uploadQueuedData (deviceId d1) (flushEnv inp) (queue d1, log d1) in
        set_queue q (set_log l d1)
  | st =>
      let d1 := if wifiConnected n then set_net (mkNet false (lastWiFiCheck n)) d else d in
      let last := lastWiFiCheck (net d1) in
      match st with
      | WL_OTHER =>
          if WIFI_RECONNECT_INTERVAL <=? usub (ck 277) last then
            emit [WifiDisconnect; Delay 100; WifiBegin]
                 (set_net (mkNet (wifiConnected (net d1)) (u32 (ck 279))) d1)
          else d1
      | WL_DISCONNECTED =>
          if WIFI_RECONNECT_INTERVAL <=? usub (ck 285) last then
            emit [WifiBegin]
                 (set_net (mkNet (wifiConnected (net d1)) (u32 (ck 287))) d1)
          else d1
      | _ => d1
      end
  end.

(** Lines 450-453: the escalation step. *)
Definition escalate (inp : LoopIn) (d : Device) : option Device :=
  if emergencyActive (emergency d) && negb (emergencyHandled (emergency d)) then
    match handleEmergencyCalls (clock inp) (polls inp) (emergency d, log d) with
    | Some (e, l) => Some (set_emergency e (set_log l d))
    | None => None
    end
  else Some d.

(** Lines 461-468: the scheduled upload. *)
Definition periodic_upload (inp : LoopIn) (r : Reported) (d : Device) : option Device :=
  let currentMillis := u32 (clock inp 462) in
  if DATA_INTERVAL <=? usub currentMillis (previousMillis d) then
    cloud (periodic inp) (currentHR r) (currentSpO2 r) (motion inp)
          (set_previousMillis currentMillis d)
  else Some d.

(** One pass of [loop], lines 255-469, run to its end.  [None]: the pass
    did not complete in the model, either because the queue was written
    out of bounds or because the polls supplied for the call monitor ran
    out.  Line 257 feeds the task watchdog; whether the watchdog lets the
    pass come to its end is decided by [watched_loop] below. *)
Definition loop (inp : LoopIn) (d : Device) : option Device :=
  let d1 := check_wifi inp d in
  let '(v, fingerDetected, r) := read_vitals (clock inp) (pulse inp) (vitals d1) in
  let d2 := set_vitals v d1 in
  d3 ← detect_fall (clock inp) (fallAlert inp) (accelMag inp) (gyroMag inp) r (motion inp) d2;
  d4 ← detect_vitals (vitalsAlert inp) fingerDetected r (motion inp) d3;
  d5 ← escalate inp d4;
  let d6 := on_alarm (checkForIncomingSMS (serial inp)) d5 in
  let d7 := checkManualEmergencyTrigger (clock inp) (manual inp) r (motion inp) d6 in
  periodic_upload inp r d7.

(** Successive passes of [loop]. *)
Fixpoint run (inps : list LoopIn) (d : Device) : option Device :=
  match inps with
  | [] => Some d
  | inp :: rest =>
      match loop inp d with
      | Some d' => run rest d'
      | None => None
      end
  end.

(** ** The task watchdog *)

(** Line 50: the period, in seconds. *)
Definition WDT_TIMEOUT : Z := 30.

(** Lines 201-217 arm the task watchdog with the period [WDT_TIMEOUT] and
    [trigger_panic] set, and subscribe the task that runs [loop].  The one
    [esp_task_wdt_reset()] of the sketch is line 257, the first statement
    of [loop].  [since_fed] is the time in ms since that line last ran:
    once it reaches the period the chip panics and restarts. *)
Definition watchdog_expired (since_fed : Z) : bool :=
  WDT_TIMEOUT * 1000 <=? since_fed.

(** How a pass ends on the device. *)
Inductive PassEnd :=
| Finished (d : Device)     (* the end of [loop] was reached *)
| Restarted.                (* the watchdog expired first *)

(** A pass under the watchdog.  What a pass is known to take is the time
    that its log shows spent in [delay()]: when that alone reaches the
    period, the pass does not come to its end. *)
Definition watched_loop (inp : LoopIn) (d : Device) : option PassEnd :=
  match loop inp d with
  | Some d' =>
      Some (if watchdog_expired (delayed (log d') - delayed (log d))
            then Restarted else Finished d')
  | None => None
  end.

(** The states the globals can be in.  [setup] leaves them as [boot] has
    them, at power-on and after every restart; a restart can come at any
    time, since a pass can outlast the watchdog in other ways than by
    [delay()] (waiting in a polling loop or for the HTTP client).  A pass
    that the watchdog lets finish leaves them as [loop] computes. *)
Inductive reachable (mac : string) : Device -> Prop :=
| reach_setup (wifiUp : bool) : reachable mac (boot mac wifiUp)
| reach_pass (inp : LoopIn) (d d' : Device) :
    reachable mac d ->
    watched_loop inp d = Some (Finished d') ->
    reachable mac d'.

(** ** Vocabulary of the properties *)

Definition sum_list (l : list Z) : Z := foldr Z.add 0 l.

(** Integer mean, rounded toward zero as C++ division does. *)
Definition mean (l : list Z) : Z := Z.quot (sum_list l) (Z.of_nat (length l)).

Definition plausible (x : Z) : Prop := 40 <= x <= 180.

(** The entries of [rates] that count as valid: the first
    [validBeatCount]. *)
Definition valid_entries (b : BeatHistory) : list Z :=
  take (Z.to_nat (validBeatCount b)) (rates b).

(** The invariant of the beat averaging globals. *)
Record beats_ok (v : Vitals) : Prop := mk_beats_ok {
  ok_length : length (rates (beats v)) = Z.to_nat RATE_SIZE;
  ok_count : 0 <= validBeatCount (beats v) <= RATE_SIZE;
  ok_spot : 0 <= rateSpot (beats v) < RATE_SIZE;
  ok_fill : validBeatCount (beats v) < RATE_SIZE ->
            rateSpot (beats v) = validBeatCount (beats v);
  ok_valid : Forall plausible (valid_entries (beats v));
  ok_unused : Forall (eq 0) (drop (Z.to_nat (validBeatCount (beats v))) (rates (beats v)));
  ok_avg : 1 <= validBeatCount (beats v) ->
           beatAvg (beats v) = mean (valid_entries (beats v));
  ok_hr : 1 <= validBeatCount (beats v) -> (40 <= lastValidHR v <= 180)%Q
}.

(** The state of the vital-sign globals right after a contact loss. *)
Record cleared (v : Vitals) : Prop := mk_cleared {
  cleared_rates : rates (beats v) = zero_rates;
  cleared_count : validBeatCount (beats v) = 0;
  cleared_avg : beatAvg (beats v) = 0;
  cleared_hr : lastValidHR v = 0%Q;
  cleared_spo2 : lastValidSpO2 v = 0%Q
}.

(** The pass sees no finger on the sensor (line 298). *)
Definition no_contact (inp : LoopIn) : Prop := (50000 <? irValue (pulse inp)) = false.

(** The heart rate and SpO2 a pass works with. *)
Definition reported (inp : LoopIn) (d : Device) : Reported :=
  snd (read_vitals (clock inp) (pulse inp) (vitals d)).

(** The values reported by each pass of a run. *)
Fixpoint reports (inps : list LoopIn) (d : Device) : list Reported :=
  match inps with
  | [] => []
  | inp :: rest =>
      reported inp d ::
      match loop inp d with
      | Some d' => reports rest d'
      | None => []
      end
  end.

Definition reports_zero (r : Reported) : Prop :=
  currentHR r = 0%Q /\ currentSpO2 r = 0%Q.

(** ** Sample inputs *)

Definition resting : Motion := mkMotion 0 0 (98 # 10) 0 0 0.

Definition net_up : UploadEnv :=
  mkUploadEnv true (mkWifiEnv true (fun _ => 200)) (GsmPosted true).

Definition net_down : UploadEnv :=
  mkUploadEnv false (mkWifiEnv false (fun _ => -1)) GsmNoSession.

Definition alert_at (t : Z) : AlertEnv :=
  mkAlertEnv (mkTriggerEnv Confirmed t) (mkCloudEnv net_up t).

Definition serial_idle : SerialIn := mkSerialIn None "" NoPrompt.

Definition manual_idle (t : Z) : ManualIn :=
  mkManualIn None false (alert_at t) (alert_at t).

Definition no_estimate (ir red : list Z) : Estimate := mkEstimate 0 0 0 0.

(** Pulse sensor input with the finger on ([ir] above the threshold) or
    off, and the beat detector firing or not. *)
Definition pulse_in (ir : Z) (beat : bool) : PulseIn :=
  mkPulseIn ir ir beat false 0 0 no_estimate.

(** A pass at time [t] with the given pulse input and magnitudes, a
    working network and a silent modem. *)
Definition pass (t : Z) (p : PulseIn) (a g : Q) : LoopIn :=
  mkLoopIn (fun _ => t) WL_CONNECTED (fun _ => net_up) p resting a g
           (alert_at t) (alert_at t) [] serial_idle (manual_idle t)
           (mkCloudEnv net_up t).

(** The pass stores the sample that fills the SpO2 window, so that the
    estimation routine runs (lines 346-356). *)
Definition window_completes (ck : Clock) (inp : PulseIn) (v : Vitals) : bool :=
  let w1 := start_collection ck (window v) in
  spo2CollectionActive w1
  && (SPO2_SAMPLE_INTERVAL <=? usub (ck 346) (lastSpo2Sample w1))
  && sampleAvailable inp
  && (BUFFER_LENGTH <=? snd (store_sample inp w1)).

(** What the estimation routine returns on the filled window. *)
Definition estimate_of (ck : Clock) (inp : PulseIn) (v : Vitals) : Estimate :=
  let w1 := start_collection ck (window v) in
  maxim inp (fst (fst (store_sample inp w1))) (snd (fst (store_sample inp w1))).

Definition spo2_acceptable (e : Estimate) : Prop :=
  validSPO2 e <> 0 /\ 70 <= spo2Value e <= 100.

Definition hr_acceptable (e : Estimate) (v : Vitals) : Prop :=
  validHeartRate e <> 0 /\ 40 <= heartRateValue e <= 180
  /\ validBeatCount (beats v) < 4.

(** A vital-sign state one sample short of a full SpO2 window. *)
Definition nearly_full : Vitals :=
  mkVitals boot_beats (mkSpo2Window zero_buffer zero_buffer 99 true 0 0) 0 0 true.

(** Pulse input delivering a sample, with the routine answering SpO2 97
    and heart rate 72, both flagged valid. *)
Definition sample_in : PulseIn :=
  mkPulseIn 60000 60000 false true 51000 61000 (fun _ _ => mkEstimate 97 1 72 1).

(** ** Vocabulary of the escalation properties *)

(** The two flags are not both set. *)
Definition exclusive (e : Emergency) : Prop :=
  emergencyActive e && emergencyHandled e = false.

(** One request for escalation by a detector: what the call meets and the
    text it passes. *)
Definition Request : Type := TriggerEnv * SmsText.

Definition fire (st : Emergency * Log) (rq : Request) : Emergency * Log :=
  triggerEmergency (smsReply (fst rq)) (triggerClock (fst rq)) (snd rq) st.

(** A sequence of [triggerEmergency] calls. *)
Definition fire_all (rqs : list Request) (st : Emergency * Log) : Emergency * Log :=
  fold_left fire rqs st.

Definition is_sms_command (o : Output) : bool :=
  match o with AtCmgs _ => true | _ => false end.

(** Number of SMS sends started so far. *)
Definition sms_count (l : Log) : nat := length (List.filter is_sms_command l).

(** The three states of the escalation machine, read off the two flags. *)
Inductive Phase := Idle | Active | Handled.

Definition phase (e : Emergency) : option Phase :=
  match emergencyActive e, emergencyHandled e with
  | false, false => Some Idle
  | true, false => Some Active
  | false, true => Some Handled
  | true, true => None
  end.

(** The serial line carries a stored-message notification and the message
    read back contains the acknowledgment keyword (lines 958 and 979). *)
Definition is_ack (s : SerialIn) : bool :=
  match rx s with
  | Some data =>
      contains data "+CMTI:"
      && (contains (cmgrReply s) "OK" || contains (cmgrReply s) "ok")
  | None => false
  end.

(** ** More sample inputs *)

Definition with_manual (m : ManualIn) (i : LoopIn) : LoopIn :=
  mkLoopIn (clock i) (wlStatus i) (flushEnv i) (pulse i) (motion i) (accelMag i)
           (gyroMag i) (fallAlert i) (vitalsAlert i) (polls i) (serial i) m
           (periodic i).

Definition with_polls (ps : list Poll) (i : LoopIn) : LoopIn :=
  mkLoopIn (clock i) (wlStatus i) (flushEnv i) (pulse i) (motion i) (accelMag i)
           (gyroMag i) (fallAlert i) (vitalsAlert i) ps (serial i) (manual i)
           (periodic i).

(** The operator types E on the serial console. *)
Definition manual_E (t : Z) : ManualIn :=
  mkManualIn (Some "E"%char) false (alert_at t) (alert_at t).

(** The responder's message arrives: notification, then the text read
    back. *)
Definition ack_serial : SerialIn :=
  mkSerialIn (Some "+CMTI: SM,3"%string) "+CMGR: REC UNREAD OK" Confirmed.

(** A poll at time [t] at which nothing has arrived and the call is still
    ringing. *)
Definition poll_ringing (t : Z) : Poll :=
  mkPoll t serial_idle (Some "+CLCC: 1,0,3,0,0"%string).

Definition poll_ack (t : Z) : Poll := mkPoll t ack_serial None.

Definition poll_answered (t : Z) : Poll :=
  mkPoll t serial_idle (Some "+CLCC: 1,0,0,0,0"%string).

(** A poll at which the call is still ringing and the notification of the
    responder's message arrives while the call status is awaited (the
    [delay(500)] of line 924): the [readString()] of line 926 returns it
    together with the answer to [AT+CLCC]. *)
Definition poll_ack_with_status (t : Z) : Poll :=
  mkPoll t serial_idle (Some "+CLCC: 1,0,3,0,0 OK +CMTI: SM,3"%string).

(** [n] polls, 1.5 s apart from [t] on, at which the call rings. *)
Definition ringing_polls (t : Z) (n : nat) : list Poll :=
  map (fun i => poll_ringing (t + 1500 * Z.of_nat i)) (seq 0 n).

(** A call placed at 2000 ms.  The notification arrives with the first
    call status; the call then rings on, polled every 1.5 s, until the
    poll that finds the 25 s over. *)
Definition lost_ack_polls : list Poll :=
  poll_ack_with_status 2000 :: ringing_polls 3500 16 ++ [mkPoll 27500 serial_idle None].

(** The data that [checkForIncomingSMS] reads holds a stored-message
    notification (line 958). *)
Definition notifies (s : SerialIn) : bool :=
  match rx s with
  | Some data => contains data "+CMTI:"
  | None => false
  end.

(** The call status read at line 926 shows the call answered (line 928). *)
Definition answered (p : Poll) : bool :=
  match clccReply p with
  | Some resp => contains resp "+CLCC: 1,0,0,0,0"
  | None => false
  end.

(** A poll inside the 25 s wait at which [checkForIncomingSMS] reads no
    notification and the call status does not show the call answered. *)
Definition quiet (callStart : Z) (p : Poll) : bool :=
  (usub (pollClock p) callStart <? 25000)
  && negb (notifies (pollSerial p))
  && negb (answered p).

(** What [n] turns of the monitor loop send when nothing happens. *)
Definition ring_log (n : nat) : Log := concat (replicate n [AtClcc; Delay 500]).

(** ** Vocabulary of the transport properties *)

(** The attempt numbers of the HTTP POSTs in a log. *)
Fixpoint posted (l : Log) : list Z :=
  match l with
  | [] => []
  | HttpPost k _ :: rest => k :: posted rest
  | _ :: rest => posted rest
  end.

(** What one [sendDataViaWiFi] call emits, and its result. *)
Definition wifi_trace (env : WifiEnv) (payload : JsonDoc) : Log :=
  fst (sendDataViaWiFi env payload []).

Definition wifi_result (env : WifiEnv) (payload : JsonDoc) : bool :=
  snd (sendDataViaWiFi env payload []).

(** In a log, every POST is followed either by the end of the HTTP session
    or by a pause of one second and the next POST. *)
Fixpoint paced (l : Log) : bool :=
  match l with
  | [] => true
  | HttpPost _ _ :: rest =>
      match rest with
      | HttpEnd :: _ => paced rest
      | Delay 1000 :: HttpPost _ _ :: _ => paced rest
      | _ => false
      end
  | _ :: rest => paced rest
  end.

(** What [http.POST] returns: the status code of the response, a positive
    number, or one of the library's negative error numbers, those that
    line 526 hands to [errorToString].  It does not return 0. *)
Definition http_codes (env : WifiEnv) : Prop := forall k, post env k <> 0.

Definition sample_doc : JsonDoc := cloud_doc "A1B2" 1000 72 98 resting.

(** ** Vocabulary of the payload properties *)

(** The twelve members the ingestion endpoint is specified to receive. *)
Definition required_fields : list string :=
  ["device_id"; "heart_rate"; "spo2"; "accel_x"; "accel_y"; "accel_z";
   "gyro_x"; "gyro_y"; "gyro_z"; "timestamp"; "gps_lat"; "gps_long"]%string.

Definition flag_fields : list string :=
  ["emergency"; "manual_trigger"; "queued"]%string.

(** The document carried by an output, if it is an upload. *)
Definition payload_of (o : Output) : option JsonDoc :=
  match o with
  | HttpPost _ doc => Some doc
  | GsmHttp doc => Some doc
  | _ => None
  end.

(** The documents uploaded in a log, in order. *)
Definition uploads (l : Log) : list JsonDoc := omap payload_of l.

Definition complete (doc : JsonDoc) : bool :=
  forallb (has_key doc) required_fields.

(** A queue whose slot 0 holds one reading waiting to be sent again. *)
Definition one_pending : Queue :=
  mkQueue (<[0%nat := mkSensorData 72 98 resting true]>
             (replicate (Z.to_nat DATA_QUEUE_SIZE) empty_slot)) 1.

(** The members of the document sent for a detector or manual emergency
    by [sendEmergencyDataToCloud], and of the one sent for a queued
    reading. *)
Definition emergency_fields : list string :=
  ["device_id"; "heart_rate"; "spo2"; "accel_x"; "accel_y"; "accel_z";
   "gyro_x"; "gyro_y"; "gyro_z"; "timestamp"; "emergency"; "manual_trigger";
   "gps_lat"; "gps_long"]%string.

Definition queued_fields : list string :=
  ["device_id"; "heart_rate"; "spo2"; "accel_x"; "accel_y"; "accel_z";
   "gyro_x"; "gyro_y"; "gyro_z"; "queued"; "gps_lat"; "gps_long"]%string.

(** ** Vocabulary of the queue properties *)

(** The array has its five slots and the write index points into it. *)
Definition queue_ok (q : Queue) : Prop :=
  length (dataQueue q) = Z.to_nat DATA_QUEUE_SIZE
  /\ 0 <= queueHead q < DATA_QUEUE_SIZE.

(** What [queueData] is given: heart rate, SpO2 and the motion sample. *)
Definition Reading : Type := Q * Q * Motion.

Definition slot_of (r : Reading) : SensorData :=
  mkSensorData (fst (fst r)) (snd (fst r)) (snd r) true.

Definition enqueue (q : Queue) (r : Reading) : option Queue :=
  queueData (fst (fst r)) (snd (fst r)) (snd r) q.

(** Successive [queueData] calls. *)
Fixpoint enqueue_all (rs : list Reading) (q : Queue) : option Queue :=
  match rs with
  | [] => Some q
  | r :: rest =>
      match enqueue q r with
      | Some q' => enqueue_all rest q'
      | None => None
      end
  end.

(** The slots in ring order, starting at the write index: the slot that
    the next [queueData] overwrites comes first, the slot written last
    comes last. *)
Definition ring_view (q : Queue) : list SensorData :=
  drop (Z.to_nat (queueHead q)) (dataQueue q)
  ++ take (Z.to_nat (queueHead q)) (dataQueue q).

(** The readings waiting for upload, oldest first. *)
Definition waiting (q : Queue) : list SensorData :=
  List.filter pending (ring_view q).

Definition pending_count (q : Queue) : nat :=
  length (List.filter pending (dataQueue q)).

(** Seven readings told apart by their heart rate. *)
Definition reading_n (n : Z) : Reading := (inject_Z n, 98%Q, resting).

Definition seven_readings : list Reading :=
  map reading_n [61; 62; 63; 64; 65; 66; 67].

(** ** Vocabulary of the fall detector properties *)

(** The impact test of line 396. *)
Definition impact (a g : Q) : bool :=
  Qltb ACCEL_FALL_THRESH a && Qltb GYRO_FALL_THRESH g.

(** The stillness test of line 408. *)
Definition still (a : Q) : bool := Qltb a POST_FALL_STILLNESS_THRESH.

(** The candidate the stillness check of a pass sees: the one left by
    earlier passes, or the one this pass has just opened. *)
Definition candidate (ck : Clock) (a g : Q) (d : Device) : FallState :=
  fall (fall_impact ck a g d).

(** Time since the candidate was opened, as computed at line 406. *)
Definition elapsed (ck : Clock) (a g : Q) (d : Device) : Z :=
  usub (ck 406) (fallDetectedTime (candidate ck a g d)).

(** The escalation state and log right after a FALL alarm was raised from
    the log [l]. *)
Definition fall_alarm (env : AlertEnv) (l : Log) : Emergency * Log :=
  (mkEmergency true false (usub (triggerClock (alertTrigger env)) CALL_INTERVAL),
   fst (sendSMS (smsReply (alertTrigger env)) EMERGENCY_PHONE fall_text l)).

(** A call placed at [t] that rings and is not answered: one poll inside
    the wait, then the poll that finds the 25 s over. *)
Definition unanswered (t : Z) : list Poll :=
  [poll_ringing t; mkPoll (t + 25700) serial_idle None].

(** A network on which the first two POSTs of a call fail and the third
    is answered. *)
Definition net_third_try : UploadEnv :=
  mkUploadEnv true (mkWifiEnv true (fun k => if k <? 3 then -1 else 200)) GsmNoSession.

(** A pass at 120000 ms in which the wearer hits the ground (30 m/s^2,
    250 rad/s) and the periodic upload is due (line 463); the upload is
    answered at its third attempt. *)
Definition impact_slow_upload : LoopIn :=
  mkLoopIn (fun _ => 120000) WL_CONNECTED (fun _ => net_up) (pulse_in 100 false)
           resting 30 250 (alert_at 120000) (alert_at 120000) [] serial_idle
           (manual_idle 120000) (mkCloudEnv net_third_try 120000).

(** The next pass, 2.5 s after the impact, with the wearer lying still;
    the call that the alarm starts rings and is not answered. *)
Definition still_after_upload : LoopIn :=
  with_polls (unanswered 122500) (pass 122500 (pulse_in 100 false) 5 0).

(** The device after a pass at 1000 ms in which both magnitudes exceed the
    impact thresholds (30 m/s^2, 250 rad/s): a candidate is pending. *)
Definition after_impact : Device :=
  Eval vm_compute in
    default (boot "A1B2" true)
            (run [pass 1000 (pulse_in 100 false) 30 250] (boot "A1B2" true)).

(** The device after the fall detector has then run at 1300 ms with the
    wearer still (5 m/s^2). *)
Definition after_stillness : Device :=
  Eval vm_compute in
    default after_impact
            (detect_fall (fun _ => 1300) (alert_at 1300) 5 0 (mkReported 0 0)
                         resting after_impact).

(** The device after the pass [impact_slow_upload]: a candidate is
    pending, and the log shows the two retry delays. *)
Definition after_slow_upload : Device :=
  Eval vm_compute in
    default (boot "A1B2" true) (run [impact_slow_upload] (boot "A1B2" true)).

(** The device after the fall detector has then run at 122500 ms with the
    wearer still (5 m/s^2). *)
Definition after_late_stillness : Device :=
  Eval vm_compute in
    default after_slow_upload
            (detect_fall (fun _ => 122500) (alert_at 122500) 5 0 (mkReported 0 0)
                         resting after_slow_upload).

(** ** Vocabulary of the progress properties *)

(** A network on which every POST over WiFi fails and the modem delivers
    the payload. *)
Definition wifi_failing : UploadEnv :=
  mkUploadEnv true (mkWifiEnv true (fun _ => -1)) (GsmPosted true).

(** [n] polls, 500 ms apart from [t] on, at which nothing is read: the
    modem does not answer the call status query. *)
Definition silent_polls (t : Z) (n : nat) : list Poll :=
  map (fun i => mkPoll (t + 500 * Z.of_nat i) serial_idle None) (seq 0 n).

(** A pass at 120100 ms in which the wearer lies still, the upload that
    goes with the alarm and the periodic upload both fail over WiFi, and
    the call rings for 25 s without the call status being answered. *)
Definition alarm_with_long_call : LoopIn :=
  mkLoopIn (fun _ => 120100) WL_CONNECTED (fun _ => net_up) (pulse_in 100 false)
           resting 5 0
           (mkAlertEnv (mkTriggerEnv Confirmed 120100) (mkCloudEnv wifi_failing 120100))
           (alert_at 120100)
           (silent_polls 120100 50 ++ [mkPoll 145100 serial_idle None])
           serial_idle (manual_idle 120100) (mkCloudEnv wifi_failing 120100).

(** The pass whose impact opened the candidate: both magnitudes exceed
    their thresholds and line 400 read the time [t]. *)
Definition opens_candidate (t : Z) (inp : LoopIn) : Prop :=
  impact (accelMag inp) (gyroMag inp) = true /\ t = u32 (clock inp 400).

(** One hundred and one passes 10 ms apart from 5 s after boot, the finger
    on the sensor and a sample ready in each: the first starts a
    collection, the others each store one sample. *)
Definition sampling_passes : list LoopIn :=
  map (fun k => pass (5000 + 10 * Z.of_nat k) sample_in 10 0) (seq 0 101).

(** Four beats 387 ms apart (155 beats per minute) with the finger on; the
    call that follows the alarm of the fourth pass is not answered. *)
Definition racing_heart : list LoopIn :=
  [pass 387 (pulse_in 60000 true) 10 0;
   pass 774 (pulse_in 60000 true) 10 0;
   pass 1161 (pulse_in 60000 true) 10 0;
   with_polls (unanswered 1548) (pass 1548 (pulse_in 60000 true) 10 0)].

(** * Further properties of the firmware: vocabulary *)

(** ** Cached and reported vitals *)

(** A heart rate is absent (0) or within the accepted band. *)
Definition hr_plausible (x : Q) : Prop := x = 0%Q \/ (40 <= x <= 180)%Q.

(** An SpO2 value is absent (0) or within the accepted band. *)
Definition spo2_plausible (x : Q) : Prop := x = 0%Q \/ (70 <= x <= 100)%Q.

Definition cached_ok (v : Vitals) : Prop :=
  hr_plausible (lastValidHR v) /\ spo2_plausible (lastValidSpO2 v).

(** The three tests of the physiological classifier, lines 435-436. *)
Definition hr_high (r : Reported) : bool := Qltb HR_HIGH_THRESH (currentHR r).
Definition hr_low (r : Reported) : bool :=
  Qltb 0 (currentHR r) && Qltb (currentHR r) HR_LOW_THRESH.
Definition spo2_low (r : Reported) : bool :=
  Qltb 0 (currentSpO2 r) && Qltb (currentSpO2 r) SPO2_LOW_THRESH.

(** The device and pass at which the classifier runs on a heart rate of 155
    (the fourth pass of [racing_heart]). *)
Definition three_beats : list LoopIn := take 3 racing_heart.

Definition fourth_beat : LoopIn :=
  with_polls (unanswered 1548) (pass 1548 (pulse_in 60000 true) 10 0).

(** ** Escalation: what reaches the responder *)

Definition is_dial (o : Output) : bool :=
  match o with Atd _ => true | _ => false end.

(** Number of calls dialled so far. *)
Definition dial_count (l : Log) : nat := length (List.filter is_dial l).

(** What an upload writes, and whether it reports delivery. *)
Definition upload_trace (env : UploadEnv) (payload : JsonDoc) : Log :=
  fst (upload env payload []).

Definition delivered (env : UploadEnv) (payload : JsonDoc) : bool :=
  snd (upload env payload []).


(** A device whose alarm was acknowledged: the run of
    [C10_flags_exclusive_witness]. *)
Definition acknowledged : Device :=
  Eval vm_compute in
    default (boot "A1B2" true)
      (run [with_manual (manual_E 1000) (pass 1000 (pulse_in 100 false) 10 0);
            with_polls [poll_ringing 2000; poll_ack 2600]
              (pass 2000 (pulse_in 100 false) 10 0)]
           (boot "A1B2" true)).


(** The value [triggerManualEmergency] sends in place of a missing
    reading (lines 818-819). *)
Definition or_test_value (x dflt : Q) : Q := if Qltb 0 x then x else dflt.

Definition manual_text (r : Reported) : SmsText :=
  WithVitals "MANUAL EMERGENCY TEST! HR: "
             (or_test_value (currentHR r) 75) (or_test_value (currentSpO2 r) 98).

Definition manual_doc (id : string) (now : Z) (r : Reported) (m : Motion) : JsonDoc :=
  emergency_doc id now (or_test_value (currentHR r) 75)
                (or_test_value (currentSpO2 r) 98) m.

(** The console character is one of the two given letters. *)
Definition console_is (inp : ManualIn) (a b : string) : bool :=
  match serialCmd inp with
  | Some c => is_char c a b
  | None => false
  end.

(** A clock that reads [t] at every call. *)
Definition at_time (t : Z) : Clock := fun _ => t.

(** The escalation state right after an alarm raised at 1000 ms. *)
Definition just_alarmed : Emergency * Log :=
  triggerEmergency Confirmed 1000 fall_text (boot_emergency, []).

(** The serial line carries a stored-message notification whose message
    has the resume keyword and not the acknowledgment keyword. *)
Definition is_resume (s : SerialIn) : bool :=
  match rx s with
  | Some data =>
      contains data "+CMTI:"
      && negb (contains (cmgrReply s) "OK" || contains (cmgrReply s) "ok")
      && (contains (cmgrReply s) "Resume" || contains (cmgrReply s) "resume")
  | None => false
  end.

Definition with_serial (s : SerialIn) (i : LoopIn) : LoopIn :=
  mkLoopIn (clock i) (wlStatus i) (flushEnv i) (pulse i) (motion i) (accelMag i)
           (gyroMag i) (fallAlert i) (vitalsAlert i) (polls i) s (manual i)
           (periodic i).

(** The fourth pass of [racing_heart] with the responder's acknowledgment
    arriving after the call was given up. *)
Definition alarm_then_ack : LoopIn := with_serial ack_serial fourth_beat.

(** A call is due: the device is Active and unacknowledged and
    [CALL_INTERVAL] has passed since the last call (lines 897-899). *)
Definition call_due (ck : Clock) (e : Emergency) : bool :=
  emergencyActive e && negb (emergencyHandled e)
  && (CALL_INTERVAL <=? usub (ck 899) (lastCallTime e)).

Definition after_three_beats : Device :=
  Eval vm_compute in
    default (boot "A1B2" true) (run three_beats (boot "A1B2" true)).

Definition after_alarm_and_ack : Device :=
  Eval vm_compute in default after_three_beats (loop alarm_then_ack after_three_beats).

(** ** Queue and transport *)

(** A slot with its pending flag cleared (line 747). *)
Definition clear_slot (d : SensorData) : SensorData :=
  mkSensorData (q_hr d) (q_spo2 d) (q_motion d) false.

(** What a flush does to slot [i]: cleared if it was pending and its
    upload was reported delivered, untouched otherwise. *)
Definition flush_slot (id : string) (envs : nat -> UploadEnv) (i : nat)
    (d : SensorData) : SensorData :=
  if pending d && delivered (envs i) (queued_doc id d) then clear_slot d else d.

(** [doc[key]] read back. *)
Fixpoint doc_get (key : string) (doc : JsonDoc) : option JValue :=
  match doc with
  | [] => None
  | (k, v) :: rest => if String.eqb k key then Some v else doc_get key rest
  end.

(** The modem's part of an upload. *)
Definition gsm_trace (o : GsmOutcome) (payload : JsonDoc) : Log :=
  fst (sendDataViaGSM o payload []).

Definition gsm_result (o : GsmOutcome) (payload : JsonDoc) : bool :=
  snd (sendDataViaGSM o payload []).

(** WiFi was tried and reported success. *)
Definition wifi_delivered (env : UploadEnv) (payload : JsonDoc) : bool :=
  wifiStatus env && wifi_result (wifi env) payload.

(** A queue holding two unsent readings, the first of which will go
    through at the next flush and the second not. *)
Definition two_pending : Queue :=
  mkQueue [mkSensorData 61 98 resting true; mkSensorData 62 97 resting true;
           empty_slot; empty_slot; empty_slot] 2.

Definition first_only (i : nat) : UploadEnv :=
  match i with O => net_up | _ => net_down end.

(** ** Sampling buffers and beat intervals *)

(** The invariant of the SpO2 sampling globals: both buffers keep their
    declared length and the write cursor is inside them while a collection
    is running. *)
Record window_ok (w : Spo2Window) : Prop := mk_window_ok {
  ok_ir : length (irBuffer w) = Z.to_nat BUFFER_LENGTH;
  ok_red : length (redBuffer w) = Z.to_nat BUFFER_LENGTH;
  ok_index : 0 <= spo2SampleIndex w <= BUFFER_LENGTH;
  ok_active : spo2CollectionActive w = true -> spo2SampleIndex w < BUFFER_LENGTH
}.

(** The time in milliseconds between this beat and the previous one, as
    line 316 computes it. *)
Definition beat_delta (ck : Clock) (v : Vitals) : Z :=
  s32 (usub (ck 316) (u32 (lastBeat (beats v)))).

(** Beat-to-beat intervals the rate guard of line 320 lets through. *)
Definition interval_accepted (delta : Z) : Prop := 334 <= delta <= 1500.

(** * The modem dialogue

    The functions that talk to the SIM900A over [gsmSerial], character by
    character.  A polling loop [while (millis() - startTime < timeout)] is
    given its turns: for each evaluation of the condition the value of
    [millis()], and what the serial line holds for the body.  No call site
    is inside a loop of its caller, so what a call site meets is looked up
    by its source line. *)

Module Modem.

(** What is written to [gsmSerial], and the pauses in between. *)
Inductive Tx :=
| Println (s : string)     (* gsmSerial.println(s) *)
| Print (s : string)       (* gsmSerial.print(s) *)
| WriteByte (b : Z)        (* gsmSerial.write(b) *)
| Pause (ms : Z).          (* delay(ms) *)

(** One turn of a polling loop: [millis()] in the loop condition, and what
    [gsmSerial.available()] and the read that follows yield. *)
Record Tick (A : Type) := mkTick {
  tickClock : Z;
  tickData : option A
}.

Arguments mkTick {A} _ _.
Arguments tickClock {A} _.
Arguments tickData {A} _.

(** What one polling loop meets: [millis()] read just before it, and its
    turns. *)
Record Wait (A : Type) := mkWait {
  startTime : Z;
  ticks : list (Tick A)
}.

Arguments mkWait {A} _ _.
Arguments startTime {A} _.
Arguments ticks {A} _.

(** The modem as one call of [sendDataViaGSM] or [sendSMS] sees it, by
    source line: the loops that read single characters, the loops that
    use [readString()], and the [while (available()) resp += read()]
    drains. *)
Record Line := mkLine {
  chars : Z -> Wait ascii;
  chunks : Z -> Wait string;
  buffered : Z -> string
}.

(** The global [gprsConnected] and everything sent so far. *)
Record Gsm := mkGsm {
  gprsConnected : bool;
  wire : list Tx
}.

(** Computations on the modem state; [None] when the turns supplied to a
    polling loop end while its condition still holds. *)
Definition M (A : Type) : Type := Gsm -> option (A * Gsm).

Definition ret {A : Type} (a : A) : M A := fun g => Some (a, g).

Definition bind {A B : Type} (m : M A) (f : A -> M B) : M B :=
  fun g => match m g with
           | Some (a, g1) => f a g1
           | None => None
           end.

Notation "x <== m ; k" := (bind m (fun x => k))
  (at level 20, m at level 100, k at level 200, only parsing).

Definition lift {A : Type} (o : option A) : M A :=
  fun g => match o with Some a => Some (a, g) | None => None end.

Definition send (t : list Tx) : M unit :=
  fun g => Some (tt, mkGsm (gprsConnected g) (wire g ++ t)).

Definition connected : M bool := fun g => Some (gprsConnected g, g).

Definition set_connected (b : bool) : M unit :=
  fun g => Some (tt, mkGsm b (wire g)).

(** [response += c]. *)
Definition push (response : string) (c : ascii) : string :=
  (response ++ String c EmptyString)%string.

(** The loop of lines 1089-1101, which is also that of lines 1044-1056. *)
Fixpoint await (expected : string) (timeout start : Z) (ts : list (Tick ascii))
    (response : string) : option bool :=
  match ts with
  | [] => None
  | t :: rest =>
      if usub (tickClock t) start <? timeout then
        let response' := match tickData t with
                         | Some c => push response c
                         | None => response
                         end in
        if contains response' expected then Some true
        else if contains response' "ERROR" then Some false
        else await expected timeout start rest response'
      else Some false
  end.

(** [sendATCommand(cmd, expected, timeout)], lines 1079-1104.  What was
    pending before the command is discarded by the source and is not part
    of [w]. *)
Definition sendATCommand (w : Wait ascii) (cmd expected : string) (timeout : Z) : M bool :=
  _ <== send [Println cmd];
  lift (await expected timeout (startTime w) (ticks w) EmptyString).

(** The configuration constants of lines 43 and 53-55. *)
Definition serverUrl : string := "http://34.197.138.31:8000/api/v1/ingest".
Definition gsmApn : string := "airtelgprs.com".
Definition gsmUser : string := EmptyString.
Definition gsmPass : string := EmptyString.

(** A double quote inside a command. *)
Definition dq : string := String "034"%char EmptyString.

(** [AT+SAPBR=3,1,"key","value"]. *)
Definition sapbr_set (key value : string) : string :=
  ("AT+SAPBR=3,1," ++ dq ++ key ++ dq ++ "," ++ dq ++ value ++ dq)%string.

(** [AT+HTTPPARA="key",] followed by [value]. *)
Definition httppara (key value : string) : string :=
  ("AT+HTTPPARA=" ++ dq ++ key ++ dq ++ "," ++ value)%string.

Definition quoted (s : string) : string := (dq ++ s ++ dq)%string.

(** [String(n)] for a length. *)
Definition decimal (n : nat) : string := NilZero.string_of_uint (Nat.to_uint n).

(** [initGPRS()], lines 629-685. *)
Definition initGPRS (env : Line) : M bool :=
  _ <== send [Println "AT+CGATT?"; Pause 1000];
  attached <== (if contains (buffered env 636) "+CGATT: 0"
                then sendATCommand (chars env 642) "AT+CGATT=1" "OK" 10000
                else ret true);
  if negb attached then ret false
  else
    _ <== sendATCommand (chars env 649) (sapbr_set "CONTYPE" "GPRS") "OK" 2000;
    _ <== sendATCommand (chars env 653) (sapbr_set "APN" gsmApn) "OK" 2000;
    _ <== (if (0 <? String.length gsmUser)%nat
           then sendATCommand (chars env 658) (sapbr_set "USER" gsmUser) "OK" 2000
           else ret false);
    _ <== (if (0 <? String.length gsmPass)%nat
           then sendATCommand (chars env 664) (sapbr_set "PWD" gsmPass) "OK" 2000
           else ret false);
    opened <== sendATCommand (chars env 668) "AT+SAPBR=1,1" "OK" 15000;
    if opened then
      _ <== set_connected true; ret true
    else
      _ <== send [Println "AT+SAPBR=2,1"; Pause 2000];
      if contains (buffered env 673) "+SAPBR: 1,1" then
        _ <== set_connected true; ret true
      else ret false.

(** [closeGPRS()], lines 688-692.  Nothing in the sketch calls it. *)
Definition closeGPRS (env : Line) : M unit :=
  _ <== sendATCommand (chars env 689) "AT+SAPBR=0,1" "OK" 5000;
  set_connected false.

(** The loop of lines 577-585. *)
Fixpoint await_download (start : Z) (ts : list (Tick string)) : option bool :=
  match ts with
  | [] => None
  | t :: rest =>
      if usub (tickClock t) start <? 3000 then
        match tickData t with
        | Some resp =>
            if contains resp "DOWNLOAD" then Some true
            else await_download start rest
        | None => await_download start rest
        end
      else Some false
  end.

(** The loop of lines 603-620; [pauses] counts its [delay(100)]. *)
Fixpoint await_action (start : Z) (ts : list (Tick string)) (pauses : nat)
  : option (bool * nat) :=
  match ts with
  | [] => None
  | t :: rest =>
      if usub (tickClock t) start <? 30000 then
        match tickData t with
        | Some resp =>
            if contains resp "+HTTPACTION:" then
              Some (contains resp ",200," || contains resp ",201,", pauses)
            else await_action start rest (S pauses)
        | None => await_action start rest (S pauses)
        end
      else Some (false, pauses)
  end.

Definition http_init : string := "AT+HTTPINIT".
Definition http_term : string := "AT+HTTPTERM".
Definition http_action : string := "AT+HTTPACTION=1".

Definition http_data (jsonPayload : string) : string :=
  ("AT+HTTPDATA=" ++ decimal (String.length jsonPayload) ++ ",10000")%string.

(** [sendDataViaGSM(jsonPayload)], lines 535-626. *)
Definition sendDataViaGSM (env : Line) (jsonPayload : string) : M bool :=
  up <== connected;
  ready <== (if negb up then initGPRS env else ret true);
  if negb ready then ret false
  else
    first <== sendATCommand (chars env 547) http_init "OK" 2000;
    started <== (if first then ret true
                 else
                   _ <== sendATCommand (chars env 549) http_term "OK" 1000;
                   sendATCommand (chars env 550) http_init "OK" 2000);
    if negb started then ret false
    else
      _ <== sendATCommand (chars env 557) (httppara "CID" "1") "OK" 1000;
      url <== sendATCommand (chars env 561) (httppara "URL" (quoted serverUrl)) "OK" 2000;
      if negb url then
        _ <== sendATCommand (chars env 562) http_term "OK" 1000; ret false
      else
        _ <== sendATCommand (chars env 567)
                (httppara "CONTENT" (quoted "application/json")) "OK" 1000;
        _ <== send [Println (http_data jsonPayload); Pause 500];
        downloadPrompt <== lift (await_download (startTime (chunks env 577))
                                                (ticks (chunks env 577)));
        if negb downloadPrompt then
          _ <== sendATCommand (chars env 589) http_term "OK" 1000; ret false
        else
          _ <== send [Print jsonPayload; Pause 1000; Println http_action];
          result <== lift (await_action (startTime (chunks env 603))
                                        (ticks (chunks env 603)) 0);
          _ <== send (replicate (snd result) (Pause 100));
          _ <== sendATCommand (chars env 623) http_term "OK" 1000;
          ret (fst result).

(** The loop of lines 1021-1029. *)
Fixpoint await_prompt (start : Z) (ts : list (Tick ascii)) : option bool :=
  match ts with
  | [] => None
  | t :: rest =>
      if usub (tickClock t) start <? 3000 then
        match tickData t with
        | Some c => if Ascii.eqb c ">" then Some true else await_prompt start rest
        | None => await_prompt start rest
        end
      else Some false
  end.

(** [sendSMS(num, msg)], lines 1010-1060. *)
Definition sendSMS (env : Line) (num msg : string) : M bool :=
  _ <== send [Print ("AT+CMGS=" ++ dq); Print num; Println dq; Pause 1000];
  promptReceived <== lift (await_prompt (startTime (chars env 1021))
                                        (ticks (chars env 1021)));
  if negb promptReceived then
    _ <== send [WriteByte 27]; ret false
  else
    _ <== send [Print msg; Pause 100; WriteByte 26];
    lift (await "+CMGS:" 10000 (startTime (chars env 1044)) (ticks (chars env 1044))
                EmptyString).

(** ** Vocabulary of the dialogue properties *)

(** The command lines in what was sent, in order. *)
Definition command_of (tx : Tx) : option string :=
  match tx with Println s => Some s | _ => None end.

Definition commands (t : list Tx) : list string := omap command_of t.

(** The text sent without a line end, in order. *)
Definition raw_of (tx : Tx) : option string :=
  match tx with Print s => Some s | _ => None end.

Definition printed (t : list Tx) : list string := omap raw_of t.

(** A command of the modem's HTTP service. *)
Definition is_http (c : string) : bool := String.prefix "AT+HTTP" c.

(** The turns a polling loop takes: those before the first one whose clock
    fails the condition. *)
Fixpoint in_time {A : Type} (timeout start : Z) (ts : list (Tick A)) : list (Tick A) :=
  match ts with
  | [] => []
  | t :: rest =>
      if usub (tickClock t) start <? timeout then t :: in_time timeout start rest
      else []
  end.

(** What the loop reads in those turns. *)
Definition received {A : Type} (timeout : Z) (w : Wait A) : list A :=
  omap tickData (in_time timeout (startTime w) (ticks w)).

Definition text_of (cs : list ascii) : string := string_of_list_ascii cs.

(** Some turn of the wait has a clock at or past the deadline. *)
Definition expires {A : Type} (timeout : Z) (w : Wait A) : bool :=
  existsb (fun t => timeout <=? usub (tickClock t) (startTime w)) (ticks w).

(** A reply that arrives one character per turn, 10 ms apart, followed by
    silence until [quiet] ms have passed. *)
Fixpoint typed (at_ms : Z) (s : string) : list (Tick ascii) :=
  match s with
  | EmptyString => []
  | String c rest => mkTick at_ms (Some c) :: typed (at_ms + 10) rest
  end.

Definition reply (s : string) : Wait ascii :=
  mkWait 0 (typed 10 s ++ [mkTick 60000 None]).

Definition chunk (s : string) : Wait string :=
  mkWait 0 [mkTick 10 (Some s); mkTick 60000 None].

(** A modem that accepts every command, is not yet attached, prompts for
    the payload and reports status 200. *)
Definition obliging : Line :=
  mkLine (fun line => if line =? 1021 then reply "> "%string
                      else if line =? 1044 then reply "+CMGS: 12"%string
                      else reply "OK"%string)
         (fun line => if line =? 577 then chunk "DOWNLOAD"%string
                      else chunk "+HTTPACTION: 1,200,0"%string)
         (fun _ => "+CGATT: 0"%string).

(** A modem that does not answer at all. *)
Definition mute : Line :=
  mkLine (fun _ => mkWait 0 [mkTick 60000 None])
         (fun _ => mkWait 0 [mkTick 60000 None])
         (fun _ => EmptyString).

Definition fresh : Gsm := mkGsm false [].

End Modem.

(** The modem state after one upload over GPRS to an obliging modem, and
    after an SMS to it. *)
Definition uploaded_over_gprs : Modem.Gsm :=
  Eval vm_compute in
    default Modem.fresh
            (snd <$> Modem.sendDataViaGSM Modem.obliging "{}"%string Modem.fresh).

Definition sms_sent : Modem.Gsm :=
  Eval vm_compute in
    default Modem.fresh
            (snd <$> Modem.sendSMS Modem.obliging EMERGENCY_PHONE "help"%string
                                   Modem.fresh).

(** The opening of every [sendSMS] dialogue, lines 1013-1016. *)
Definition sms_header (num : string) : list Modem.Tx :=
  [Modem.Print ("AT+CMGS=" ++ Modem.dq); Modem.Print num; Modem.Println Modem.dq;
   Modem.Pause 1000].

(** A ['>'] arrived while the prompt loop's three seconds had not
    passed. *)
Definition prompted (env : Modem.Line) : bool :=
  existsb (Ascii.eqb ">") (Modem.received 3000 (Modem.chars env 1021)).

(** ** The modem calls under the watchdog *)

(** The turns of a polling loop that happen when the watchdog was last
    fed at [fed]: at the first turn that finds the period passed since
    then, the chip has been restarted. *)
Fixpoint before_restart {A : Type} (fed : Z) (ts : list (Modem.Tick A))
  : list (Modem.Tick A) :=
  match ts with
  | [] => []
  | t :: rest =>
      if watchdog_expired (usub (Modem.tickClock t) fed) then []
      else t :: before_restart fed rest
  end.

Definition watched_wait {A : Type} (fed : Z) (w : Modem.Wait A) : Modem.Wait A :=
  Modem.mkWait (Modem.startTime w) (before_restart fed (Modem.ticks w)).

(** The modem as a call meets it on the device.  A call that comes to the
    end of the turns left to one of its loops does not return: [None].
    The converse is not meant: the watchdog can also expire in a
    [delay()], between two turns. *)
Definition watched (fed : Z) (env : Modem.Line) : Modem.Line :=
  Modem.mkLine (fun line => watched_wait fed (Modem.chars env line))
               (fun line => watched_wait fed (Modem.chunks env line))
               (Modem.buffered env).

(** The time that what was sent shows spent in [delay()], in ms. *)
Definition pause_of (tx : Modem.Tx) : Z :=
  match tx with Modem.Pause ms => ms | _ => 0 end.

Definition paused (t : list Modem.Tx) : Z := foldr (fun tx acc => pause_of tx + acc) 0 t.

(** A modem call on the device, the watchdog last fed at [fed], which is
    before the call began.  The call returns only if each of its loops
    ends on the turns that the watchdog leaves it, and if the time it
    spends in [delay()] does not alone reach the period. *)
Definition under_watchdog {A : Type} (fed : Z) (call : Modem.Line -> Modem.M A)
    (env : Modem.Line) : Modem.M A :=
  fun g =>
    match call (watched fed env) g with
    | Some (a, g') =>
        if watchdog_expired (paused (Modem.wire g') - paused (Modem.wire g)) then None
        else Some (a, g')
    | None => None
    end.

(** The watchdog was last fed before the wait began: at every turn, at
    least as much time has passed since then as since the wait began. *)
Definition fed_before {A : Type} (fed : Z) (w : Modem.Wait A) : Prop :=
  Forall (fun t => usub (Modem.tickClock t) (Modem.startTime w)
                   <= usub (Modem.tickClock t) fed)
         (Modem.ticks w).

(** The response wait of lines 603-620 read a report on the HTTP action. *)
Definition action_reported (env : Modem.Line) : bool :=
  existsb (fun resp => contains resp "+HTTPACTION:")
          (Modem.received 30000 (Modem.chunks env 603)).

(** Whatever the first computation returns, the second returns as well. *)
Definition returns_as {A : Type} (m1 m2 : Modem.M A) : Prop :=
  forall g r, m1 g = Some r -> m2 g = Some r.

(** [n] turns without data, [step] ms apart from [t] on. *)
Definition silence {A : Type} (t step : Z) (n : nat) : list (Modem.Tick A) :=
  map (fun i => Modem.mkTick (t + step * Z.of_nat i) None) (seq 0 n).

(** A modem whose clock stands still: it accepts every command, prompts
    for the payload, and leaves the response wait 400 turns, each with
    its [delay(100)], before it reports. *)
Definition slow_report : Modem.Line :=
  Modem.mkLine (fun _ => Modem.reply "OK"%string)
               (fun line => if line =? 577 then Modem.chunk "DOWNLOAD"%string
                            else Modem.mkWait 0 (silence 10 0 400
                                   ++ [Modem.mkTick 10 (Some "+HTTPACTION: 1,200,0"%string)]))
               (fun _ => "+CGATT: 1"%string).

(** A modem that accepts every command and prompts for the payload, in
    front of a server that does not answer: the response wait begins at
    3 s and no report comes in the 31 s that follow. *)
Definition silent_server : Modem.Line :=
  Modem.mkLine (fun _ => Modem.reply "OK"%string)
               (fun line => if line =? 577 then Modem.chunk "DOWNLOAD"%string
                            else Modem.mkWait 3000 (silence 3000 100 311))
               (fun _ => "+CGATT: 1"%string).

(** ** The device identifier *)

(** One digit of [%X]. *)
Definition hex_digit (n : Z) : ascii :=
  ascii_of_nat (Z.to_nat (if n <? 10 then 48 + n else 55 + n)).

(** [%02X] applied to a [uint8_t]. *)
Definition hex2 (b : Z) : string :=
  String (hex_digit (b / 16)) (String (hex_digit (b mod 16)) EmptyString).

(** Lines 146-150: [macStr] after the [sprintf], for the bytes of
    [mac]. *)
Fixpoint macStr (mac : list Z) : string :=
  match mac with
  | [] => EmptyString
  | b :: rest => (hex2 b ++ macStr rest)%string
  end.

(** A [uint8_t]. *)
Definition is_byte (b : Z) : Prop := 0 <= b < 256.

(** A MAC address as [WiFi.macAddress] fills it in. *)
Definition is_mac (mac : list Z) : Prop := length mac = 6%nat /\ Forall is_byte mac.

(** The value of a digit character of [%X]. *)
Definition digit_value (c : ascii) : Z :=
  let n := Z.of_nat (nat_of_ascii c) in
  if n <? 58 then n - 48 else n - 55.

(** ** Readings that wait for the network *)

(** Every slot that waits in [q] still waits in [q']. *)
Definition keeps_waiting (q q' : Queue) : Prop :=
  forall i s, dataQueue q !! i = Some s -> pending s = true ->
              exists s', dataQueue q' !! i = Some s' /\ pending s' = true.

(** [l'] extends [l], and no document uploaded in the extension is a
    queued reading. *)
Definition nothing_resent (l l' : Log) : Prop :=
  exists t, l' = l ++ t
            /\ Forall (fun doc => has_key doc "queued" = false) (uploads t).

(** What a step of the pass may do to the waiting readings. *)
Definition waits (d d' : Device) : Prop :=
  keeps_waiting (queue d) (queue d') /\ nothing_resent (log d) (log d').

(** The pass is the first one to see WiFi connected again: line 262 holds
    and line 263 finds the flag clear. *)
Definition reconnects (inp : LoopIn) (d : Device) : bool :=
  is_connected (wlStatus inp) && negb (wifiConnected (net d)).

(** A device that has been connected since boot and holds one reading
    that could not be sent. *)
Definition holding_one : Device :=
  mkDevice "A1B2" (mkNet true 0) boot_vitals (mkFallState 0 false)
           boot_emergency one_pending (mkButton 0 false) 0 [].

Definition after_connected_pass : Device :=
  Eval vm_compute in
    default holding_one (loop (pass 130000 (pulse_in 100 false) 10 0) holding_one).

(** ** Time across the overflow of [millis()] *)

(** Time since start-up, not wrapped, as a clock that reads the wrapped
    value at every call. *)
Definition true_time (t : Z) : Clock := fun _ => u32 t.

(** A pass whose clock is [ck] and that is otherwise the quiet pass at
    time 0. *)
Definition pass_with_clock (ck : Clock) : LoopIn :=
  mkLoopIn ck WL_CONNECTED (fun _ => net_up) (pulse_in 100 false) resting 10 0
           (alert_at 0) (alert_at 0) [] serial_idle (manual_idle 0)
           (mkCloudEnv net_up 0).

(** A device whose last scheduled upload was 50 s before [millis()]
    overflowed. *)
Definition before_overflow : Device :=
  set_previousMillis (two32 - 50000) (boot "A1B2" true).

(** ** Message notifications *)

(** The character of a decimal digit. *)
Definition digit_char (d : Z) : ascii := ascii_of_nat (Z.to_nat (48 + d)).

(** A number as the modem writes it, most significant digit first. *)
Fixpoint numeral (ds : list Z) : string :=
  match ds with
  | [] => EmptyString
  | d :: rest => String (digit_char d) (numeral rest)
  end.

Definition numeral_value (ds : list Z) : Z :=
  fold_left (fun acc d => 10 * acc + d) ds 0.

Definition is_digit (d : Z) : Prop := 0 <= d <= 9.

(** The text does not go on with a digit. *)
Definition ends_number (s : string) : bool :=
  match s with
  | String c _ => match digit_of c with Some _ => false | None => true end
  | EmptyString => true
  end.

(** A notification [head,index tail] whose first comma is the one before
    the index, as in [+CMTI: "SM",3]. *)
Definition notification (head : string) (ds : list Z) (tail : string) : string :=
  (head ++ String "," (numeral ds ++ tail))%string.

Definition comma_free (s : string) : bool :=
  match String.index 0 "," s with Some _ => false | None => true end.

(** The modem announces message 12, whose text has no keyword. *)
Definition notified : SerialIn :=
  mkSerialIn (Some (notification "+CMTI: SM" [1; 2] EmptyString))
             "+CMGR: REC UNREAD hello" Confirmed.

(** The modem announces a message under an index that no [long] holds. *)
Definition notified_beyond_long : SerialIn :=
  mkSerialIn (Some (notification "+CMTI: SM" [4; 2; 9; 4; 9; 6; 7; 2; 9; 9] EmptyString))
             "+CMGR: REC UNREAD hello" Confirmed.

(** ** The emergency button over several passes *)

(** What the manual check of one pass is called with. *)
Record ManualPass := mkManualPass {
  mpClock : Clock;
  mpIn : ManualIn;
  mpReported : Reported;
  mpMotion : Motion
}.

Definition manual_check (p : ManualPass) (d : Device) : Device :=
  checkManualEmergencyTrigger (mpClock p) (mpIn p) (mpReported p) (mpMotion p) d.

(** Successive calls of [checkManualEmergencyTrigger], one per pass. *)
Fixpoint presses (ps : list ManualPass) (d : Device) : Device :=
  match ps with
  | [] => d
  | p :: rest => presses rest (manual_check p d)
  end.

(** The pass finds the button down, no console command, and less than two
    seconds on its clock since [t0]. *)
Definition held_since (t0 : Z) (p : ManualPass) : Prop :=
  serialCmd (mpIn p) = None /\ buttonLow (mpIn p) = true
  /\ usub (mpClock p 801) t0 < 2000.

(** The pass finds the button down, no console command, and at least two
    seconds on its clock since [t0]. *)
Definition held_long (t0 : Z) (p : ManualPass) : Prop :=
  serialCmd (mpIn p) = None /\ buttonLow (mpIn p) = true
  /\ 2000 <= usub (mpClock p 801) t0.

(** The pass finds the button up and no console command. *)
Definition released (p : ManualPass) : Prop :=
  serialCmd (mpIn p) = None /\ buttonLow (mpIn p) = false.

(** A manual check at time [t] with the button down or up. *)
Definition button_at (t : Z) (down : bool) : ManualPass :=
  mkManualPass (at_time t) (mkManualIn None down (alert_at t) (alert_at t))
               (mkReported 0 0) resting.

(** * Properties *)

(** A branch that returns its argument unchanged: the goal is
    [Some d = Some d' -> P d'] and [P d] holds trivially or is at hand. *)
Ltac returned := intros [= <-]; first [reflexivity | assumption | auto].

(** Case analysis on the tests of a definition that the goal is stuck on. *)
Ltac branch :=
  match goal with
  | |- context [if ?c then _ else _] => destruct c
  end.

(** ** Arithmetic helpers *)

Lemma Qleb_le (x y : Q) : Qleb x y = true <-> (x <= y)%Q.
Proof. apply Qle_bool_iff. Qed.

Lemma Qltb_lt (x y : Q) : Qltb x y = true <-> (x < y)%Q.
Proof.
  unfold Qltb. rewrite negb_true_iff.
  split; intro H.
  - apply Qnot_le_lt. intro C. apply Qle_bool_iff in C. congruence.
  - destruct (Qle_bool y x) eqn:E; [|reflexivity].
    apply Qle_bool_iff in E. exfalso. exact (Qlt_not_le _ _ H E).
Qed.

Lemma u8_small (z : Z) : 0 <= z < 256 -> u8 z = z.
Proof. intros H. unfold u8. apply Z.mod_small. exact H. Qed.

(** A float between 40 and 180 is cast to a byte between 40 and 180. *)
Lemma byte_of_float_plausible (x : Q) :
  (40 <= x)%Q -> (x <= 180)%Q -> plausible (byte_of_float x).
Proof.
  destruct x as [n d]. unfold Qle, byte_of_float, Qtrunc, plausible. simpl.
  intros Hlo Hhi.
  assert (Hn : 0 <= n) by lia.
  rewrite Z.quot_div_nonneg by lia.
  assert (40 <= n / Z.pos d) by (apply Z.div_le_lower_bound; lia).
  assert (n / Z.pos d <= 180) by (apply Z.div_le_upper_bound; lia).
  rewrite u8_small; lia.
Qed.

(** ** The summing loop computes the sum of the valid entries *)

Lemma sum_rates_drop (rs : list Z) (n x : nat) (acc : Z) :
  (x + n <= length rs)%nat ->
  sum_rates rs x n acc = acc + sum_list (take n (drop x rs)).
Proof.
  revert x acc. induction n as [|n IH]; intros x acc Hlen; simpl.
  - lia.
  - destruct (lookup_lt_is_Some_2 rs x) as [y Hy]; [lia|].
    rewrite IH by lia.
    rewrite (drop_S rs y x Hy). simpl.
    unfold rate_at. rewrite Hy. simpl. lia.
Qed.

Lemma sum_rates_take (rs : list Z) (n : nat) :
  (n <= length rs)%nat -> sum_rates rs 0 n 0 = sum_list (take n rs).
Proof.
  intros H. rewrite sum_rates_drop by lia. rewrite drop_0. lia.
Qed.

Lemma sum_list_bounds (l : list Z) :
  Forall plausible l ->
  40 * Z.of_nat (length l) <= sum_list l <= 180 * Z.of_nat (length l).
Proof.
  induction 1 as [|x l Hx _ IH]; simpl.
  - lia.
  - unfold plausible in Hx. lia.
Qed.

Lemma mean_plausible (l : list Z) :
  l <> [] -> Forall plausible l -> plausible (mean l).
Proof.
  intros Hne Hall. pose proof (sum_list_bounds l Hall) as Hb.
  assert (Hpos : 0 < Z.of_nat (length l)) by (destruct l; [congruence|simpl; lia]).
  unfold mean, plausible.
  rewrite Z.quot_div_nonneg by lia.
  split.
  - apply Z.div_le_lower_bound; lia.
  - apply Z.div_le_upper_bound; lia.
Qed.

(** ** The beat history invariant *)

Lemma fresh_beats_ok (bpm : Q) (w : Spo2Window) (f : bool) :
  beats_ok (mkVitals (mkBeatHistory zero_rates 0 0 bpm 0 0) w 0 0 f).
Proof.
  constructor; simpl; unfold RATE_SIZE; try lia.
  - constructor.
  - repeat constructor.
Qed.

Lemma boot_vitals_ok : beats_ok boot_vitals.
Proof. apply fresh_beats_ok. Qed.

Lemma reset_readings_ok (v : Vitals) : beats_ok (reset_readings v).
Proof. apply fresh_beats_ok. Qed.

(** The invariant does not read the SpO2 window, the cached SpO2 or the
    finger flag. *)
Lemma beats_ok_frame (v : Vitals) (w : Spo2Window) (s : Q) (f : bool) :
  beats_ok v -> beats_ok (mkVitals (beats v) w s (lastValidHR v) f).
Proof. intros []. constructor; simpl; assumption. Qed.

Lemma store_beat_ok (b : BeatHistory) (w : Spo2Window) (s hr0 : Q) (f : bool) :
  beats_ok (mkVitals b w s hr0 f) ->
  (40 <= beatsPerMinute b)%Q -> (beatsPerMinute b <= 180)%Q ->
  beats_ok (mkVitals (fst (store_beat b)) w s (snd (store_beat b)) f).
Proof.
  intros [Hlen Hcnt Hspot Hfill Hvalid Hunused _ _] Hlo Hhi. simpl in *.
  pose proof (byte_of_float_plausible _ Hlo Hhi) as Hbyte.
  unfold RATE_SIZE in *.
  set (x := byte_of_float (beatsPerMinute b)) in *.
  set (rs' := <[Z.to_nat (rateSpot b) := x]> (rates b)).
  set (n' := if validBeatCount b <? 8 then validBeatCount b + 1 else validBeatCount b).
  assert (Hlen' : length rs' = 8%nat) by (unfold rs'; rewrite length_insert; exact Hlen).
  assert (Hn' : 1 <= n' <= 8) by (unfold n'; destruct (Z.ltb_spec (validBeatCount b) 8); lia).
  assert (Hvalid' : Forall plausible (take (Z.to_nat n') rs')).
  { unfold n', rs'. destruct (Z.ltb_spec (validBeatCount b) 8) as [Hlt|Hge].
    - rewrite (Hfill Hlt).
      replace (Z.to_nat (validBeatCount b + 1)) with (S (Z.to_nat (validBeatCount b))) by lia.
      rewrite (take_S_r _ _ x) by (apply list_lookup_insert_eq; lia).
      rewrite take_insert_ge by lia.
      apply Forall_app. split; [exact Hvalid|]. constructor; [exact Hbyte|constructor].
    - assert (validBeatCount b = 8) as -> by lia.
      rewrite take_ge by (rewrite length_insert; lia).
      apply Forall_insert; [|exact Hbyte].
      unfold valid_entries in Hvalid. simpl in Hvalid.
      replace (validBeatCount b) with 8 in Hvalid by lia.
      rewrite take_ge in Hvalid by lia. exact Hvalid. }
  assert (Hsum : sum_rates rs' 0 (Z.to_nat n') 0 = sum_list (take (Z.to_nat n') rs'))
    by (apply sum_rates_take; lia).
  assert (Hlen_take : Z.of_nat (length (take (Z.to_nat n') rs')) = n')
    by (rewrite length_take_le by lia; lia).
  assert (Hmean : plausible (mean (take (Z.to_nat n') rs'))).
  { apply mean_plausible; [|exact Hvalid'].
    intros E. rewrite E in Hlen_take. simpl in Hlen_take. lia. }
  unfold store_beat. fold x. fold rs'. fold n'. unfold RATE_SIZE.
  constructor; simpl; unfold valid_entries, RATE_SIZE; simpl.
  - exact Hlen'.
  - lia.
  - rewrite (u8_small (u8 (rateSpot b + 1) mod 8)).
    + apply Z.mod_pos_bound. lia.
    + pose proof (Z.mod_pos_bound (u8 (rateSpot b + 1)) 8). lia.
  - intros Hlt. unfold n' in *.
    destruct (Z.ltb_spec (validBeatCount b) 8) as [Hlt'|Hge]; [|lia].
    rewrite (Hfill Hlt').
    rewrite (u8_small (validBeatCount b + 1)) by lia.
    rewrite Z.mod_small by lia. rewrite u8_small; lia.
  - exact Hvalid'.
  - unfold n', rs'. destruct (Z.ltb_spec (validBeatCount b) 8) as [Hlt|Hge].
    + rewrite (Hfill Hlt). rewrite drop_insert_lt by lia.
      replace (Z.to_nat (validBeatCount b + 1))
        with (Z.to_nat (validBeatCount b) + 1)%nat by lia.
      rewrite <- drop_drop. apply Forall_drop. exact Hunused.
    + rewrite drop_ge by (rewrite length_insert; lia). constructor.
  - intros _. rewrite Hsum. unfold mean. rewrite Hlen_take. reflexivity.
  - intros _. rewrite Hsum. unfold mean in Hmean. rewrite Hlen_take in Hmean.
    unfold plausible in Hmean. unfold float_of_int, Qle. simpl. lia.
Qed.

(** The invariant reads four globals of the averaging code and the cached
    heart rate, nothing else. *)
Lemma beats_ok_ext (v v' : Vitals) :
  rates (beats v') = rates (beats v) ->
  rateSpot (beats v') = rateSpot (beats v) ->
  beatAvg (beats v') = beatAvg (beats v) ->
  validBeatCount (beats v') = validBeatCount (beats v) ->
  (1 <= validBeatCount (beats v) -> (40 <= lastValidHR v' <= 180)%Q) ->
  beats_ok v -> beats_ok v'.
Proof.
  intros Hr Hs Ha Hc Hhr [].
  constructor; unfold valid_entries in *; rewrite ?Hr, ?Hs, ?Ha, ?Hc; assumption.
Qed.

Lemma detect_beat_ok (ck : Clock) (inp : PulseIn) (finger : bool) (v : Vitals) :
  beats_ok v -> beats_ok (detect_beat ck inp finger v).
Proof.
  intros Hok. unfold detect_beat.
  destruct (finger && beatSeen inp); [|exact Hok].
  set (bpm := Qdiv 60 _).
  set (b1 := mkBeatHistory _ _ _ bpm _ _).
  assert (Hok1 : beats_ok (mkVitals b1 (window v) (lastValidSpO2 v)
                                    (lastValidHR v) (wasFingerDetected v))).
  { apply (beats_ok_ext v); try reflexivity; [|exact Hok]. apply (ok_hr v Hok). }
  destruct (Qleb 40 bpm && Qleb bpm 180) eqn:Hrange; [|exact Hok1].
  apply andb_true_iff in Hrange. destruct Hrange as [Hlo Hhi].
  apply Qleb_le in Hlo. apply Qleb_le in Hhi.
  pose proof (store_beat_ok b1 _ _ _ _ Hok1 Hlo Hhi) as Hstore.
  destruct (store_beat b1) as [b2 hr]. exact Hstore.
Qed.

Lemma accept_estimate_ok (e : Estimate) (v : Vitals) :
  beats_ok v -> beats_ok (accept_estimate e v).
Proof.
  intros Hok. apply (beats_ok_ext v); try reflexivity; [|exact Hok].
  intros Hcnt. simpl.
  destruct (negb (validHeartRate e =? 0) && (40 <=? heartRateValue e)
            && (heartRateValue e <=? 180) && (validBeatCount (beats v) <? 4)) eqn:E.
  - repeat (apply andb_true_iff in E; destruct E as [E ?]).
    unfold float_of_int, Qle. simpl. lia.
  - apply (ok_hr v Hok Hcnt).
Qed.

Lemma with_window_ok (w : Spo2Window) (v : Vitals) :
  beats_ok v -> beats_ok (with_window w v).
Proof.
  intros Hok. apply (beats_ok_ext v); try reflexivity; [|exact Hok].
  apply (ok_hr v Hok).
Qed.

Lemma collect_spo2_ok (ck : Clock) (inp : PulseIn) (finger : bool) (v : Vitals) :
  beats_ok v -> beats_ok (collect_spo2 ck inp finger v).
Proof.
  intros Hok. unfold collect_spo2, store_sample. cbv beta iota zeta.
  repeat match goal with
         | |- beats_ok (if ?c then _ else _) => destruct c
         | |- beats_ok (accept_estimate _ _) => apply accept_estimate_ok
         | |- beats_ok (with_window _ _) => apply with_window_ok
         end; exact Hok.
Qed.

(** Section A of the loop keeps the invariant. *)
Lemma read_vitals_ok (ck : Clock) (inp : PulseIn) (v : Vitals) :
  beats_ok v -> beats_ok (fst (fst (read_vitals ck inp v))).
Proof.
  intros Hok. unfold read_vitals. simpl.
  apply collect_spo2_ok, detect_beat_ok.
  set (v1 := if negb (50000 <? irValue inp) && wasFingerDetected v
             then reset_readings v else v).
  assert (Hok1 : beats_ok v1)
    by (unfold v1; destruct (negb (50000 <? irValue inp) && wasFingerDetected v);
        [apply reset_readings_ok|exact Hok]).
  apply (beats_ok_ext v1); try reflexivity; [|exact Hok1].
  apply (ok_hr v1 Hok1).
Qed.

(** ** Only section A writes the vital-sign globals *)

Lemma on_alarm_vitals (f : Emergency * Log -> Emergency * Log) (d : Device) :
  vitals (on_alarm f d) = vitals d.
Proof. unfold on_alarm. destruct (f (emergency d, log d)). reflexivity. Qed.

Lemma on_store_vitals (f : Queue * Log -> option (Queue * Log)) (d d' : Device) :
  on_store f d = Some d' -> vitals d' = vitals d.
Proof.
  unfold on_store. destruct (f (queue d, log d)) as [[q l]|]; [|discriminate].
  intros [= <-]. reflexivity.
Qed.

Lemma trigger_vitals (env : TriggerEnv) (msg : SmsText) (d : Device) :
  vitals (trigger env msg d) = vitals d.
Proof. apply on_alarm_vitals. Qed.

Lemma cloud_vitals (env : CloudEnv) (hr spo2 : Q) (m : Motion) (d d' : Device) :
  cloud env hr spo2 m d = Some d' -> vitals d' = vitals d.
Proof. apply on_store_vitals. Qed.

Lemma fall_impact_vitals (ck : Clock) (a g : Q) (d : Device) :
  vitals (fall_impact ck a g d) = vitals d.
Proof.
  unfold fall_impact.
  destruct (_ && _); [|reflexivity]. destruct (_ && _); reflexivity.
Qed.

Lemma fall_timeout_vitals (ck : Clock) (d : Device) :
  vitals (fall_timeout ck d) = vitals d.
Proof. unfold fall_timeout. destruct (_ && _); reflexivity. Qed.

Lemma fall_confirm_vitals (ck : Clock) (env : AlertEnv) (a : Q) (r : Reported)
    (m : Motion) (d d' : Device) :
  fall_confirm ck env a r m d = Some d' -> vitals d' = vitals d.
Proof.
  unfold fall_confirm.
  destruct (_ && _); [|returned].
  destruct (Qltb a POST_FALL_STILLNESS_THRESH); [|returned].
  destruct (idle _); [|returned].
  intros H. apply cloud_vitals in H. rewrite H, trigger_vitals. reflexivity.
Qed.

Lemma detect_fall_vitals (ck : Clock) (env : AlertEnv) (a g : Q) (r : Reported)
    (m : Motion) (d d' : Device) :
  detect_fall ck env a g r m d = Some d' -> vitals d' = vitals d.
Proof.
  unfold detect_fall.
  destruct (fall_confirm _ _ _ _ _ _) as [d1|] eqn:E; [|discriminate].
  intros [= <-]. rewrite fall_timeout_vitals.
  apply fall_confirm_vitals in E. rewrite E. apply fall_impact_vitals.
Qed.

Lemma detect_vitals_vitals (env : AlertEnv) (f : bool) (r : Reported)
    (m : Motion) (d d' : Device) :
  detect_vitals env f r m d = Some d' -> vitals d' = vitals d.
Proof.
  unfold detect_vitals.
  destruct (_ && _); [|returned].
  destruct (_ || _); [|returned].
  destruct (idle d); [|returned].
  intros H. apply cloud_vitals in H. rewrite H. apply trigger_vitals.
Qed.

Lemma escalate_vitals (inp : LoopIn) (d d' : Device) :
  escalate inp d = Some d' -> vitals d' = vitals d.
Proof.
  unfold escalate.
  destruct (_ && _); [|returned].
  destruct (handleEmergencyCalls _ _ _) as [[e l]|]; [|discriminate].
  intros [= <-]. reflexivity.
Qed.

Lemma triggerManualEmergency_vitals (env : AlertEnv) (r : Reported) (m : Motion)
    (d : Device) :
  vitals (triggerManualEmergency env r m d) = vitals d.
Proof. unfold triggerManualEmergency. rewrite trigger_vitals. reflexivity. Qed.

Lemma checkManualEmergencyTrigger_vitals (ck : Clock) (inp : ManualIn)
    (r : Reported) (m : Motion) (d : Device) :
  vitals (checkManualEmergencyTrigger ck inp r m d) = vitals d.
Proof.
  unfold checkManualEmergencyTrigger.
  set (d1 := match serialCmd inp with Some _ => _ | None => _ end).
  assert (H1 : vitals d1 = vitals d).
  { unfold d1. destruct (serialCmd inp) as [c|]; [|reflexivity].
    destruct (is_char c "E" "e"); [apply triggerManualEmergency_vitals|].
    destruct (is_char c "R" "r"); reflexivity. }
  destruct (buttonLow inp); [|exact H1].
  destruct (2000 <=? _); [|exact H1].
  simpl. rewrite triggerManualEmergency_vitals. exact H1.
Qed.

Lemma periodic_upload_vitals (inp : LoopIn) (r : Reported) (d d' : Device) :
  periodic_upload inp r d = Some d' -> vitals d' = vitals d.
Proof.
  unfold periodic_upload.
  destruct (DATA_INTERVAL <=? _); [|returned].
  intros H. apply cloud_vitals in H. exact H.
Qed.

Lemma check_wifi_vitals (inp : LoopIn) (d : Device) :
  vitals (check_wifi inp d) = vitals d.
Proof.
  unfold check_wifi.
  destruct (wlStatus inp); destruct (wifiConnected (net d));
    repeat first [ branch
                 | match goal with
                   | |- context [uploadQueuedData ?a ?b ?c] =>
                       destruct (uploadQueuedData a b c)
                   end ]; reflexivity.
Qed.

(** A completed pass leaves the vital-sign globals as section A computed
    them. *)
Lemma loop_vitals (inp : LoopIn) (d d' : Device) :
  loop inp d = Some d' ->
  vitals d' = fst (fst (read_vitals (clock inp) (pulse inp) (vitals d))).
Proof.
  unfold loop. rewrite <- (check_wifi_vitals inp d).
  destruct (read_vitals _ _ _) as [[v f] r]. simpl.
  destruct (detect_fall _ _ _ _ _ _ _) as [d3|] eqn:E3; [|discriminate]. simpl.
  destruct (detect_vitals _ _ _ _ _) as [d4|] eqn:E4; [|discriminate]. simpl.
  destruct (escalate _ _) as [d5|] eqn:E5; [|discriminate]. simpl.
  intros H. apply periodic_upload_vitals in H.
  rewrite H, checkManualEmergencyTrigger_vitals, on_alarm_vitals.
  rewrite (escalate_vitals _ _ _ E5), (detect_vitals_vitals _ _ _ _ _ _ E4).
  rewrite (detect_fall_vitals _ _ _ _ _ _ _ _ E3). reflexivity.
Qed.

Lemma loop_beats_ok (inp : LoopIn) (d d' : Device) :
  loop inp d = Some d' -> beats_ok (vitals d) -> beats_ok (vitals d').
Proof.
  intros H Hok. rewrite (loop_vitals _ _ _ H). apply read_vitals_ok, Hok.
Qed.

Lemma run_beats_ok (inps : list LoopIn) (d d' : Device) :
  run inps d = Some d' -> beats_ok (vitals d) -> beats_ok (vitals d').
Proof.
  revert d. induction inps as [|inp rest IH]; intros d; simpl.
  - intros [= <-]. auto.
  - destruct (loop inp d) as [d1|] eqn:E; [|discriminate].
    intros H Hok. apply (IH d1 H). exact (loop_beats_ok _ _ _ E Hok).
Qed.

(** ** C8: the beat history holds plausible rates only *)

(** C8. In every state the loop reaches from boot, each entry of the beat
    history is either an unused slot (0) or a rate in [40, 180], the valid
    entries all lie in [40, 180], and as soon as one valid entry exists the
    average is the integer mean of the valid entries and lies in [40, 180],
    as does the cached heart rate that is reported. *)
Theorem C8_beat_history_in_range (inps : list LoopIn) (mac : string) (w : bool)
    (d : Device) :
  run inps (boot mac w) = Some d ->
  let b := beats (vitals d) in
  Forall (fun x => x = 0 \/ plausible x) (rates b)
  /\ Forall plausible (valid_entries b)
  /\ (1 <= validBeatCount b ->
      beatAvg b = mean (valid_entries b)
      /\ plausible (beatAvg b)
      /\ (40 <= lastValidHR (vitals d) <= 180)%Q).
Proof.
  intros Hrun b.
  assert (Hok : beats_ok (vitals d)) by (apply (run_beats_ok _ _ _ Hrun), boot_vitals_ok).
  pose proof (ok_valid _ Hok) as Hvalid. pose proof (ok_unused _ Hok) as Hunused.
  fold b in Hvalid, Hunused.
  split; [|split].
  - rewrite <- (take_drop (Z.to_nat (validBeatCount b)) (rates b)).
    apply Forall_app. split.
    + eapply Forall_impl; [exact Hvalid|]. intros x Hx. right. exact Hx.
    + eapply Forall_impl; [exact Hunused|]. intros x Hx. left. symmetry. exact Hx.
  - exact Hvalid.
  - intros Hcnt. pose proof (ok_avg _ Hok Hcnt) as Havg. fold b in Havg.
    split; [exact Havg|]. split; [|exact (ok_hr _ Hok Hcnt)].
    rewrite Havg. apply mean_plausible; [|exact Hvalid].
    pose proof (ok_count _ Hok) as Hc. pose proof (ok_length _ Hok) as Hl.
    fold b in Hc, Hl. unfold RATE_SIZE in *.
    intros E. apply (f_equal length) in E. unfold valid_entries in E.
    rewrite length_take_le in E by lia. simpl in E. lia.
Qed.

(** Two beats 800 ms apart after a first one at 1 s: rates 60 and 75. *)
Lemma C8_beat_history_in_range_witness :
  exists d,
    run [pass 1000 (pulse_in 60000 true) 10 0; pass 1800 (pulse_in 60000 true) 10 0]
        (boot "A1B2" true) = Some d
    /\ valid_entries (beats (vitals d)) = [60; 75]
    /\ beatAvg (beats (vitals d)) = 67
    /\ plausible (beatAvg (beats (vitals d))).
Proof.
  eexists. split; [vm_compute; reflexivity|].
  split; [vm_compute; reflexivity|]. split; [vm_compute; reflexivity|].
  refine (proj1 (proj2 (proj2 (proj2
    (C8_beat_history_in_range
       [pass 1000 (pulse_in 60000 true) 10 0; pass 1800 (pulse_in 60000 true) 10 0]
       "A1B2" true _ _)) _))).
  - vm_compute. reflexivity.
  - vm_compute. discriminate.
Defined.

(** ** C3: losing contact clears the readings *)

(** Without a finger, section A processes no beat and no sample. *)
Lemma read_vitals_no_contact (ck : Clock) (p : PulseIn) (v : Vitals) :
  (50000 <? irValue p) = false ->
  let v1 := if wasFingerDetected v then reset_readings v else v in
  let v' := fst (fst (read_vitals ck p v)) in
  snd (fst (read_vitals ck p v)) = false
  /\ snd (read_vitals ck p v) = mkReported 0 0
  /\ beats v' = beats v1
  /\ lastValidHR v' = lastValidHR v1
  /\ lastValidSpO2 v' = lastValidSpO2 v1
  /\ wasFingerDetected v' = false.
Proof.
  intros Hir. unfold read_vitals. rewrite Hir. simpl.
  destruct (wasFingerDetected v); repeat split; reflexivity.
Qed.

Lemma cleared_reset (v : Vitals) : cleared (reset_readings v).
Proof. constructor; reflexivity. Qed.

Lemma read_vitals_cleared (ck : Clock) (p : PulseIn) (v : Vitals) :
  (50000 <? irValue p) = false ->
  wasFingerDetected v = true \/ cleared v ->
  cleared (fst (fst (read_vitals ck p v)))
  /\ wasFingerDetected (fst (fst (read_vitals ck p v))) = false
  /\ reports_zero (snd (read_vitals ck p v)).
Proof.
  intros Hir Hpre.
  destruct (read_vitals_no_contact ck p v Hir) as (_ & Hr & Hb & Hhr & Hsp & Hw).
  split; [|split; [exact Hw|rewrite Hr; split; reflexivity]].
  assert (Hc : cleared (if wasFingerDetected v then reset_readings v else v)).
  { destruct Hpre as [Hwas|Hcl].
    - rewrite Hwas. apply cleared_reset.
    - destruct (wasFingerDetected v); [apply cleared_reset|exact Hcl]. }
  destruct Hc as [c1 c2 c3 c4 c5].
  constructor; rewrite ?Hb, ?Hhr, ?Hsp; assumption.
Qed.

Lemma loop_no_contact (inp : LoopIn) (d d' : Device) :
  no_contact inp ->
  wasFingerDetected (vitals d) = true \/ cleared (vitals d) ->
  loop inp d = Some d' ->
  cleared (vitals d') /\ wasFingerDetected (vitals d') = false
  /\ reports_zero (reported inp d).
Proof.
  intros Hnc Hpre Hloop. rewrite (loop_vitals _ _ _ Hloop).
  apply read_vitals_cleared; assumption.
Qed.

Lemma run_no_contact (inps : list LoopIn) (d d' : Device) :
  Forall no_contact inps ->
  cleared (vitals d) ->
  run inps d = Some d' ->
  cleared (vitals d') /\ Forall reports_zero (reports inps d).
Proof.
  intros Hall. revert d. induction Hall as [|inp rest Hnc _ IH]; intros d Hcl; simpl.
  - intros [= <-]. split; [exact Hcl|constructor].
  - destruct (loop inp d) as [d1|] eqn:E; [|discriminate].
    intros Hrun.
    destruct (loop_no_contact inp d d1 Hnc (or_intror Hcl) E) as (Hc1 & _ & Hz).
    destruct (IH d1 Hc1 Hrun) as (Hc' & Hzs).
    split; [exact Hc'|constructor; assumption].
Qed.

(** C3. When a pass finds the finger gone after it had been present, the
    beat history is all zeros, the valid-entry count, the average and the
    cached heart rate and SpO2 are zero after that pass, and it reports
    heart rate 0 and SpO2 0; through any number of further passes without
    contact the readings stay cleared and every pass reports 0 and 0. *)
Theorem C3_contact_loss_clears (inp : LoopIn) (inps : list LoopIn)
    (d d1 d2 : Device) :
  wasFingerDetected (vitals d) = true ->
  no_contact inp ->
  Forall no_contact inps ->
  loop inp d = Some d1 ->
  run inps d1 = Some d2 ->
  cleared (vitals d1)
  /\ cleared (vitals d2)
  /\ Forall reports_zero (reports (inp :: inps) d).
Proof.
  intros Hwas Hnc Hall Hloop Hrun.
  destruct (loop_no_contact inp d d1 Hnc (or_introl Hwas) Hloop) as (Hc1 & _ & Hz).
  destruct (run_no_contact inps d1 d2 Hall Hc1 Hrun) as (Hc2 & Hzs).
  split; [exact Hc1|]. split; [exact Hc2|].
  simpl. rewrite Hloop. constructor; assumption.
Qed.

(** One beat with the finger on, then two passes with the finger off. *)
Lemma C3_contact_loss_clears_witness :
  exists d d1 d2,
    run [pass 1000 (pulse_in 60000 true) 10 0] (boot "A1B2" true) = Some d
    /\ rates (beats (vitals d)) = [60; 0; 0; 0; 0; 0; 0; 0]
    /\ lastValidHR (vitals d) = 60%Q
    /\ loop (pass 1200 (pulse_in 100 false) 10 0) d = Some d1
    /\ run [pass 1400 (pulse_in 100 false) 10 0] d1 = Some d2
    /\ cleared (vitals d1)
    /\ cleared (vitals d2)
    /\ Forall reports_zero
         (reports [pass 1200 (pulse_in 100 false) 10 0;
                   pass 1400 (pulse_in 100 false) 10 0] d).
Proof.
  eexists. eexists. eexists.
  split; [vm_compute; reflexivity|].
  split; [vm_compute; reflexivity|].
  split; [vm_compute; reflexivity|].
  split; [vm_compute; reflexivity|].
  split; [vm_compute; reflexivity|].
  apply (C3_contact_loss_clears
           (pass 1200 (pulse_in 100 false) 10 0)
           [pass 1400 (pulse_in 100 false) 10 0]).
  - vm_compute. reflexivity.
  - vm_compute. reflexivity.
  - constructor; [vm_compute; reflexivity|constructor].
  - vm_compute. reflexivity.
  - vm_compute. reflexivity.
Defined.

(** ** C9: which estimates are cached *)

Lemma accept_estimate_spo2 (e : Estimate) (v : Vitals) :
  (spo2_acceptable e -> lastValidSpO2 (accept_estimate e v) = float_of_int (spo2Value e))
  /\ (~ spo2_acceptable e -> lastValidSpO2 (accept_estimate e v) = lastValidSpO2 v).
Proof.
  unfold spo2_acceptable. simpl.
  destruct (Z.eqb_spec (validSPO2 e) 0); destruct (Z.leb_spec 70 (spo2Value e));
    destruct (Z.leb_spec (spo2Value e) 100); simpl;
    split; intros Hacc; try reflexivity; try lia; exfalso; apply Hacc; lia.
Qed.

Lemma accept_estimate_hr (e : Estimate) (v : Vitals) :
  (hr_acceptable e v -> lastValidHR (accept_estimate e v) = float_of_int (heartRateValue e))
  /\ (~ hr_acceptable e v -> lastValidHR (accept_estimate e v) = lastValidHR v).
Proof.
  unfold hr_acceptable. simpl.
  destruct (Z.eqb_spec (validHeartRate e) 0); destruct (Z.leb_spec 40 (heartRateValue e));
    destruct (Z.leb_spec (heartRateValue e) 180);
    destruct (Z.ltb_spec (validBeatCount (beats v)) 4); simpl;
    split; intros Hacc; try reflexivity; try lia; exfalso; apply Hacc; lia.
Qed.

(** When the window completes, the collection step is the acceptance
    test applied to the routine's result. *)
Lemma collect_spo2_completes (ck : Clock) (inp : PulseIn) (v : Vitals) :
  window_completes ck inp v = true ->
  exists w, collect_spo2 ck inp true v = accept_estimate (estimate_of ck inp v) (with_window w v).
Proof.
  unfold window_completes, collect_spo2, estimate_of.
  intros H.
  apply andb_true_iff in H. destruct H as [H Hfull].
  apply andb_true_iff in H. destruct H as [H Havail].
  rewrite H, Havail.
  destruct (store_sample inp (start_collection ck (window v))) as [[ir' red'] idx'].
  simpl in Hfull. rewrite Hfull.
  eexists. reflexivity.
Qed.

(** C9. In a pass with contact in which the SpO2 window completes, the
    cached SpO2 becomes the routine's SpO2 if that is flagged valid and
    lies in [70, 100] and is unchanged otherwise; the cached heart rate
    becomes the routine's heart rate if that is flagged valid, lies in
    [40, 180] and the beat history has fewer than 4 valid entries, and is
    unchanged otherwise; the beat history itself is not touched. *)
Theorem C9_estimate_acceptance (ck : Clock) (inp : PulseIn) (v : Vitals) :
  window_completes ck inp v = true ->
  let e := estimate_of ck inp v in
  let v' := collect_spo2 ck inp true v in
  (spo2_acceptable e -> lastValidSpO2 v' = float_of_int (spo2Value e))
  /\ (~ spo2_acceptable e -> lastValidSpO2 v' = lastValidSpO2 v)
  /\ (hr_acceptable e v -> lastValidHR v' = float_of_int (heartRateValue e))
  /\ (~ hr_acceptable e v -> lastValidHR v' = lastValidHR v)
  /\ beats v' = beats v.
Proof.
  intros Hc e v'. destruct (collect_spo2_completes ck inp v Hc) as [w Hw].
  unfold v'. rewrite Hw. fold e.
  destruct (accept_estimate_spo2 e (with_window w v)) as [S1 S2].
  destruct (accept_estimate_hr e (with_window w v)) as [H1 H2].
  repeat split; auto.
Qed.

(** The hundredth sample arrives; SpO2 97 and heart rate 72 are cached. *)
Lemma C9_estimate_acceptance_witness :
  window_completes (fun _ => 1000) sample_in nearly_full = true
  /\ lastValidSpO2 (collect_spo2 (fun _ => 1000) sample_in true nearly_full) = 97%Q
  /\ lastValidHR (collect_spo2 (fun _ => 1000) sample_in true nearly_full) = 72%Q.
Proof.
  split; [vm_compute; reflexivity|].
  pose proof (C9_estimate_acceptance (fun _ => 1000) sample_in nearly_full
                ltac:(vm_compute; reflexivity)) as H.
  destruct H as (Hs & _ & Hh & _).
  split.
  - apply Hs. vm_compute. repeat split; discriminate.
  - apply Hh. vm_compute. repeat split; discriminate.
Defined.

(** From boot, the window fills over the sampling passes and the results
    of the routine are cached when the hundredth sample is stored. *)
Example window_fills_from_boot :
  exists d100 d101,
    run (take 100 sampling_passes) (boot "A1B2" true) = Some d100
    /\ spo2SampleIndex (window (vitals d100)) = 99
    /\ lastValidSpO2 (vitals d100) = 0%Q
    /\ run sampling_passes (boot "A1B2" true) = Some d101
    /\ spo2CollectionActive (window (vitals d101)) = false
    /\ lastValidSpO2 (vitals d101) = 97%Q
    /\ lastValidHR (vitals d101) = 72%Q.
Proof.
  eexists. eexists.
  split; [vm_compute; reflexivity|].
  split; [vm_compute; reflexivity|].
  split; [vm_compute; reflexivity|].
  split; [vm_compute; reflexivity|].
  split; [vm_compute; reflexivity|].
  split; vm_compute; reflexivity.
Qed.

(** ** C2: escalation is idempotent *)

Lemma sms_count_app (l k : Log) : sms_count (l ++ k) = (sms_count l + sms_count k)%nat.
Proof. unfold sms_count. rewrite List.filter_app, length_app. reflexivity. Qed.

(** Every [sendSMS] starts exactly one send. *)
Lemma sendSMS_count (reply : SmsReply) (num : string) (msg : SmsText) (l : Log) :
  sms_count (fst (sendSMS reply num msg l)) = S (sms_count l).
Proof.
  destruct reply; simpl; rewrite sms_count_app; unfold sms_count; simpl; lia.
Qed.

Lemma triggerEmergency_busy (reply : SmsReply) (now : Z) (msg : SmsText)
    (e : Emergency) (l : Log) :
  emergencyActive e || emergencyHandled e = true ->
  triggerEmergency reply now msg (e, l) = (e, l).
Proof. intros H. unfold triggerEmergency. rewrite H. reflexivity. Qed.

Lemma triggerEmergency_idle (reply : SmsReply) (now : Z) (msg : SmsText)
    (e : Emergency) (l : Log) :
  emergencyActive e || emergencyHandled e = false ->
  triggerEmergency reply now msg (e, l)
  = (mkEmergency true false (usub now CALL_INTERVAL),
     fst (sendSMS reply EMERGENCY_PHONE msg l)).
Proof.
  intros H. unfold triggerEmergency. rewrite H.
  destruct (sendSMS reply EMERGENCY_PHONE msg l). reflexivity.
Qed.

Lemma fire_all_cons (rq : Request) (rqs : list Request) (st : Emergency * Log) :
  fire_all (rq :: rqs) st = fire_all rqs (fire st rq).
Proof. reflexivity. Qed.

Lemma fire_busy (rq : Request) (e : Emergency) (l : Log) :
  emergencyActive e || emergencyHandled e = true -> fire (e, l) rq = (e, l).
Proof. intros H. apply triggerEmergency_busy, H. Qed.

Lemma fire_all_busy (rqs : list Request) (e : Emergency) (l : Log) :
  emergencyActive e || emergencyHandled e = true ->
  fire_all rqs (e, l) = (e, l).
Proof.
  intros H. induction rqs as [|rq rqs IH]; [reflexivity|].
  rewrite fire_all_cons, (fire_busy _ _ _ H). exact IH.
Qed.

Lemma fire_all_count (rqs : list Request) (e : Emergency) (l : Log) :
  (sms_count (snd (fire_all rqs (e, l))) <= sms_count l + 1)%nat.
Proof.
  destruct rqs as [|rq rqs]; [simpl; lia|].
  rewrite fire_all_cons.
  destruct (emergencyActive e || emergencyHandled e) eqn:H.
  - rewrite (fire_busy _ _ _ H), (fire_all_busy _ _ _ H). simpl. lia.
  - unfold fire. rewrite (triggerEmergency_idle _ _ _ _ _ H).
    rewrite fire_all_busy by reflexivity. simpl.
    rewrite sendSMS_count. lia.
Qed.

(** When the device is not idle the two detectors change neither the
    escalation state nor the log. *)
Lemma detect_vitals_busy (env : AlertEnv) (f : bool) (r : Reported) (m : Motion)
    (d : Device) :
  idle d = false -> detect_vitals env f r m d = Some d.
Proof.
  intros H. unfold detect_vitals. rewrite H.
  destruct (_ && _); [|reflexivity]. destruct (_ || _); reflexivity.
Qed.

Lemma detect_fall_busy (ck : Clock) (env : AlertEnv) (a g : Q) (r : Reported)
    (m : Motion) (d : Device) :
  idle d = false ->
  exists d', detect_fall ck env a g r m d = Some d'
             /\ emergency d' = emergency d /\ log d' = log d.
Proof.
  intros H. unfold detect_fall, fall_impact. rewrite H, andb_false_r.
  replace (if Qltb ACCEL_FALL_THRESH a && Qltb GYRO_FALL_THRESH g then d else d)
    with d by (destruct (_ && _); reflexivity).
  unfold fall_confirm.
  destruct (fallPending (fall d) && _).
  - replace (idle (set_fall _ d)) with (idle d) by reflexivity. rewrite H.
    destruct (Qltb a POST_FALL_STILLNESS_THRESH); eexists; (split; [reflexivity|]);
      unfold fall_timeout; destruct (_ && _); split; reflexivity.
  - eexists. split; [reflexivity|].
    unfold fall_timeout; destruct (_ && _); split; reflexivity.
Qed.

(** C2. While the escalation state is Active or Handled, any sequence of
    [triggerEmergency] calls leaves the state and the modem log as they
    were, and the two detectors of the loop change neither; from any state
    whatever, a sequence of such calls starts at most one SMS send. *)
Theorem C2_escalation_idempotent (rqs : list Request) (e : Emergency) (l : Log) :
  (emergencyActive e || emergencyHandled e = true ->
   fire_all rqs (e, l) = (e, l))
  /\ (forall env f r m d, idle d = false -> detect_vitals env f r m d = Some d)
  /\ (forall ck env a g r m d, idle d = false ->
        exists d', detect_fall ck env a g r m d = Some d'
                   /\ emergency d' = emergency d /\ log d' = log d)
  /\ (sms_count (snd (fire_all rqs (e, l))) <= sms_count l + 1)%nat.
Proof.
  split; [apply fire_all_busy|].
  split; [apply detect_vitals_busy|].
  split; [apply detect_fall_busy|].
  apply fire_all_count.
Qed.

(** Three requests on an idle device: the first escalates and sends, the
    other two change nothing. *)
Lemma C2_escalation_idempotent_witness :
  let rqs := [(mkTriggerEnv Confirmed 40000, fall_text);
              (mkTriggerEnv Confirmed 40100, fall_text);
              (mkTriggerEnv Confirmed 40200, vitals_text (mkReported 85 150))] in
  let st1 := fire_all [(mkTriggerEnv Confirmed 40000, fall_text)] (boot_emergency, []) in
  fire_all (tl rqs) st1 = st1
  /\ sms_count (snd (fire_all rqs (boot_emergency, []))) = 1%nat.
Proof.
  split.
  - apply (proj1 (C2_escalation_idempotent _ _ _)). vm_compute. reflexivity.
  - vm_compute. reflexivity.
Defined.

(** ** C10: the two emergency flags are never both set *)

Lemma exclusive_boot : exclusive boot_emergency.
Proof. reflexivity. Qed.

Lemma triggerEmergency_exclusive (reply : SmsReply) (now : Z) (msg : SmsText)
    (st : Emergency * Log) :
  exclusive (fst st) -> exclusive (fst (triggerEmergency reply now msg st)).
Proof.
  destruct st as [e l]. intros H. unfold triggerEmergency.
  destruct (emergencyActive e || emergencyHandled e); [exact H|].
  destruct (sendSMS reply EMERGENCY_PHONE msg l). reflexivity.
Qed.

Lemma checkForIncomingSMS_exclusive (inp : SerialIn) (st : Emergency * Log) :
  exclusive (fst st) -> exclusive (fst (checkForIncomingSMS inp st)).
Proof.
  destruct st as [e l]. intros H. unfold checkForIncomingSMS.
  destruct (rx inp) as [data|]; [|exact H].
  destruct (contains data "+CMTI:"); [|exact H].
  destruct (contains (cmgrReply inp) "OK" || contains (cmgrReply inp) "ok");
    [reflexivity|].
  destruct (contains (cmgrReply inp) "Resume" || contains (cmgrReply inp) "resume");
    [reflexivity|exact H].
Qed.

Lemma monitor_call_exclusive (callStart : Z) (polls : list Poll)
    (st : Emergency * Log) (x : MonitorExit) (st' : Emergency * Log)
    (rest : list Poll) :
  monitor_call callStart polls st = Some (x, st', rest) ->
  exclusive (fst st) -> exclusive (fst st').
Proof.
  revert st. induction polls as [|p ps IH]; intros st; simpl; [discriminate|].
  destruct (usub (pollClock p) callStart <? 25000); [|intros [= <- <- <-]; auto].
  intros Hm Hex.
  pose proof (checkForIncomingSMS_exclusive (pollSerial p) st Hex) as H1.
  destruct (checkForIncomingSMS (pollSerial p) st) as [e1 l1]. simpl in H1.
  destruct (emergencyHandled e1) eqn:Hh.
  - injection Hm as <- <- <-. exact H1.
  - destruct (clccReply p) as [resp|].
    + destruct (contains resp "+CLCC: 1,0,0,0,0").
      * injection Hm as <- <- <-. reflexivity.
      * exact (IH _ Hm H1).
    + exact (IH _ Hm H1).
Qed.

Lemma handleEmergencyCalls_exclusive (ck : Clock) (polls : list Poll)
    (st st' : Emergency * Log) :
  handleEmergencyCalls ck polls st = Some st' ->
  exclusive (fst st) -> exclusive (fst st').
Proof.
  destruct st as [e l]. unfold handleEmergencyCalls.
  destruct (negb (emergencyActive e) || emergencyHandled e); [returned|].
  destruct (CALL_INTERVAL <=? _); [|returned].
  destruct (monitor_call _ _ _) as [[[x [e2 l2]] rest]|] eqn:Hm; [|discriminate].
  intros Hr Hex.
  assert (H2 : exclusive e2).
  { apply (monitor_call_exclusive _ _ _ _ _ _ Hm). simpl.
    unfold exclusive in *. simpl in *. exact Hex. }
  destruct x; try (injection Hr as <-; exact H2).
  destruct (negb (emergencyHandled e2) && emergencyActive e2);
    injection Hr as <-; exact H2.
Qed.

Lemma on_alarm_emergency (f : Emergency * Log -> Emergency * Log) (d : Device) :
  emergency (on_alarm f d) = fst (f (emergency d, log d)).
Proof. unfold on_alarm. destruct (f (emergency d, log d)). reflexivity. Qed.

Lemma on_store_emergency (f : Queue * Log -> option (Queue * Log)) (d d' : Device) :
  on_store f d = Some d' -> emergency d' = emergency d.
Proof.
  unfold on_store. destruct (f (queue d, log d)) as [[q l]|]; [|discriminate].
  intros [= <-]. reflexivity.
Qed.

Lemma trigger_exclusive (env : TriggerEnv) (msg : SmsText) (d : Device) :
  exclusive (emergency d) -> exclusive (emergency (trigger env msg d)).
Proof.
  intros H. unfold trigger. rewrite on_alarm_emergency.
  apply triggerEmergency_exclusive. exact H.
Qed.

Lemma fall_impact_emergency (ck : Clock) (a g : Q) (d : Device) :
  emergency (fall_impact ck a g d) = emergency d.
Proof.
  unfold fall_impact.
  destruct (_ && _); [|reflexivity]. destruct (_ && _); reflexivity.
Qed.

Lemma fall_timeout_emergency (ck : Clock) (d : Device) :
  emergency (fall_timeout ck d) = emergency d.
Proof. unfold fall_timeout. destruct (_ && _); reflexivity. Qed.

Lemma detect_fall_exclusive (ck : Clock) (env : AlertEnv) (a g : Q) (r : Reported)
    (m : Motion) (d d' : Device) :
  detect_fall ck env a g r m d = Some d' ->
  exclusive (emergency d) -> exclusive (emergency d').
Proof.
  unfold detect_fall.
  destruct (fall_confirm _ _ _ _ _ _) as [d1|] eqn:E; [|discriminate].
  intros [= <-] Hex. rewrite fall_timeout_emergency.
  rewrite <- (fall_impact_emergency ck a g d) in Hex.
  revert E. generalize (fall_impact ck a g d) Hex. clear. intros d0 Hex.
  unfold fall_confirm.
  destruct (_ && _); [|returned].
  destruct (Qltb a POST_FALL_STILLNESS_THRESH); [|returned].
  destruct (idle _); [|returned].
  intros H. rewrite (on_store_emergency _ _ _ H).
  apply trigger_exclusive. exact Hex.
Qed.

Lemma detect_vitals_exclusive (env : AlertEnv) (f : bool) (r : Reported)
    (m : Motion) (d d' : Device) :
  detect_vitals env f r m d = Some d' ->
  exclusive (emergency d) -> exclusive (emergency d').
Proof.
  unfold detect_vitals. intros H Hex. revert H.
  destruct (_ && _); [|returned].
  destruct (_ || _); [|returned].
  destruct (idle d); [|returned].
  intros H. rewrite (on_store_emergency _ _ _ H).
  apply trigger_exclusive. exact Hex.
Qed.

Lemma escalate_exclusive (inp : LoopIn) (d d' : Device) :
  escalate inp d = Some d' ->
  exclusive (emergency d) -> exclusive (emergency d').
Proof.
  unfold escalate. intros H Hex. revert H.
  destruct (_ && _); [|returned].
  destruct (handleEmergencyCalls _ _ _) as [[e l]|] eqn:E; [|discriminate].
  intros [= <-]. simpl.
  exact (handleEmergencyCalls_exclusive _ _ _ _ E Hex).
Qed.

Lemma triggerManualEmergency_exclusive (env : AlertEnv) (r : Reported) (m : Motion)
    (d : Device) :
  exclusive (emergency (triggerManualEmergency env r m d)).
Proof. unfold triggerManualEmergency. apply trigger_exclusive. reflexivity. Qed.

Lemma checkManualEmergencyTrigger_exclusive (ck : Clock) (inp : ManualIn)
    (r : Reported) (m : Motion) (d : Device) :
  exclusive (emergency d) ->
  exclusive (emergency (checkManualEmergencyTrigger ck inp r m d)).
Proof.
  intros Hex. unfold checkManualEmergencyTrigger.
  set (d1 := match serialCmd inp with Some _ => _ | None => _ end).
  assert (H1 : exclusive (emergency d1)).
  { unfold d1. destruct (serialCmd inp) as [c|]; [|exact Hex].
    destruct (is_char c "E" "e"); [apply triggerManualEmergency_exclusive|].
    destruct (is_char c "R" "r"); [reflexivity|exact Hex]. }
  destruct (buttonLow inp); [|exact H1].
  destruct (2000 <=? _); [|exact H1].
  simpl. apply triggerManualEmergency_exclusive.
Qed.

Lemma check_wifi_emergency (inp : LoopIn) (d : Device) :
  emergency (check_wifi inp d) = emergency d.
Proof.
  unfold check_wifi.
  destruct (wlStatus inp); destruct (wifiConnected (net d));
    repeat first [ branch
                 | match goal with
                   | |- context [uploadQueuedData ?a ?b ?c] =>
                       destruct (uploadQueuedData a b c)
                   end ]; reflexivity.
Qed.

Lemma periodic_upload_emergency (inp : LoopIn) (r : Reported) (d d' : Device) :
  periodic_upload inp r d = Some d' -> emergency d' = emergency d.
Proof.
  unfold periodic_upload.
  destruct (DATA_INTERVAL <=? _); [|returned].
  intros H. rewrite (on_store_emergency _ _ _ H). reflexivity.
Qed.

Lemma loop_exclusive (inp : LoopIn) (d d' : Device) :
  loop inp d = Some d' ->
  exclusive (emergency d) -> exclusive (emergency d').
Proof.
  unfold loop. intros H Hex. revert H.
  rewrite <- (check_wifi_emergency inp d) in Hex.
  destruct (read_vitals _ _ _) as [[v f] r]. simpl.
  destruct (detect_fall _ _ _ _ _ _ _) as [d3|] eqn:E3; [|discriminate]. simpl.
  destruct (detect_vitals _ _ _ _ _) as [d4|] eqn:E4; [|discriminate]. simpl.
  destruct (escalate _ _) as [d5|] eqn:E5; [|discriminate]. simpl.
  intros H. rewrite (periodic_upload_emergency _ _ _ _ H).
  apply checkManualEmergencyTrigger_exclusive.
  rewrite on_alarm_emergency. apply checkForIncomingSMS_exclusive. simpl.
  apply (escalate_exclusive _ _ _ E5), (detect_vitals_exclusive _ _ _ _ _ _ E4).
  apply (detect_fall_exclusive _ _ _ _ _ _ _ _ E3). exact Hex.
Qed.

Lemma run_exclusive (inps : list LoopIn) (d d' : Device) :
  run inps d = Some d' ->
  exclusive (emergency d) -> exclusive (emergency d').
Proof.
  revert d. induction inps as [|inp rest IH]; intros d; simpl.
  - intros [= <-]. auto.
  - destruct (loop inp d) as [d1|] eqn:E; [|discriminate].
    intros H Hex. apply (IH d1 H). exact (loop_exclusive _ _ _ E Hex).
Qed.

Lemma exclusive_phase (e : Emergency) : exclusive e <-> phase e <> None.
Proof.
  unfold exclusive, phase.
  destruct (emergencyActive e), (emergencyHandled e); simpl; split; congruence.
Qed.

(** C10. Whatever the loop receives from boot onward (detector triggers,
    manual triggers, answered calls, acknowledgment and resume messages,
    reset commands), [emergencyActive] and [emergencyHandled] are never
    both true after a pass: the flags always encode Idle, Active or
    Handled. *)
Theorem C10_flags_exclusive (inps : list LoopIn) (mac : string) (w : bool)
    (d : Device) :
  run inps (boot mac w) = Some d ->
  exclusive (emergency d)
  /\ (phase (emergency d) = Some Idle
      \/ phase (emergency d) = Some Active
      \/ phase (emergency d) = Some Handled).
Proof.
  intros Hrun.
  assert (Hex : exclusive (emergency d))
    by (apply (run_exclusive _ _ _ Hrun), exclusive_boot).
  split; [exact Hex|].
  apply exclusive_phase in Hex.
  destruct (phase (emergency d)) as [[]|]; auto. congruence.
Qed.

(** A manual trigger in the first pass, then a call during which the
    responder's acknowledgment arrives at the second poll. *)
Lemma C10_flags_exclusive_witness :
  exists d1 d2,
    run [with_manual (manual_E 1000) (pass 1000 (pulse_in 100 false) 10 0)]
        (boot "A1B2" true) = Some d1
    /\ phase (emergency d1) = Some Active
    /\ run [with_polls [poll_ringing 2000; poll_ack 2600]
              (pass 2000 (pulse_in 100 false) 10 0)] d1 = Some d2
    /\ phase (emergency d2) = Some Handled
    /\ exclusive (emergency d2).
Proof.
  eexists. eexists.
  split; [vm_compute; reflexivity|].
  split; [vm_compute; reflexivity|].
  split; [vm_compute; reflexivity|].
  split; [vm_compute; reflexivity|].
  refine (proj1 (C10_flags_exclusive
    [with_manual (manual_E 1000) (pass 1000 (pulse_in 100 false) 10 0);
     with_polls [poll_ringing 2000; poll_ack 2600]
       (pass 2000 (pulse_in 100 false) 10 0)] "A1B2" true _ _)).
  vm_compute. reflexivity.
Defined.

(** ** C7: an acknowledgment cancels the call within the poll that sees it *)

(** What [checkForIncomingSMS] does with an acknowledgment. *)
Lemma checkForIncomingSMS_ack (inp : SerialIn) (e : Emergency) (l : Log) :
  is_ack inp = true ->
  exists l',
    checkForIncomingSMS inp (e, l) = (mkEmergency false true (lastCallTime e), l').
Proof.
  unfold is_ack, checkForIncomingSMS.
  destruct (rx inp) as [data|]; [|discriminate].
  intros H. apply andb_true_iff in H. destruct H as [H1 H2].
  rewrite H1, H2. eexists. reflexivity.
Qed.

(** Serial data without a stored-message notification is dropped: the
    branch of lines 1001-1005 is empty. *)
Lemma checkForIncomingSMS_other (inp : SerialIn) (data : string)
    (st : Emergency * Log) :
  rx inp = Some data -> contains data "+CMTI:" = false ->
  checkForIncomingSMS inp st = st.
Proof.
  intros Hrx Hno. destruct st as [e l]. unfold checkForIncomingSMS.
  rewrite Hrx, Hno. reflexivity.
Qed.

(** One turn of the monitor loop. *)
Lemma monitor_call_cons (callStart : Z) (p : Poll) (rest : list Poll)
    (st : Emergency * Log) :
  monitor_call callStart (p :: rest) st =
  if usub (pollClock p) callStart <? 25000 then
    let '(e1, log1) := checkForIncomingSMS (pollSerial p) st in
    if emergencyHandled e1 then Some (Cancelled, (e1, log1 ++ [Ath]), rest)
    else
      let log2 := log1 ++ [AtClcc; Delay 500] in
      match clccReply p with
      | Some resp =>
          if contains resp "+CLCC: 1,0,0,0,0" then
            Some (Answered, (mkEmergency false true (lastCallTime e1), log2 ++ [Ath]), rest)
          else monitor_call callStart rest (e1, log2)
      | None => monitor_call callStart rest (e1, log2)
      end
  else Some (TimedOut, st, rest).
Proof. reflexivity. Qed.

(** The poll that sees the acknowledgment leaves the loop by the [return]
    of line 919. *)
Lemma monitor_call_ack (callStart : Z) (p : Poll) (rest : list Poll)
    (e : Emergency) (l : Log) :
  usub (pollClock p) callStart < 25000 ->
  is_ack (pollSerial p) = true ->
  exists l',
    monitor_call callStart (p :: rest) (e, l)
    = Some (Cancelled, (mkEmergency false true (lastCallTime e), l' ++ [Ath]), rest).
Proof.
  intros Hin Hack. rewrite monitor_call_cons.
  apply Z.ltb_lt in Hin. rewrite Hin.
  destruct (checkForIncomingSMS_ack _ e l Hack) as [l' Hl'].
  rewrite Hl'. simpl. exists l'. reflexivity.
Qed.

(** A poll at which no notification is read leaves the escalation state
    and the log to [checkForIncomingSMS] as they were. *)
Lemma checkForIncomingSMS_quiet (inp : SerialIn) (st : Emergency * Log) :
  notifies inp = false -> checkForIncomingSMS inp st = st.
Proof.
  unfold notifies. intros H. destruct st as [e l]. unfold checkForIncomingSMS.
  destruct (rx inp) as [data|]; [rewrite H|]; reflexivity.
Qed.

(** Quiet polls are consumed one after the other; each sends the call
    status query and waits, and changes nothing else. *)
Lemma monitor_call_quiet (callStart : Z) (pre rest : list Poll) (e : Emergency)
    (l : Log) :
  emergencyHandled e = false ->
  forallb (quiet callStart) pre = true ->
  monitor_call callStart (pre ++ rest) (e, l)
  = monitor_call callStart rest (e, l ++ ring_log (length pre)).
Proof.
  intros He. revert l. induction pre as [|q pre IH]; intros l Hq.
  - unfold ring_log. cbn [length replicate concat app]. rewrite app_nil_r. reflexivity.
  - cbn [forallb] in Hq. apply andb_true_iff in Hq. destruct Hq as [Hq Hpre].
    unfold quiet in Hq. apply andb_true_iff in Hq. destruct Hq as [Hq Hans].
    apply andb_true_iff in Hq. destruct Hq as [Hin Hno].
    apply negb_true_iff in Hno, Hans.
    change ((q :: pre) ++ rest) with (q :: (pre ++ rest)).
    rewrite monitor_call_cons, Hin, (checkForIncomingSMS_quiet _ _ Hno), He.
    assert (Hnext : monitor_call callStart (pre ++ rest) (e, l ++ [AtClcc; Delay 500])
                    = monitor_call callStart rest (e, l ++ ring_log (length (q :: pre)))).
    { rewrite (IH _ Hpre). unfold ring_log. cbn [length replicate concat].
      rewrite <- !app_assoc. reflexivity. }
    unfold answered in Hans.
    destruct (clccReply q) as [resp|]; [rewrite Hans|]; exact Hnext.
Qed.

(** C7, as the code has it.  A call is being monitored and the device is
    not Handled; some polls pass at which nothing is read and the call
    rings; then comes a poll [p] inside the 25 s wait.  If the
    acknowledgment is what [checkForIncomingSMS] reads at [p] (line 915),
    the loop is left at [p] by the [return] of line 919: the state is
    Handled, the last thing sent is the hang-up, and no later poll is
    consumed.  If instead nothing is there for [checkForIncomingSMS] to
    read at [p], then whatever the [readString()] of line 926 returns at
    [p], short of an answered call, is dropped: [p] only sends the call
    status query, the state is unchanged and the loop goes on with the
    next poll.  A notification that has arrived since the query was sent
    is part of what is dropped. *)
Theorem C7_ack_during_call (callStart : Z) (pre : list Poll) (p : Poll)
    (rest : list Poll) (e : Emergency) (l : Log) :
  emergencyHandled e = false ->
  forallb (quiet callStart) pre = true ->
  usub (pollClock p) callStart < 25000 ->
  (is_ack (pollSerial p) = true ->
   exists l0,
     monitor_call callStart (pre ++ p :: rest) (e, l)
     = Some (Cancelled, (mkEmergency false true (lastCallTime e), l0 ++ [Ath]), rest))
  /\ (notifies (pollSerial p) = false ->
      forall resp, clccReply p = Some resp ->
      contains resp "+CLCC: 1,0,0,0,0" = false ->
      monitor_call callStart (pre ++ p :: rest) (e, l)
      = monitor_call callStart rest (e, l ++ ring_log (length pre + 1))).
Proof.
  intros He Hpre Hin. split.
  - intros Hack. rewrite (monitor_call_quiet callStart pre (p :: rest) e l He Hpre).
    apply monitor_call_ack; assumption.
  - intros Hno resp Hresp Hring.
    assert (Hq : forallb (quiet callStart) (pre ++ [p]) = true).
    { rewrite forallb_app, Hpre. cbn [forallb andb]. unfold quiet, answered.
      rewrite Hno, Hresp, Hring. apply Z.ltb_lt in Hin. rewrite Hin. reflexivity. }
    change (pre ++ p :: rest) with (pre ++ [p] ++ rest). rewrite app_assoc.
    rewrite (monitor_call_quiet callStart (pre ++ [p]) rest e l He Hq).
    rewrite length_app. reflexivity.
Qed.

(** A call placed at 2000 ms.  When the acknowledgment is read at the top
    of the second poll, the call is cancelled there and the third poll is
    left untouched.  When its notification arrives while the first call
    status is awaited, it is returned by the [readString()] of line 926
    and dropped: no message is ever read, the call rings until the 25 s
    are over, and the device is still Active. *)
Lemma C7_ack_during_call_witness :
  monitor_call 2000 [poll_ringing 2000; poll_ack 2600; poll_answered 3200]
               (mkEmergency true false 2000, [Atd EMERGENCY_PHONE])
  = Some (Cancelled,
          (mkEmergency false true 2000,
           [Atd EMERGENCY_PHONE; AtClcc; Delay 500; AtCmgr 3; Delay 500;
            AtCmgs EMERGENCY_PHONE; Delay 1000; SmsBody acknowledge_text; Delay 100;
            AtCmgd 3; Ath]),
          [poll_answered 3200])
  /\ (exists l0,
        monitor_call 2000 ([poll_ringing 2000] ++ poll_ack 2600 :: [poll_answered 3200])
                     (mkEmergency true false 2000, [Atd EMERGENCY_PHONE])
        = Some (Cancelled, (mkEmergency false true 2000, l0 ++ [Ath]),
                [poll_answered 3200]))
  /\ clccReply (poll_ack_with_status 2000) = Some "+CLCC: 1,0,3,0,0 OK +CMTI: SM,3"%string
  /\ monitor_call 2000 lost_ack_polls (mkEmergency true false 2000, [Atd EMERGENCY_PHONE])
     = monitor_call 2000 (ringing_polls 3500 16 ++ [mkPoll 27500 serial_idle None])
                    (mkEmergency true false 2000,
                     [Atd EMERGENCY_PHONE] ++ ring_log (length ([] : list Poll) + 1))
  /\ monitor_call 2000 lost_ack_polls (mkEmergency true false 2000, [Atd EMERGENCY_PHONE])
     = Some (TimedOut,
             (mkEmergency true false 2000, Atd EMERGENCY_PHONE :: ring_log 17), []).
Proof.
  split; [vm_compute; reflexivity|].
  split.
  - exact (proj1 (C7_ack_during_call 2000 [poll_ringing 2000] (poll_ack 2600)
                    [poll_answered 3200] (mkEmergency true false 2000)
                    [Atd EMERGENCY_PHONE] eq_refl eq_refl eq_refl) eq_refl).
  - split; [reflexivity|]. split.
    + exact (proj2 (C7_ack_during_call 2000 [] (poll_ack_with_status 2000)
                      (ringing_polls 3500 16 ++ [mkPoll 27500 serial_idle None])
                      (mkEmergency true false 2000) [Atd EMERGENCY_PHONE]
                      eq_refl eq_refl eq_refl)
                   eq_refl _ eq_refl eq_refl).
    + vm_compute. reflexivity.
Defined.

(** The same call seen from [handleEmergencyCalls]: placed at 2000 ms, it
    is hung up only when the 25 s are over; the responder's message is
    never read back ([AT+CMGR] is not sent) and the device stays Active,
    so that the next call follows 30 s after this one. *)
Example ack_lost_with_call_status :
  handleEmergencyCalls (fun _ => 2000) lost_ack_polls
                       (mkEmergency true false (usub 2000 CALL_INTERVAL), [])
  = Some (mkEmergency true false 2000, Atd EMERGENCY_PHONE :: ring_log 17 ++ [Ath])
  /\ ~ In (AtCmgr 3) (Atd EMERGENCY_PHONE :: ring_log 17 ++ [Ath]).
Proof.
  split; [vm_compute; reflexivity|].
  vm_compute. intros H.
  repeat (destruct H as [H|H]; [discriminate H|]). exact H.
Qed.

(** ** C4: the WiFi upload path *)

Lemma post_attempts_app (env : WifiEnv) (payload : JsonDoc) (todo : nat)
    (attempt : Z) (l : Log) :
  post_attempts env payload attempt todo l
  = (l ++ fst (post_attempts env payload attempt todo []),
     snd (post_attempts env payload attempt todo [])).
Proof.
  revert attempt l. induction todo as [|k IH]; intros attempt l; simpl.
  - reflexivity.
  - destruct (0 <? post env attempt).
    + simpl. rewrite <- app_assoc. reflexivity.
    + rewrite IH.
      rewrite (IH _ (if attempt <? MAX_UPLOAD_RETRIES then _ else _)).
      simpl. destruct (attempt <? MAX_UPLOAD_RETRIES); simpl;
        rewrite <- ?app_assoc; reflexivity.
Qed.

(** The call only appends to the log. *)
Lemma sendDataViaWiFi_app (env : WifiEnv) (payload : JsonDoc) (l : Log) :
  sendDataViaWiFi env payload l
  = (l ++ wifi_trace env payload, wifi_result env payload).
Proof.
  unfold wifi_trace, wifi_result, sendDataViaWiFi.
  destruct (linkUp env); cbn [negb].
  - rewrite post_attempts_app.
    rewrite (post_attempts_app _ _ _ _ ([] ++ [HttpBegin HTTP_TIMEOUT])).
    cbn [fst snd]. rewrite <- app_assoc. reflexivity.
  - cbn [fst snd]. rewrite app_nil_r. reflexivity.
Qed.

(** The five ways a call can go. *)
Lemma wifi_cases (env : WifiEnv) (payload : JsonDoc) :
  let p k := HttpPost k payload in
  let b := HttpBegin HTTP_TIMEOUT in
  (linkUp env = false
   /\ wifi_trace env payload = [] /\ wifi_result env payload = false)
  \/ (linkUp env = true /\ 0 < post env 1
      /\ wifi_trace env payload = [b; p 1; HttpEnd]
      /\ wifi_result env payload = true)
  \/ (linkUp env = true /\ post env 1 <= 0 /\ 0 < post env 2
      /\ wifi_trace env payload = [b; p 1; Delay 1000; p 2; HttpEnd]
      /\ wifi_result env payload = true)
  \/ (linkUp env = true /\ post env 1 <= 0 /\ post env 2 <= 0 /\ 0 < post env 3
      /\ wifi_trace env payload
         = [b; p 1; Delay 1000; p 2; Delay 1000; p 3; HttpEnd]
      /\ wifi_result env payload = true)
  \/ (linkUp env = true /\ post env 1 <= 0 /\ post env 2 <= 0 /\ post env 3 <= 0
      /\ wifi_trace env payload
         = [b; p 1; Delay 1000; p 2; Delay 1000; p 3; HttpEnd]
      /\ wifi_result env payload = false).
Proof.
  intros p b. unfold wifi_trace, wifi_result, sendDataViaWiFi.
  destruct (linkUp env); simpl; [right|left; auto].
  change (1 + 1 + 1) with 3. change (1 + 1) with 2.
  destruct (Z.ltb_spec 0 (post env 1)); [left; auto|right].
  destruct (Z.ltb_spec 0 (post env 2)); [left; auto 10|right].
  destruct (Z.ltb_spec 0 (post env 3)); [left; auto 10|right; auto 10].
Qed.

(** C4. For every payload and network, the WiFi path makes at most 3
    POST attempts, numbered from 1 without gap; if it makes any, it first
    sets the 10 s timeout; a pause of one second separates consecutive
    attempts; and it reports success exactly when one of the attempts it
    made returned a positive response code (the test of line 521), which,
    [http.POST] never returning 0, is exactly when one of them returned a
    response code that is not negative.  When WiFi is not connected no
    attempt is made and failure is reported.  A call appends to the log
    and changes nothing else. *)
Theorem C4_wifi_upload (env : WifiEnv) (payload : JsonDoc) (l : Log) :
  sendDataViaWiFi env payload l
  = (l ++ wifi_trace env payload, wifi_result env payload)
  /\ (length (posted (wifi_trace env payload)) <= 3)%nat
  /\ (exists n, (n <= 3)%nat
                /\ posted (wifi_trace env payload) = map Z.of_nat (seq 1 n))
  /\ (wifi_trace env payload = []
      \/ exists t, wifi_trace env payload = HttpBegin 10000 :: t)
  /\ paced (wifi_trace env payload) = true
  /\ (wifi_result env payload = true
      <-> exists k, In k (posted (wifi_trace env payload)) /\ 0 < post env k)
  /\ (http_codes env ->
      (wifi_result env payload = true
       <-> exists k, In k (posted (wifi_trace env payload)) /\ 0 <= post env k))
  /\ (linkUp env = false ->
      wifi_trace env payload = [] /\ wifi_result env payload = false).
Proof.
  split; [apply sendDataViaWiFi_app|].
  assert (Hshape :
    (length (posted (wifi_trace env payload)) <= 3)%nat
    /\ (exists n, (n <= 3)%nat
                  /\ posted (wifi_trace env payload) = map Z.of_nat (seq 1 n))
    /\ (wifi_trace env payload = []
        \/ exists t, wifi_trace env payload = HttpBegin 10000 :: t)
    /\ paced (wifi_trace env payload) = true
    /\ (wifi_result env payload = true
        <-> exists k, In k (posted (wifi_trace env payload)) /\ 0 < post env k)).
  { destruct (wifi_cases env payload)
      as [(Hl & Ht & Hr)|[(Hl & H1 & Ht & Hr)|[(Hl & H1 & H2 & Ht & Hr)
         |[(Hl & H1 & H2 & H3 & Ht & Hr)|(Hl & H1 & H2 & H3 & Ht & Hr)]]]];
      rewrite Ht, Hr; simpl.
    - split; [lia|]. split; [exists 0%nat; split; [lia|reflexivity]|].
      split; [left; reflexivity|]. split; [reflexivity|].
      split; [discriminate|]. intros (k & [] & _).
    - split; [lia|]. split; [exists 1%nat; split; [lia|reflexivity]|].
      split; [right; eexists; reflexivity|]. split; [reflexivity|].
      split; [|reflexivity]. intros _. exists 1. split; [left; reflexivity|exact H1].
    - split; [lia|]. split; [exists 2%nat; split; [lia|reflexivity]|].
      split; [right; eexists; reflexivity|]. split; [reflexivity|].
      split; [|reflexivity]. intros _. exists 2.
      split; [right; left; reflexivity|exact H2].
    - split; [lia|]. split; [exists 3%nat; split; [lia|reflexivity]|].
      split; [right; eexists; reflexivity|]. split; [reflexivity|].
      split; [|reflexivity]. intros _. exists 3.
      split; [right; right; left; reflexivity|exact H3].
    - split; [lia|]. split; [exists 3%nat; split; [lia|reflexivity]|].
      split; [right; eexists; reflexivity|]. split; [reflexivity|].
      split; [discriminate|].
      intros (k & Hk & Hpos). destruct Hk as [<-|[<-|[<-|[]]]]; lia. }
  destruct Hshape as (Hlen & Hnum & Hbegin & Hpaced & Hcode).
  repeat (split; [assumption|]).
  split.
  - intros Hc. rewrite Hcode.
    split; intros (k & Hk & Hp); exists k; (split; [exact Hk|]).
    + lia.
    + specialize (Hc k). lia.
  - intros Hdown. unfold wifi_trace, wifi_result, sendDataViaWiFi.
    rewrite Hdown. split; reflexivity.
Qed.

(** Two failed attempts (error -1) and a third answered with status 200:
    three POSTs, success, and an attempt with a code that is not negative.
    Without a connection: no POST, failure. *)
Lemma C4_wifi_upload_witness :
  http_codes (wifi net_third_try)
  /\ posted (wifi_trace (wifi net_third_try) sample_doc) = [1; 2; 3]
  /\ (wifi_result (wifi net_third_try) sample_doc = true
      <-> exists k, In k (posted (wifi_trace (wifi net_third_try) sample_doc))
                    /\ 0 <= post (wifi net_third_try) k)
  /\ wifi_result (wifi net_third_try) sample_doc = true
  /\ wifi_trace (wifi net_down) sample_doc = []
  /\ wifi_result (wifi net_down) sample_doc = false.
Proof.
  assert (Hc : http_codes (wifi net_third_try)).
  { intros k. simpl. destruct (k <? 3); discriminate. }
  split; [exact Hc|].
  split; [vm_compute; reflexivity|].
  split.
  - exact (proj1 (proj2 (proj2 (proj2 (proj2 (proj2 (proj2
             (C4_wifi_upload (wifi net_third_try) sample_doc []))))))) Hc).
  - split; [vm_compute; reflexivity|].
    exact (proj2 (proj2 (proj2 (proj2 (proj2 (proj2 (proj2
             (C4_wifi_upload (wifi net_down) sample_doc []))))))) eq_refl).
Defined.

(** ** C6: the members of the uploaded documents *)

Lemma cloud_doc_keys (id : string) (now : Z) (hr spo2 : Q) (m : Motion) :
  doc_keys (cloud_doc id now hr spo2 m) = required_fields.
Proof. reflexivity. Qed.

Lemma emergency_doc_keys (id : string) (now : Z) (hr spo2 : Q) (m : Motion) :
  doc_keys (emergency_doc id now hr spo2 m)
  = ["device_id"; "heart_rate"; "spo2"; "accel_x"; "accel_y"; "accel_z";
     "gyro_x"; "gyro_y"; "gyro_z"; "timestamp"; "emergency"; "manual_trigger";
     "gps_lat"; "gps_long"]%string.
Proof. reflexivity. Qed.

Lemma queued_doc_keys (id : string) (d : SensorData) :
  doc_keys (queued_doc id d)
  = ["device_id"; "heart_rate"; "spo2"; "accel_x"; "accel_y"; "accel_z";
     "gyro_x"; "gyro_y"; "gyro_z"; "queued"; "gps_lat"; "gps_long"]%string.
Proof. reflexivity. Qed.

Lemma uploads_app (l k : Log) : uploads (l ++ k) = uploads l ++ uploads k.
Proof. unfold uploads. apply omap_app. Qed.

(** The WiFi path uploads nothing but the payload it was given. *)
Lemma wifi_trace_uploads (env : WifiEnv) (payload : JsonDoc) :
  Forall (eq payload) (uploads (wifi_trace env payload)).
Proof.
  destruct (wifi_cases env payload)
    as [(_ & Ht & _)|[(_ & _ & Ht & _)|[(_ & _ & _ & Ht & _)
       |[(_ & _ & _ & _ & Ht & _)|(_ & _ & _ & _ & Ht & _)]]]];
    rewrite Ht; repeat constructor.
Qed.

(** An upload appends to the log, and what it uploads is its payload. *)
Lemma upload_uploads (env : UploadEnv) (payload : JsonDoc) (l : Log) :
  exists t, fst (upload env payload l) = l ++ t /\ Forall (eq payload) (uploads t).
Proof.
  unfold upload.
  destruct (wifiStatus env).
  - rewrite sendDataViaWiFi_app.
    pose proof (wifi_trace_uploads (wifi env) payload) as Hw.
    destruct (wifi_result (wifi env) payload).
    + eexists. split; [reflexivity|exact Hw].
    + destruct (gsm env) as [|ok]; simpl.
      * eexists. split; [reflexivity|exact Hw].
      * exists (wifi_trace (wifi env) payload ++ [GsmHttp payload]).
        split; [rewrite app_assoc; reflexivity|].
        rewrite uploads_app. apply Forall_app. split; [exact Hw|].
        repeat constructor.
  - destruct (gsm env) as [|ok]; simpl.
    + exists []. split; [rewrite app_nil_r; reflexivity|constructor].
    + eexists. split; [reflexivity|]. repeat constructor.
Qed.

Lemma sendDataToCloud_uploads (id : string) (env : UploadEnv) (now : Z)
    (hr spo2 : Q) (m : Motion) (q q' : Queue) (l l' : Log) :
  sendDataToCloud id env now hr spo2 m (q, l) = Some (q', l') ->
  exists t, l' = l ++ t /\ Forall (eq (cloud_doc id now hr spo2 m)) (uploads t).
Proof.
  unfold sendDataToCloud.
  destruct (upload_uploads env (cloud_doc id now hr spo2 m) l) as (t & Ht & Hall).
  destruct (upload env (cloud_doc id now hr spo2 m) l) as [l1 ok]. simpl in Ht.
  destruct ok.
  - intros [= <- <-]. exists t. auto.
  - destruct (queueData hr spo2 m q); [|discriminate].
    intros [= <- <-]. exists t. auto.
Qed.

Lemma sendEmergencyDataToCloud_uploads (id : string) (env : UploadEnv) (now : Z)
    (hr spo2 : Q) (m : Motion) (l : Log) :
  exists t, sendEmergencyDataToCloud id env now hr spo2 m l = l ++ t
            /\ Forall (eq (emergency_doc id now hr spo2 m)) (uploads t).
Proof. apply upload_uploads. Qed.

Lemma upload_slot_uploads (id : string) (envs : nat -> UploadEnv) (i : nat)
    (slots : list SensorData) (l : Log) :
  exists t, snd (upload_slot id envs i (slots, l)) = l ++ t
            /\ Forall (fun doc => exists d, doc = queued_doc id d) (uploads t).
Proof.
  unfold upload_slot.
  destruct (slots !! i) as [d|]; [|exists []; rewrite app_nil_r; split; [reflexivity|constructor]].
  destruct (pending d); [|exists []; rewrite app_nil_r; split; [reflexivity|constructor]].
  destruct (upload_uploads (envs i) (queued_doc id d) l) as (t & Ht & Hall).
  destruct (upload (envs i) (queued_doc id d) l) as [l1 ok]. simpl in *. subst l1.
  exists (t ++ [Delay 100]). split; [rewrite app_assoc; reflexivity|].
  rewrite uploads_app. apply Forall_app. split; [|constructor].
  eapply Forall_impl; [exact Hall|]. intros doc <-. exists d. reflexivity.
Qed.

Lemma upload_slots_uploads (id : string) (envs : nat -> UploadEnv) (idxs : list nat)
    (slots : list SensorData) (l : Log) :
  exists t,
    snd (fold_left (fun acc i => upload_slot id envs i acc) idxs (slots, l)) = l ++ t
    /\ Forall (fun doc => exists d, doc = queued_doc id d) (uploads t).
Proof.
  revert slots l. induction idxs as [|i idxs IH]; intros slots l; cbn [fold_left snd].
  - exists []. rewrite app_nil_r. split; [reflexivity|constructor].
  - destruct (upload_slot_uploads id envs i slots l) as (t1 & H1 & A1).
    destruct (upload_slot id envs i (slots, l)) as [slots1 l1]. simpl in H1. subst l1.
    destruct (IH slots1 (l ++ t1)) as (t2 & H2 & A2).
    exists (t1 ++ t2). split; [rewrite H2, app_assoc; reflexivity|].
    rewrite uploads_app. apply Forall_app. auto.
Qed.

Lemma uploadQueuedData_uploads (id : string) (envs : nat -> UploadEnv)
    (q : Queue) (l : Log) :
  exists t, snd (uploadQueuedData id envs (q, l)) = l ++ t
            /\ Forall (fun doc => exists d, doc = queued_doc id d) (uploads t).
Proof.
  unfold uploadQueuedData.
  destruct (upload_slots_uploads id envs (seq 0 (Z.to_nat DATA_QUEUE_SIZE))
              (dataQueue q) l) as (t & Ht & Hall).
  destruct (fold_left _ _ _) as [slots l']. simpl in *. exists t. auto.
Qed.

(** C6, as the code has it. Every document uploaded by [sendDataToCloud]
    (the periodic upload and the upload that follows a detector alarm) has
    exactly the twelve specified members and no flag; every document
    uploaded by [sendEmergencyDataToCloud] has the twelve members and the
    flags emergency and manual_trigger; every document uploaded by
    [uploadQueuedData] has the flag queued and the specified members
    except timestamp. *)
Theorem C6_payload_members (id : string) (env : UploadEnv)
    (envs : nat -> UploadEnv) (now : Z) (hr spo2 : Q) (m : Motion)
    (q : Queue) (l : Log) :
  (forall q' l', sendDataToCloud id env now hr spo2 m (q, l) = Some (q', l') ->
     exists t, l' = l ++ t
               /\ Forall (fun doc => doc_keys doc = required_fields) (uploads t))
  /\ (exists t, sendEmergencyDataToCloud id env now hr spo2 m l = l ++ t
                /\ Forall (fun doc => doc_keys doc = emergency_fields) (uploads t))
  /\ (exists t, snd (uploadQueuedData id envs (q, l)) = l ++ t
                /\ Forall (fun doc => doc_keys doc = queued_fields) (uploads t)).
Proof.
  split; [|split].
  - intros q' l' H.
    destruct (sendDataToCloud_uploads _ _ _ _ _ _ _ _ _ _ H) as (t & Ht & Hall).
    exists t. split; [exact Ht|].
    eapply Forall_impl; [exact Hall|]. intros doc <-. reflexivity.
  - destruct (sendEmergencyDataToCloud_uploads id env now hr spo2 m l) as (t & Ht & Hall).
    exists t. split; [exact Ht|].
    eapply Forall_impl; [exact Hall|]. intros doc <-. reflexivity.
  - destruct (uploadQueuedData_uploads id envs q l) as (t & Ht & Hall).
    exists t. split; [exact Ht|].
    eapply Forall_impl; [exact Hall|]. intros doc (d & ->). reflexivity.
Qed.

(** A reading that could not be sent is queued; when the network is back
    the queue is flushed, and the document posted for it has no timestamp
    member. *)
Lemma C6_queued_upload_counterexample :
  queueData 72 98 resting boot_queue = Some one_pending
  /\ uploads (snd (uploadQueuedData "A1B2" (fun _ => net_up) (one_pending, [])))
     = [queued_doc "A1B2" (mkSensorData 72 98 resting true)]
  /\ has_key (queued_doc "A1B2" (mkSensorData 72 98 resting true)) "timestamp" = false
  /\ ~ Forall (fun doc => complete doc = true)
         (uploads (snd (uploadQueuedData "A1B2" (fun _ => net_up) (one_pending, [])))).
Proof.
  split; [vm_compute; reflexivity|].
  split; [vm_compute; reflexivity|].
  split; [vm_compute; reflexivity|].
  intros H. apply Forall_inv in H. vm_compute in H. discriminate H.
Qed.

(** A periodic upload over a working network: one POST with the twelve
    members. *)
Lemma C6_payload_members_witness :
  exists t,
    sendDataToCloud "A1B2" net_up 1000 72 98 resting (boot_queue, [])
    = Some (boot_queue, [] ++ t)
    /\ Forall (fun doc => doc_keys doc = required_fields) (uploads t).
Proof.
  destruct (proj1 (C6_payload_members "A1B2" net_up (fun _ => net_up) 1000 72 98
                     resting boot_queue [])
              boot_queue
              [HttpBegin 10000; HttpPost 1 (cloud_doc "A1B2" 1000 72 98 resting); HttpEnd]
              ltac:(vm_compute; reflexivity)) as (t & Ht & Hall).
  exists t. split; [|exact Hall].
  rewrite <- Ht. vm_compute. reflexivity.
Defined.

(** ** C5: the offline queue *)

Lemma boot_queue_ok : queue_ok boot_queue.
Proof. split; [reflexivity|unfold boot_queue, DATA_QUEUE_SIZE; cbn; lia]. Qed.

Lemma ring_view_length (q : Queue) :
  queue_ok q -> length (ring_view q) = Z.to_nat DATA_QUEUE_SIZE.
Proof.
  intros [Hl Hh]. unfold ring_view.
  rewrite length_app, length_drop, length_take. lia.
Qed.

(** One [queueData]: no fault, the index stays in bounds, and the ring
    loses its first slot and gains the new reading at the end. *)
Lemma queueData_fifo (q : Queue) (r : Reading) :
  queue_ok q ->
  exists q', enqueue q r = Some q'
             /\ queue_ok q'
             /\ ring_view q' = tl (ring_view q) ++ [slot_of r].
Proof.
  destruct q as [slots h]. unfold queue_ok, enqueue, queueData, DATA_QUEUE_SIZE.
  simpl. intros [Hl Hh].
  destruct slots as [|s0 [|s1 [|s2 [|s3 [|s4 [|s5 more]]]]]]; try discriminate Hl.
  assert (Hc : h = 0 \/ h = 1 \/ h = 2 \/ h = 3 \/ h = 4) by lia.
  destruct Hc as [->|[->|[->|[->| ->]]]]; eexists;
    (split; [reflexivity|]); (split; [split; [reflexivity|vm_compute; split; [discriminate|reflexivity]]|]);
    reflexivity.
Qed.

Lemma enqueue_all_fifo (rs : list Reading) (q : Queue) :
  queue_ok q ->
  exists q', enqueue_all rs q = Some q'
             /\ queue_ok q'
             /\ ring_view q' = drop (length rs) (ring_view q ++ map slot_of rs).
Proof.
  revert q. induction rs as [|r rs IH]; intros q Hok.
  - exists q. split; [reflexivity|]. split; [exact Hok|].
    simpl. rewrite app_nil_r. reflexivity.
  - destruct (queueData_fifo q r Hok) as (q1 & H1 & Hok1 & Hv1).
    destruct (IH q1 Hok1) as (q' & H' & Hok' & Hv').
    exists q'. simpl. rewrite H1. split; [exact H'|]. split; [exact Hok'|].
    rewrite Hv', Hv1.
    pose proof (ring_view_length q Hok) as Hlen.
    destruct (ring_view q) as [|v0 vs]; [discriminate Hlen|].
    simpl. rewrite <- app_assoc. reflexivity.
Qed.

Lemma filter_pending_slots (rs : list Reading) :
  List.filter pending (map slot_of rs) = map slot_of rs.
Proof. induction rs as [|r rs IH]; simpl; [reflexivity|]. rewrite IH. reflexivity. Qed.

Lemma filter_pending_empty (n : nat) :
  List.filter pending (replicate n empty_slot) = [].
Proof. induction n as [|n IH]; simpl; [reflexivity|exact IH]. Qed.

Lemma pending_count_le (q : Queue) :
  queue_ok q -> (pending_count q <= Z.to_nat DATA_QUEUE_SIZE)%nat.
Proof.
  intros [Hl _]. unfold pending_count. rewrite <- Hl. apply List.filter_length_le.
Qed.

Lemma pending_count_waiting (q : Queue) : pending_count q = length (waiting q).
Proof.
  unfold pending_count, waiting, ring_view.
  rewrite <- (take_drop (Z.to_nat (queueHead q)) (dataQueue q)) at 1.
  rewrite !List.filter_app, !length_app. lia.
Qed.

(** Flushing the queue changes neither the array size nor the index. *)
Lemma upload_slot_length (id : string) (envs : nat -> UploadEnv) (i : nat)
    (st : list SensorData * Log) :
  length (fst (upload_slot id envs i st)) = length (fst st).
Proof.
  destruct st as [slots l]. unfold upload_slot.
  destruct (slots !! i) as [d|]; [|reflexivity].
  destruct (pending d); [|reflexivity].
  destruct (upload _ _ _) as [l1 ok]. destruct ok; simpl; [|reflexivity].
  apply length_insert.
Qed.

Lemma uploadQueuedData_ok (id : string) (envs : nat -> UploadEnv) (q : Queue) (l : Log) :
  queue_ok q -> queue_ok (fst (uploadQueuedData id envs (q, l))).
Proof.
  intros [Hl Hh]. unfold uploadQueuedData.
  assert (Hfold : forall idxs st,
    length (fst (fold_left (fun acc i => upload_slot id envs i acc) idxs st))
    = length (fst st)).
  { induction idxs as [|i idxs IH]; intros st; cbn [fold_left]; [reflexivity|].
    rewrite IH. apply upload_slot_length. }
  specialize (Hfold (seq 0 (Z.to_nat DATA_QUEUE_SIZE)) (dataQueue q, l)).
  destruct (fold_left _ _ _) as [slots l']. cbn [fst] in Hfold.
  split; [cbn [dataQueue fst]; rewrite Hfold; exact Hl|exact Hh].
Qed.

Lemma ring_view_boot : ring_view boot_queue = replicate 5 empty_slot.
Proof. reflexivity. Qed.

(** After any enqueues from boot, the ring holds unused slots followed by
    the newest readings in the order they were enqueued. *)
Lemma ring_view_enqueued (rs : list Reading) (q : Queue) :
  enqueue_all rs boot_queue = Some q ->
  ring_view q
  = replicate (5 - length rs) empty_slot ++ map slot_of (drop (length rs - 5) rs).
Proof.
  intros H.
  destruct (enqueue_all_fifo rs boot_queue boot_queue_ok) as (q' & H' & _ & Hv).
  rewrite H in H'. injection H' as <-.
  rewrite Hv, ring_view_boot, drop_app, drop_replicate, length_replicate.
  rewrite List.skipn_map. reflexivity.
Qed.

Lemma waiting_enqueued (rs : list Reading) (q : Queue) :
  enqueue_all rs boot_queue = Some q ->
  waiting q = map slot_of (drop (length rs - 5) rs).
Proof.
  intros H. unfold waiting. rewrite (ring_view_enqueued rs q H).
  rewrite List.filter_app, filter_pending_empty, filter_pending_slots. reflexivity.
Qed.

(** C5. Any sequence of enqueue operations from the boot state runs
    without a fault; afterwards the array still has its 5 slots, the write
    index is in [0, 5), at most 5 readings are pending, and the pending
    readings are exactly the newest ones (at most five) in the order they
    were enqueued.  Once five or more have been enqueued the queue is
    full, and a further enqueue drops the oldest pending reading and
    appends the new one. *)
Theorem C5_queue_bounded (rs : list Reading) :
  exists q,
    enqueue_all rs boot_queue = Some q
    /\ queue_ok q
    /\ (pending_count q <= 5)%nat
    /\ waiting q = map slot_of (drop (length rs - 5) rs)
    /\ ((5 <= length rs)%nat ->
        pending_count q = 5%nat
        /\ forall r, exists q',
             enqueue q r = Some q' /\ queue_ok q'
             /\ waiting q' = tl (waiting q) ++ [slot_of r]).
Proof.
  destruct (enqueue_all_fifo rs boot_queue boot_queue_ok) as (q & Hq & Hok & _).
  exists q. split; [exact Hq|]. split; [exact Hok|].
  split; [exact (pending_count_le q Hok)|].
  pose proof (waiting_enqueued rs q Hq) as Hw.
  split; [exact Hw|].
  intros Hfull. split.
  - rewrite pending_count_waiting, Hw, length_map, length_drop. lia.
  - intros r. destruct (queueData_fifo q r Hok) as (q' & Hq' & Hok' & Hv').
    exists q'. split; [exact Hq'|]. split; [exact Hok'|].
    unfold waiting at 1. rewrite Hv', Hw.
    rewrite (ring_view_enqueued rs q Hq).
    replace (5 - length rs)%nat with 0%nat by lia. simpl.
    rewrite List.filter_app. simpl.
    destruct (drop (length rs - 5) rs) as [|r0 rest]; simpl.
    + reflexivity.
    + rewrite filter_pending_slots. reflexivity.
Qed.

(** Seven readings into the empty queue: the first two are overwritten,
    the last five wait in order. *)
Example seven_enqueued :
  exists q, enqueue_all seven_readings boot_queue = Some q
            /\ queueHead q = 2
            /\ map q_hr (waiting q) = [63; 64; 65; 66; 67]%Q.
Proof. eexists. split; [vm_compute; reflexivity|]. split; reflexivity. Qed.

(** ** C1: the two-stage fall detector *)

Lemma fall_impact_eq (ck : Clock) (a g : Q) (d : Device) :
  fall_impact ck a g d = set_fall (candidate ck a g d) d.
Proof.
  unfold candidate, fall_impact.
  destruct (_ && _); [|destruct d; reflexivity].
  destruct (_ && _); [reflexivity|destruct d; reflexivity].
Qed.

(** Stage 1: when a candidate is opened. *)
Lemma candidate_spec (ck : Clock) (a g : Q) (d : Device) :
  candidate ck a g d
  = if impact a g && negb (fallPending (fall d)) && idle d
    then mkFallState (u32 (ck 400)) true
    else fall d.
Proof.
  unfold candidate, fall_impact, impact.
  destruct (Qltb ACCEL_FALL_THRESH a && Qltb GYRO_FALL_THRESH g); [|reflexivity].
  simpl. destruct (negb (fallPending (fall d)) && idle d); reflexivity.
Qed.

Lemma on_alarm_fall (f : Emergency * Log -> Emergency * Log) (d : Device) :
  fall (on_alarm f d) = fall d.
Proof. unfold on_alarm. destruct (f (emergency d, log d)). reflexivity. Qed.

Lemma trigger_idle (env : TriggerEnv) (msg : SmsText) (d : Device) :
  idle d = true ->
  emergency (trigger env msg d)
  = mkEmergency true false (usub (triggerClock env) CALL_INTERVAL)
  /\ log (trigger env msg d) = fst (sendSMS (smsReply env) EMERGENCY_PHONE msg (log d)).
Proof.
  intros Hidle. unfold trigger, on_alarm.
  rewrite triggerEmergency_idle.
  - split; reflexivity.
  - unfold idle in Hidle. apply andb_true_iff in Hidle. destruct Hidle as [Ha Hh].
    apply negb_true_iff in Ha. apply negb_true_iff in Hh. rewrite Ha, Hh. reflexivity.
Qed.

Lemma cloud_log (env : CloudEnv) (hr spo2 : Q) (m : Motion) (d d' : Device) :
  cloud env hr spo2 m d = Some d' ->
  emergency d' = emergency d /\ fall d' = fall d /\ exists t, log d' = log d ++ t.
Proof.
  unfold cloud, on_store.
  destruct (sendDataToCloud _ _ _ _ _ _ _) as [[q l]|] eqn:E; [|discriminate].
  intros [= <-]. split; [reflexivity|]. split; [reflexivity|].
  destruct (sendDataToCloud_uploads _ _ _ _ _ _ _ _ _ _ E) as (t & Ht & _).
  exists t. exact Ht.
Qed.

(** The timeout test touches the candidate only. *)
Lemma fall_timeout_frame (ck : Clock) (d : Device) :
  emergency (fall_timeout ck d) = emergency d
  /\ log (fall_timeout ck d) = log d
  /\ queue (fall_timeout ck d) = queue d
  /\ (fallPending (fall d) = false -> fall (fall_timeout ck d) = fall d).
Proof.
  unfold fall_timeout. destruct (fallPending (fall d)) eqn:Hp; simpl.
  - destruct (1000 <? _); repeat split; try reflexivity; discriminate.
  - repeat split; reflexivity.
Qed.

(** Stage 2, by cases on what the check finds. *)
Lemma fall_confirm_cases (ck : Clock) (env : AlertEnv) (a g : Q) (r : Reported)
    (m : Motion) (d d1 : Device) :
  fall_confirm ck env a r m (fall_impact ck a g d) = Some d1 ->
  let c := candidate ck a g d in
  if fallPending c && (FALL_CONFIRM_DELAY <=? elapsed ck a g d) then
    fallPending (fall d1) = false
    /\ if still a && idle d then
         emergency d1 = fst (fall_alarm env (log d))
         /\ exists t, log d1 = snd (fall_alarm env (log d)) ++ t
       else
         emergency d1 = emergency d /\ log d1 = log d /\ queue d1 = queue d
  else d1 = fall_impact ck a g d.
Proof.
  intros H c. unfold elapsed. fold c.
  rewrite fall_impact_eq in H |- *. fold c in H |- *.
  unfold fall_confirm in H.
  replace (fall (set_fall c d)) with c in H by reflexivity.
  destruct (fallPending c && (FALL_CONFIRM_DELAY <=? usub (ck 406) (fallDetectedTime c)));
    [|injection H as <-; reflexivity].
  unfold still. destruct (Qltb a POST_FALL_STILLNESS_THRESH); simpl.
  - replace (idle (set_fall _ (set_fall c d))) with (idle d) in H by reflexivity.
    destruct (idle d) eqn:Hidle.
    + destruct (cloud_log _ _ _ _ _ _ H) as (He & Hf & t & Hl).
      set (d0 := set_fall _ (set_fall c d)) in *.
      destruct (trigger_idle (alertTrigger env) fall_text d0 Hidle) as [Te Tl].
      split; [rewrite Hf; unfold trigger; rewrite on_alarm_fall; reflexivity|].
      split; [rewrite He, Te; reflexivity|].
      exists t. rewrite Hl, Tl. reflexivity.
    + injection H as <-. repeat split; reflexivity.
  - injection H as <-. repeat split; reflexivity.
Qed.

(** The whole detector, by cases on what the stillness check finds. *)
Lemma detect_fall_cases (ck : Clock) (env : AlertEnv) (a g : Q) (r : Reported)
    (m : Motion) (d d' : Device) :
  detect_fall ck env a g r m d = Some d' ->
  let c := candidate ck a g d in
  if fallPending c && (FALL_CONFIRM_DELAY <=? elapsed ck a g d) then
    fallPending (fall d') = false
    /\ if still a && idle d then
         emergency d' = fst (fall_alarm env (log d))
         /\ exists t, log d' = snd (fall_alarm env (log d)) ++ t
       else
         emergency d' = emergency d /\ log d' = log d /\ queue d' = queue d
  else
    emergency d' = emergency d /\ log d' = log d /\ queue d' = queue d
    /\ fall d' = if fallPending c && (1000 <? usub (ck 427) (fallDetectedTime c))
                 then mkFallState (fallDetectedTime c) false else c.
Proof.
  intros Hd c. unfold detect_fall in Hd.
  destruct (fall_confirm _ _ _ _ _ _) as [d1|] eqn:E; [|discriminate].
  injection Hd as <-.
  pose proof (fall_confirm_cases ck env a g r m d d1 E) as H. cbv zeta in H. fold c in H.
  destruct (fall_timeout_frame ck d1) as (Fe & Fl & Fq & Ff).
  destruct (fallPending c && (FALL_CONFIRM_DELAY <=? elapsed ck a g d)).
  - destruct H as [Hp H]. rewrite (Ff Hp), Fe, Fl, Fq. split; [exact Hp|exact H].
  - subst d1. rewrite Fe, Fl, Fq. rewrite fall_impact_eq. fold c.
    repeat split. unfold fall_timeout. simpl.
    destruct (fallPending c && _); reflexivity.
Qed.

Lemma idle_not_active (d : Device) :
  idle d = true -> emergencyActive (emergency d) = false.
Proof.
  unfold idle. intros H. apply andb_true_iff in H. destruct H as [H _].
  apply negb_true_iff in H. exact H.
Qed.

(** C1, as the code has it. A pass of the fall detector takes the device
    from Idle to Active only if a candidate is pending at its stillness
    check, at least [FALL_CONFIRM_DELAY] has elapsed since the candidate
    was opened, and the acceleration magnitude is below
    [POST_FALL_STILLNESS_THRESH].  Conversely, under these conditions and
    with the device still Idle, the alarm is raised with the FALL text and
    the candidate is closed, however long ago the candidate was opened:
    the check of line 406 has no upper limit, and the 1 s timeout of
    lines 426-430 is tested only after it.  If at a due check the wearer
    is not still, or the device is no longer Idle, the candidate is
    discarded and the escalation state, the log and the queue are left as
    they were.  A candidate that the stillness check leaves pending is
    discarded without an alarm once the timeout test finds it older than
    1 s, and is kept otherwise.  A candidate is opened exactly when both
    magnitudes exceed their thresholds while none is pending and the
    device is Idle. *)
Theorem C1_fall_detector (ck : Clock) (env : AlertEnv) (a g : Q) (r : Reported)
    (m : Motion) (d d' : Device) :
  detect_fall ck env a g r m d = Some d' ->
  let c := candidate ck a g d in
  let due := fallPending c = true /\ FALL_CONFIRM_DELAY <= elapsed ck a g d in
  (c = if impact a g && negb (fallPending (fall d)) && idle d
       then mkFallState (u32 (ck 400)) true else fall d)
  /\ (idle d = true -> emergencyActive (emergency d') = true ->
      due /\ (a < POST_FALL_STILLNESS_THRESH)%Q)
  /\ (due -> (a < POST_FALL_STILLNESS_THRESH)%Q -> idle d = true ->
      emergency d' = fst (fall_alarm env (log d))
      /\ (exists t, log d' = snd (fall_alarm env (log d)) ++ t)
      /\ fallPending (fall d') = false)
  /\ (due -> ~ (a < POST_FALL_STILLNESS_THRESH)%Q \/ idle d = false ->
      fallPending (fall d') = false
      /\ emergency d' = emergency d /\ log d' = log d /\ queue d' = queue d)
  /\ (fallPending c = true -> elapsed ck a g d < FALL_CONFIRM_DELAY ->
      emergency d' = emergency d /\ log d' = log d
      /\ (1000 < usub (ck 427) (fallDetectedTime c) -> fallPending (fall d') = false)
      /\ (usub (ck 427) (fallDetectedTime c) <= 1000 -> fall d' = c)).
Proof.
  intros H c due.
  pose proof (detect_fall_cases ck env a g r m d d' H) as Hc. cbv zeta in Hc. fold c in Hc.
  split; [apply candidate_spec|].
  unfold due. clear due.
  destruct (fallPending c) eqn:Hp; simpl in Hc.
  - destruct (Z.leb_spec FALL_CONFIRM_DELAY (elapsed ck a g d)) as [Hdue|Hearly].
    + destruct Hc as [Hclosed Hc].
      destruct (still a) eqn:Hs; simpl in Hc.
      * apply Qltb_lt in Hs.
        destruct (idle d) eqn:Hidle.
        -- destruct Hc as [He Hl].
           split; [intros _ _; auto|]. split; [intros _ _ _; auto|].
           split; [|intros _ Hlt; lia].
           intros _ [Hn|Hn]; [contradiction|discriminate].
        -- destruct Hc as (He & Hl & Hq).
           split; [discriminate|]. split; [intros _ _ Hf; discriminate|].
           split; [intros _ _; auto|intros _ Hlt; lia].
      * assert (Hns : ~ (a < POST_FALL_STILLNESS_THRESH)%Q).
        { intros Hlt. apply Qltb_lt in Hlt. unfold still in Hs. congruence. }
        replace (false && idle d) with false in Hc by reflexivity.
        destruct Hc as (He & Hl & Hq).
        split.
        { intros Hidle Hact. rewrite He in Hact.
          rewrite (idle_not_active d Hidle) in Hact. discriminate. }
        split; [intros _ Hlt; contradiction|].
        split; [intros _ _; auto|intros _ Hlt; lia].
    + destruct Hc as (He & Hl & Hq & Hf).
      split.
      { intros Hidle Hact. rewrite He in Hact.
        rewrite (idle_not_active d Hidle) in Hact. discriminate. }
      split; [intros [_ Hd]; lia|]. split; [intros [_ Hd]; lia|].
      intros _ _. split; [exact He|]. split; [exact Hl|].
      rewrite Hf. simpl. split.
      * intros Hlate. apply Z.ltb_lt in Hlate. rewrite Hlate. reflexivity.
      * intros Hsoon. destruct (Z.ltb_spec 1000 (usub (ck 427) (fallDetectedTime c)));
          [lia|reflexivity].
  - destruct Hc as (He & Hl & Hq & Hf).
    split.
    { intros Hidle Hact. rewrite He in Hact.
      rewrite (idle_not_active d Hidle) in Hact. discriminate. }
    split; [intros [Hd _]; discriminate|]. split; [intros [Hd _]; discriminate|].
    intros Hd. discriminate.
Qed.

(** Two stillness checks.  After an impact (30 m/s^2, 250 rad/s) at
    1000 ms the wearer is still (5 m/s^2) at 1300 ms: the FALL alarm is
    raised.  After the same impact at 120000 ms, in a pass whose periodic
    upload is due and spends 2 s in the retry delay of line 527, the next
    check is made at 122500 ms, 2.5 s after the impact and so past the
    1 s timeout: the wearer is still, and the FALL alarm is raised all the
    same. *)
Lemma C1_fall_detector_witness :
  (run [pass 1000 (pulse_in 100 false) 30 250] (boot "A1B2" true) = Some after_impact
   /\ fall after_impact = mkFallState 1000 true
   /\ detect_fall (fun _ => 1300) (alert_at 1300) 5 0 (mkReported 0 0) resting
                  after_impact = Some after_stillness
   /\ In (SmsBody fall_text) (log after_stillness)
   /\ emergency after_stillness = fst (fall_alarm (alert_at 1300) (log after_impact))
   /\ (exists t, log after_stillness
                 = snd (fall_alarm (alert_at 1300) (log after_impact)) ++ t)
   /\ fallPending (fall after_stillness) = false)
  /\ (run [impact_slow_upload] (boot "A1B2" true) = Some after_slow_upload
      /\ fall after_slow_upload = mkFallState 120000 true
      /\ delayed (log after_slow_upload) = 2000
      /\ elapsed (fun _ => 122500) 5 0 after_slow_upload = 2500
      /\ detect_fall (fun _ => 122500) (alert_at 122500) 5 0 (mkReported 0 0) resting
                     after_slow_upload = Some after_late_stillness
      /\ In (SmsBody fall_text) (log after_late_stillness)
      /\ emergency after_late_stillness
         = fst (fall_alarm (alert_at 122500) (log after_slow_upload))
      /\ (exists t, log after_late_stillness
                    = snd (fall_alarm (alert_at 122500) (log after_slow_upload)) ++ t)
      /\ fallPending (fall after_late_stillness) = false).
Proof.
  split.
  - split; [vm_compute; reflexivity|].
    split; [vm_compute; reflexivity|].
    split; [vm_compute; reflexivity|].
    split; [vm_compute; tauto|].
    apply (proj1 (proj2 (proj2
      (C1_fall_detector (fun _ => 1300) (alert_at 1300) 5 0 (mkReported 0 0) resting
         after_impact after_stillness ltac:(vm_compute; reflexivity))))).
    + split; [vm_compute; reflexivity|vm_compute; discriminate].
    + vm_compute. reflexivity.
    + vm_compute. reflexivity.
  - split; [vm_compute; reflexivity|].
    split; [vm_compute; reflexivity|].
    split; [vm_compute; reflexivity|].
    split; [vm_compute; reflexivity|].
    split; [vm_compute; reflexivity|].
    split; [vm_compute; tauto|].
    apply (proj1 (proj2 (proj2
      (C1_fall_detector (fun _ => 122500) (alert_at 122500) 5 0 (mkReported 0 0) resting
         after_slow_upload after_late_stillness ltac:(vm_compute; reflexivity))))).
    + split; [vm_compute; reflexivity|vm_compute; discriminate].
    + vm_compute. reflexivity.
    + vm_compute. reflexivity.
Defined.

(** Stillness seen before the delay has passed does not count.  After the
    impact at 1000 ms the wearer is still at 1100 ms, inside the delay, and
    moving again (20 m/s^2) at 1300 ms, when the check is made: the
    candidate is discarded and no alarm is raised. *)
Example stillness_before_delay_ignored :
  exists d3,
    run [pass 1000 (pulse_in 100 false) 30 250;
         pass 1100 (pulse_in 100 false) 5 0;
         pass 1300 (pulse_in 100 false) 20 0] (boot "A1B2" true) = Some d3
    /\ fallPending (fall d3) = false
    /\ phase (emergency d3) = Some Idle
    /\ log d3 = [].
Proof.
  eexists. split; [vm_compute; reflexivity|].
  split; [vm_compute; reflexivity|]. split; vm_compute; reflexivity.
Qed.

(** A stillness check that runs late, over whole passes.  The impact
    pass at 120000 ms also makes the periodic upload, whose first two
    attempts fail, so that 2 s are spent in the retry delay of line 527.
    The next pass, at 122500 ms, finds the wearer still and raises the
    FALL alarm although more than one second has passed since the impact:
    the timeout test of lines 426-430 comes after the stillness check,
    which has already closed the candidate. *)
Example fall_confirmed_after_timeout :
  exists d2,
    run [impact_slow_upload; still_after_upload] (boot "A1B2" true) = Some d2
    /\ usub (clock still_after_upload 406) (clock impact_slow_upload 400) = 2500
    /\ phase (emergency d2) = Some Active
    /\ In (SmsBody fall_text) (log d2).
Proof.
  eexists. split; [vm_compute; reflexivity|].
  split; [vm_compute; reflexivity|].
  split; [vm_compute; reflexivity|]. vm_compute. tauto.
Qed.

(** ** The queue stays well formed *)

Lemma queueData_total (hr spo2 : Q) (m : Motion) (q : Queue) :
  queue_ok q -> exists q', queueData hr spo2 m q = Some q' /\ queue_ok q'.
Proof.
  intros Hok. destruct (queueData_fifo q (hr, spo2, m) Hok) as (q' & Hq & Hok' & _).
  exists q'. split; [exact Hq|exact Hok'].
Qed.

Lemma cloud_total (env : CloudEnv) (hr spo2 : Q) (m : Motion) (d : Device) :
  queue_ok (queue d) ->
  exists d', cloud env hr spo2 m d = Some d' /\ queue_ok (queue d').
Proof.
  intros Hok. unfold cloud, on_store, sendDataToCloud.
  destruct (upload _ _ _) as [l1 ok]. destruct ok.
  - eexists. split; [reflexivity|exact Hok].
  - destruct (queueData_total hr spo2 m (queue d) Hok) as (q' & Hq & Hok').
    rewrite Hq. eexists. split; [reflexivity|exact Hok'].
Qed.

Lemma on_alarm_queue (f : Emergency * Log -> Emergency * Log) (d : Device) :
  queue (on_alarm f d) = queue d.
Proof. unfold on_alarm. destruct (f (emergency d, log d)). reflexivity. Qed.

Lemma detect_fall_total (ck : Clock) (env : AlertEnv) (a g : Q) (r : Reported)
    (m : Motion) (d : Device) :
  queue_ok (queue d) ->
  exists d', detect_fall ck env a g r m d = Some d' /\ queue_ok (queue d').
Proof.
  intros Hok. unfold detect_fall. rewrite fall_impact_eq.
  unfold fall_confirm.
  destruct (_ && _).
  - destruct (Qltb a POST_FALL_STILLNESS_THRESH).
    + destruct (idle _).
      * match goal with
        | |- context [cloud ?e ?h ?s ?mm ?dd] =>
            destruct (cloud_total e h s mm dd) as (d1 & H1 & Hok1);
              [unfold trigger; rewrite on_alarm_queue; exact Hok|rewrite H1]
        end.
        eexists. split; [reflexivity|].
        destruct (fall_timeout_frame ck d1) as (_ & _ & Hq & _). rewrite Hq. exact Hok1.
      * eexists. split; [reflexivity|].
        match goal with
        | |- queue_ok (queue (fall_timeout ck ?dd)) =>
            destruct (fall_timeout_frame ck dd) as (_ & _ & Hq & _); rewrite Hq
        end. exact Hok.
    + eexists. split; [reflexivity|].
      match goal with
      | |- queue_ok (queue (fall_timeout ck ?dd)) =>
          destruct (fall_timeout_frame ck dd) as (_ & _ & Hq & _); rewrite Hq
      end. exact Hok.
  - eexists. split; [reflexivity|].
    match goal with
    | |- queue_ok (queue (fall_timeout ck ?dd)) =>
        destruct (fall_timeout_frame ck dd) as (_ & _ & Hq & _); rewrite Hq
    end. exact Hok.
Qed.

Lemma detect_vitals_total (env : AlertEnv) (f : bool) (r : Reported) (m : Motion)
    (d : Device) :
  queue_ok (queue d) ->
  exists d', detect_vitals env f r m d = Some d' /\ queue_ok (queue d').
Proof.
  intros Hok. unfold detect_vitals.
  destruct (_ && _); [|eexists; split; [reflexivity|exact Hok]].
  destruct (_ || _); [|eexists; split; [reflexivity|exact Hok]].
  destruct (idle d); [|eexists; split; [reflexivity|exact Hok]].
  apply cloud_total. unfold trigger. rewrite on_alarm_queue. exact Hok.
Qed.

Lemma escalate_queue (inp : LoopIn) (d d' : Device) :
  escalate inp d = Some d' -> queue d' = queue d.
Proof.
  unfold escalate. destruct (_ && _); [|intros [= <-]; reflexivity].
  destruct (handleEmergencyCalls _ _ _) as [[e l]|]; [|discriminate].
  intros [= <-]. reflexivity.
Qed.

Lemma triggerManualEmergency_queue (env : AlertEnv) (r : Reported) (m : Motion)
    (d : Device) :
  queue (triggerManualEmergency env r m d) = queue d.
Proof. unfold triggerManualEmergency, trigger. rewrite on_alarm_queue. reflexivity. Qed.

Lemma checkManualEmergencyTrigger_queue (ck : Clock) (inp : ManualIn)
    (r : Reported) (m : Motion) (d : Device) :
  queue (checkManualEmergencyTrigger ck inp r m d) = queue d.
Proof.
  unfold checkManualEmergencyTrigger.
  set (d1 := match serialCmd inp with Some _ => _ | None => _ end).
  assert (H1 : queue d1 = queue d).
  { unfold d1. destruct (serialCmd inp) as [c|]; [|reflexivity].
    destruct (is_char c "E" "e"); [apply triggerManualEmergency_queue|].
    destruct (is_char c "R" "r"); reflexivity. }
  destruct (buttonLow inp); [|exact H1].
  destruct (2000 <=? _); [|exact H1].
  simpl. rewrite triggerManualEmergency_queue. exact H1.
Qed.

Lemma check_wifi_queue_ok (inp : LoopIn) (d : Device) :
  queue_ok (queue d) -> queue_ok (queue (check_wifi inp d)).
Proof.
  intros Hok. unfold check_wifi.
  destruct (wlStatus inp); destruct (wifiConnected (net d)); try exact Hok;
    try (repeat branch; exact Hok).
  pose proof (uploadQueuedData_ok (deviceId d) (flushEnv inp) (queue d) (log d) Hok) as H.
  cbn [deviceId queue log set_net].
  destruct (uploadQueuedData _ _ _) as [q l]. exact H.
Qed.

(** A pass that comes to its end leaves the queue well formed. *)
Lemma loop_queue_ok (inp : LoopIn) (d d' : Device) :
  loop inp d = Some d' -> queue_ok (queue d) -> queue_ok (queue d').
Proof.
  intros H Hok. unfold loop in H.
  pose proof (check_wifi_queue_ok inp d Hok) as H1.
  destruct (read_vitals _ _ _) as [[v f] r].
  destruct (detect_fall_total (clock inp) (fallAlert inp) (accelMag inp) (gyroMag inp)
              r (motion inp) (set_vitals v (check_wifi inp d)) H1) as (d3 & E3 & H3).
  rewrite E3 in H. cbn [mbind option_bind] in H.
  destruct (detect_vitals_total (vitalsAlert inp) f r (motion inp) d3 H3) as (d4 & E4 & H4).
  rewrite E4 in H. cbn [mbind option_bind] in H.
  destruct (escalate inp d4) as [d5|] eqn:E5; [|discriminate].
  cbn [mbind option_bind] in H.
  pose proof (escalate_queue inp d4 d5 E5) as H5.
  unfold periodic_upload in H.
  destruct (DATA_INTERVAL <=? _).
  - match type of H with
    | cloud ?e ?h ?s ?mm ?dd = _ =>
        destruct (cloud_total e h s mm dd) as (d'' & E & Hq);
          [|rewrite E in H; injection H as <-; exact Hq]
    end.
    simpl. rewrite checkManualEmergencyTrigger_queue, on_alarm_queue, H5. exact H4.
  - injection H as <-.
    rewrite checkManualEmergencyTrigger_queue, on_alarm_queue, H5. exact H4.
Qed.

(** ** Where a pending candidate comes from *)

Lemma trigger_shape (env : TriggerEnv) (msg : SmsText) (d : Device) :
  exists e l, trigger env msg d = set_emergency e (set_log l d).
Proof.
  unfold trigger, on_alarm. destruct (triggerEmergency _ _ _ _) as [e l].
  exists e, l. reflexivity.
Qed.

Lemma cloud_shape (env : CloudEnv) (hr spo2 : Q) (m : Motion) (d d' : Device) :
  cloud env hr spo2 m d = Some d' -> exists q l, d' = set_queue q (set_log l d).
Proof.
  unfold cloud, on_store.
  destruct (sendDataToCloud _ _ _ _ _ _ _) as [[q l]|]; [|discriminate].
  intros [= <-]. exists q, l. reflexivity.
Qed.

Lemma detect_vitals_fall (env : AlertEnv) (f : bool) (r : Reported) (m : Motion)
    (d d' : Device) :
  detect_vitals env f r m d = Some d' -> fall d' = fall d.
Proof.
  unfold detect_vitals.
  destruct (_ && _); [|returned].
  destruct (_ || _); [|returned].
  destruct (idle d); [|returned].
  intros H. destruct (cloud_shape _ _ _ _ _ _ H) as (q & l & ->).
  destruct (trigger_shape (alertTrigger env) (vitals_text r) d) as (e & l0 & ->).
  reflexivity.
Qed.

Lemma escalate_fall (inp : LoopIn) (d d' : Device) :
  escalate inp d = Some d' -> fall d' = fall d.
Proof.
  unfold escalate.
  destruct (_ && _); [|returned].
  destruct (handleEmergencyCalls _ _ _) as [[e l]|]; [|discriminate].
  intros [= <-]. reflexivity.
Qed.

Lemma triggerManualEmergency_fall (env : AlertEnv) (r : Reported) (m : Motion)
    (d : Device) :
  fall (triggerManualEmergency env r m d) = fall d.
Proof. unfold triggerManualEmergency, trigger. rewrite on_alarm_fall. reflexivity. Qed.

Lemma checkManualEmergencyTrigger_fall (ck : Clock) (inp : ManualIn)
    (r : Reported) (m : Motion) (d : Device) :
  fall (checkManualEmergencyTrigger ck inp r m d) = fall d.
Proof.
  unfold checkManualEmergencyTrigger.
  set (d1 := match serialCmd inp with Some _ => _ | None => _ end).
  assert (H1 : fall d1 = fall d).
  { unfold d1. destruct (serialCmd inp) as [c|]; [|reflexivity].
    destruct (is_char c "E" "e"); [apply triggerManualEmergency_fall|].
    destruct (is_char c "R" "r"); reflexivity. }
  destruct (buttonLow inp); [|exact H1].
  destruct (2000 <=? _); [|exact H1].
  simpl. rewrite triggerManualEmergency_fall. exact H1.
Qed.

Lemma periodic_upload_fall (inp : LoopIn) (r : Reported) (d d' : Device) :
  periodic_upload inp r d = Some d' -> fall d' = fall d.
Proof.
  unfold periodic_upload.
  destruct (DATA_INTERVAL <=? _); [|returned].
  intros H. destruct (cloud_shape _ _ _ _ _ _ H) as (q & l & ->). reflexivity.
Qed.

Lemma check_wifi_fall (inp : LoopIn) (d : Device) :
  fall (check_wifi inp d) = fall d /\ emergency (check_wifi inp d) = emergency d.
Proof.
  split; [|apply check_wifi_emergency].
  unfold check_wifi.
  destruct (wlStatus inp); destruct (wifiConnected (net d));
    repeat first [ branch
                 | match goal with
                   | |- context [uploadQueuedData ?a ?b ?c] =>
                       destruct (uploadQueuedData a b c)
                   end ]; reflexivity.
Qed.

(** The candidate a pass leaves pending is the one it found or the one its
    own impact opened. *)
Lemma loop_pending (inp : LoopIn) (d d' : Device) :
  loop inp d = Some d' ->
  fallPending (fall d') = true ->
  fall d' = fall d \/ opens_candidate (fallDetectedTime (fall d')) inp.
Proof.
  unfold loop.
  destruct (check_wifi_fall inp d) as [Hwf Hwe].
  destruct (read_vitals _ _ _) as [[v f] r].
  set (d2 := set_vitals v (check_wifi inp d)).
  assert (Hf2 : fall d2 = fall d) by exact Hwf.
  destruct (detect_fall _ _ _ _ _ _ d2) as [d3|] eqn:E3; [|discriminate]. simpl.
  destruct (detect_vitals _ _ _ _ d3) as [d4|] eqn:E4; [|discriminate]. simpl.
  destruct (escalate _ d4) as [d5|] eqn:E5; [|discriminate]. simpl.
  intros H Hp.
  assert (Hf : fall d' = fall d3).
  { rewrite (periodic_upload_fall _ _ _ _ H), checkManualEmergencyTrigger_fall.
    rewrite on_alarm_fall, (escalate_fall _ _ _ E5).
    apply (detect_vitals_fall _ _ _ _ _ _ E4). }
  rewrite Hf in Hp |- *.
  pose proof (detect_fall_cases _ _ _ _ _ _ _ _ E3) as Hc. cbv zeta in Hc.
  destruct (fallPending _ && (FALL_CONFIRM_DELAY <=? _)).
  - destruct Hc as [Hclosed _]. congruence.
  - destruct Hc as (_ & _ & _ & Hfall).
    destruct (fallPending _ && (1000 <? _)).
    + rewrite Hfall in Hp. discriminate Hp.
    + rewrite Hfall, candidate_spec.
      destruct (impact (accelMag inp) (gyroMag inp)) eqn:Hi; cbn [andb].
      * destruct (negb (fallPending (fall d2)) && idle d2).
        -- right. split; [exact Hi|reflexivity].
        -- left. exact Hf2.
      * left. exact Hf2.
Qed.

Lemma run_pending (inps : list LoopIn) (d d' : Device) :
  run inps d = Some d' ->
  fallPending (fall d') = true ->
  fall d' = fall d \/ Exists (opens_candidate (fallDetectedTime (fall d'))) inps.
Proof.
  revert d. induction inps as [|inp rest IH]; intros d; simpl.
  - intros [= <-] _. left. reflexivity.
  - destruct (loop inp d) as [d1|] eqn:E; [|discriminate].
    intros Hrun Hp. destruct (IH d1 Hrun Hp) as [Hsame|Hlater].
    + rewrite Hsame in Hp |- *.
      destruct (loop_pending inp d d1 E Hp) as [H|H].
      * left. exact H.
      * right. apply Exists_cons_hd. exact H.
    + right. apply Exists_cons_tl. exact Hlater.
Qed.

(** In a run from boot, a pending candidate was opened by a pass of that
    run in which both magnitudes exceeded the impact thresholds, and it
    carries the time that pass read at line 400. *)
Lemma candidate_origin (inps : list LoopIn) (mac : string) (w : bool) (d : Device) :
  run inps (boot mac w) = Some d ->
  fallPending (fall d) = true ->
  Exists (opens_candidate (fallDetectedTime (fall d))) inps.
Proof.
  intros Hrun Hp. destruct (run_pending inps _ d Hrun Hp) as [Hsame|H]; [|exact H].
  rewrite Hsame in Hp. discriminate Hp.
Qed.

(** ** The vitals scenario *)

(** A heart rate of 155 with four valid beats: the alarm is raised with
    the vitals text, one SMS is sent, and the first call is placed in the
    same pass. *)
Example racing_heart_alarm :
  exists d,
    run racing_heart (boot "A1B2" true) = Some d
    /\ valid_entries (beats (vitals d)) = [155; 155; 155; 155]
    /\ phase (emergency d) = Some Active
    /\ sms_count (log d) = 1%nat
    /\ In (SmsBody (vitals_text (mkReported 0 155))) (log d)
    /\ In (Atd EMERGENCY_PHONE) (log d)
    /\ lastCallTime (emergency d) = 1548.
Proof.
  eexists. split; [vm_compute; reflexivity|].
  split; [vm_compute; reflexivity|]. split; [vm_compute; reflexivity|].
  split; [vm_compute; reflexivity|]. split; [vm_compute; tauto|].
  split; [vm_compute; tauto|]. vm_compute. reflexivity.
Qed.

(** * Further properties of the firmware *)

(** ** The cached vitals are absent or plausible *)

Lemma store_beat_hr (b : BeatHistory) (w : Spo2Window) (s hr0 : Q) (f : bool) :
  beats_ok (mkVitals b w s hr0 f) ->
  (40 <= beatsPerMinute b)%Q -> (beatsPerMinute b <= 180)%Q ->
  (40 <= snd (store_beat b) <= 180)%Q.
Proof.
  intros Hok Hlo Hhi.
  pose proof (store_beat_ok b w s hr0 f Hok Hlo Hhi) as Hok'.
  apply (ok_hr _ Hok'). simpl.
  destruct (validBeatCount b <? RATE_SIZE) eqn:E;
    pose proof (ok_count _ Hok) as Hc; simpl in Hc; unfold RATE_SIZE in *.
  - lia.
  - apply Z.ltb_ge in E. lia.
Qed.

Lemma detect_beat_cached (ck : Clock) (inp : PulseIn) (finger : bool) (v : Vitals) :
  beats_ok v -> cached_ok v -> cached_ok (detect_beat ck inp finger v).
Proof.
  intros Hok [Hhr Hsp]. unfold detect_beat.
  destruct (finger && beatSeen inp); [|split; assumption].
  set (bpm := Qdiv 60 _).
  set (b1 := mkBeatHistory _ _ _ bpm _ _).
  assert (Hok1 : beats_ok (mkVitals b1 (window v) (lastValidSpO2 v)
                                    (lastValidHR v) (wasFingerDetected v))).
  { apply (beats_ok_ext v); try reflexivity; [|exact Hok]. apply (ok_hr v Hok). }
  destruct (Qleb 40 bpm && Qleb bpm 180) eqn:Hrange; [|split; assumption].
  apply andb_true_iff in Hrange. destruct Hrange as [Hlo Hhi].
  apply Qleb_le in Hlo. apply Qleb_le in Hhi.
  pose proof (store_beat_hr b1 _ _ _ _ Hok1 Hlo Hhi) as Hstore.
  destruct (store_beat b1) as [b2 hr]. split; [right; exact Hstore|exact Hsp].
Qed.

Lemma accept_estimate_cached (e : Estimate) (v : Vitals) :
  cached_ok v -> cached_ok (accept_estimate e v).
Proof.
  intros [Hhr Hsp]. split; simpl.
  - destruct (negb (validHeartRate e =? 0) && (40 <=? heartRateValue e)
              && (heartRateValue e <=? 180) && (validBeatCount (beats v) <? 4)) eqn:E;
      [|exact Hhr].
    repeat (apply andb_true_iff in E; destruct E as [E ?]).
    right. unfold float_of_int, Qle. simpl. lia.
  - destruct (negb (validSPO2 e =? 0) && (70 <=? spo2Value e)
              && (spo2Value e <=? 100)) eqn:E; [|exact Hsp].
    repeat (apply andb_true_iff in E; destruct E as [E ?]).
    right. unfold float_of_int, Qle. simpl. lia.
Qed.

Lemma collect_spo2_cached (ck : Clock) (inp : PulseIn) (finger : bool) (v : Vitals) :
  cached_ok v -> cached_ok (collect_spo2 ck inp finger v).
Proof.
  intros Hok. unfold collect_spo2, store_sample. cbv beta iota zeta.
  repeat match goal with
         | |- cached_ok (if ?c then _ else _) => destruct c
         | |- cached_ok (accept_estimate _ _) => apply accept_estimate_cached
         end; exact Hok.
Qed.

Lemma read_vitals_cached (ck : Clock) (inp : PulseIn) (v : Vitals) :
  beats_ok v -> cached_ok v -> cached_ok (fst (fst (read_vitals ck inp v))).
Proof.
  intros Hok Hc. unfold read_vitals. simpl.
  apply collect_spo2_cached.
  set (v1 := if negb (50000 <? irValue inp) && wasFingerDetected v
             then reset_readings v else v).
  assert (Hok1 : beats_ok v1)
    by (unfold v1; destruct (negb (50000 <? irValue inp) && wasFingerDetected v);
        [apply reset_readings_ok|exact Hok]).
  assert (Hc1 : cached_ok v1).
  { unfold v1. destruct (negb (50000 <? irValue inp) && wasFingerDetected v);
      [split; left; reflexivity|exact Hc]. }
  apply detect_beat_cached.
  - apply (beats_ok_ext v1); try reflexivity; [|exact Hok1]. apply (ok_hr v1 Hok1).
  - exact Hc1.
Qed.

Lemma run_cached (inps : list LoopIn) (d d' : Device) :
  run inps d = Some d' ->
  beats_ok (vitals d) -> cached_ok (vitals d) ->
  beats_ok (vitals d') /\ cached_ok (vitals d').
Proof.
  revert d. induction inps as [|inp rest IH]; intros d; simpl.
  - intros [= <-]. auto.
  - destruct (loop inp d) as [d1|] eqn:E; [|discriminate].
    intros H Hok Hc. apply (IH d1 H).
    + exact (loop_beats_ok _ _ _ E Hok).
    + rewrite (loop_vitals _ _ _ E). apply read_vitals_cached; assumption.
Qed.

(** What a pass reports is the cached value or 0. *)
Lemma reported_cases (ck : Clock) (p : PulseIn) (v : Vitals) :
  let v' := fst (fst (read_vitals ck p v)) in
  let r := snd (read_vitals ck p v) in
  (currentHR r = lastValidHR v' \/ currentHR r = 0%Q)
  /\ (currentSpO2 r = lastValidSpO2 v' \/ currentSpO2 r = 0%Q).
Proof.
  unfold read_vitals. simpl. destruct (50000 <? irValue p); auto.
Qed.

Lemma reported_in_bands (inps : list LoopIn) (mac : string) (w : bool)
    (d : Device) (inp : LoopIn) :
  run inps (boot mac w) = Some d ->
  hr_plausible (currentHR (reported inp d))
  /\ spo2_plausible (currentSpO2 (reported inp d)).
Proof.
  intros Hrun.
  destruct (run_cached inps _ d Hrun boot_vitals_ok) as [Hok Hc];
    [split; left; reflexivity|].
  destruct (read_vitals_cached (clock inp) (pulse inp) (vitals d) Hok Hc) as [Hhr Hsp].
  destruct (reported_cases (clock inp) (pulse inp) (vitals d)) as [[Eh|Eh] [Es|Es]];
    unfold reported; rewrite Eh, Es; split;
    first [exact Hhr | exact Hsp | left; reflexivity].
Qed.

(** In every pass of every run from boot, the heart rate the pass works
    with (and uploads) is 0 or lies in [40, 180], and the SpO2 is 0 or lies
    in [70, 100]; the same holds of the two cached values. *)
Theorem reported_vitals_plausible (inps : list LoopIn) (mac : string) (w : bool)
    (d : Device) (inp : LoopIn) :
  run inps (boot mac w) = Some d ->
  hr_plausible (currentHR (reported inp d))
  /\ spo2_plausible (currentSpO2 (reported inp d))
  /\ cached_ok (vitals d).
Proof.
  intros Hrun.
  destruct (reported_in_bands inps mac w d inp Hrun) as [Hhr Hsp].
  split; [exact Hhr|]. split; [exact Hsp|].
  apply (run_cached inps (boot mac w) d Hrun boot_vitals_ok).
  split; left; reflexivity.
Qed.

Lemma reported_vitals_plausible_witness :
  exists d,
    run three_beats (boot "A1B2" true) = Some d
    /\ currentHR (reported fourth_beat d) = 155%Q
    /\ hr_plausible (currentHR (reported fourth_beat d)).
Proof.
  eexists. split; [vm_compute; reflexivity|]. split; [vm_compute; reflexivity|].
  refine (proj1 (reported_vitals_plausible three_beats "A1B2" true _ fourth_beat _)).
  vm_compute. reflexivity.
Defined.

(** ** The low heart rate test never fires *)

(** In every pass of every run from boot the low heart rate test of the
    classifier (a rate above 0 and below [HR_LOW_THRESH] = 40) is false:
    rates below 40 are never accepted into the cached value.  The
    classifier therefore decides by the high heart rate test and the SpO2
    test alone, and the SpO2 test fires exactly on a cached SpO2 from 70 up
    to, not including, 90. *)
Theorem low_heart_rate_never_alarms (inps : list LoopIn) (mac : string) (w : bool)
    (d : Device) (inp : LoopIn) :
  run inps (boot mac w) = Some d ->
  let r := reported inp d in
  hr_low r = false
  /\ (hr_high r || hr_low r || spo2_low r = hr_high r || spo2_low r)
  /\ (spo2_low r = true <-> (70 <= currentSpO2 r < 90)%Q).
Proof.
  intros Hrun r.
  destruct (reported_in_bands inps mac w d inp Hrun) as (Hhr & Hsp).
  fold r in Hhr, Hsp.
  assert (Hlow : hr_low r = false).
  { unfold hr_low. destruct Hhr as [-> |[Hlo _]]; [reflexivity|].
    apply andb_false_iff. right.
    destruct (Qltb (currentHR r) HR_LOW_THRESH) eqn:E; [|reflexivity].
    apply Qltb_lt in E. unfold HR_LOW_THRESH in E.
    exfalso. exact (Qlt_not_le _ _ E Hlo). }
  split; [exact Hlow|]. split; [rewrite Hlow, orb_false_r; reflexivity|].
  unfold spo2_low, SPO2_LOW_THRESH. rewrite andb_true_iff, !Qltb_lt.
  split.
  - intros [Hpos Hlt]. split; [|exact Hlt].
    destruct Hsp as [E|[Hlo _]]; [|exact Hlo].
    rewrite E in Hpos. exfalso. exact (Qlt_irrefl _ Hpos).
  - intros [Hlo Hlt]. split; [|exact Hlt].
    eapply Qlt_le_trans; [|exact Hlo]. reflexivity.
Qed.

Lemma low_heart_rate_never_alarms_witness :
  exists d,
    run three_beats (boot "A1B2" true) = Some d
    /\ hr_high (reported fourth_beat d) = true
    /\ hr_low (reported fourth_beat d) = false.
Proof.
  eexists. split; [vm_compute; reflexivity|]. split; [vm_compute; reflexivity|].
  refine (proj1 (low_heart_rate_never_alarms three_beats "A1B2" true _ fourth_beat _)).
  vm_compute. reflexivity.
Defined.

(** ** Handled suppresses the automatic alarms *)

Lemma dial_count_app (l k : Log) : dial_count (l ++ k) = (dial_count l + dial_count k)%nat.
Proof. unfold dial_count. rewrite List.filter_app, length_app. reflexivity. Qed.

(** An upload appends its trace, and its result does not depend on the
    log. *)
Lemma upload_app (env : UploadEnv) (payload : JsonDoc) (l : Log) :
  upload env payload l = (l ++ upload_trace env payload, delivered env payload).
Proof.
  unfold upload_trace, delivered, upload.
  destruct (wifiStatus env).
  - rewrite !sendDataViaWiFi_app.
    destruct (wifi_result (wifi env) payload); simpl; [reflexivity|].
    destruct (gsm env) as [|ok]; simpl; [reflexivity|].
    rewrite <- app_assoc. reflexivity.
  - destruct (gsm env) as [|ok]; simpl; [rewrite app_nil_r|]; reflexivity.
Qed.

(** An upload neither sends an SMS nor dials. *)
Lemma upload_trace_silent (env : UploadEnv) (payload : JsonDoc) :
  sms_count (upload_trace env payload) = 0%nat
  /\ dial_count (upload_trace env payload) = 0%nat.
Proof.
  unfold upload_trace, upload.
  destruct (wifiStatus env).
  - rewrite sendDataViaWiFi_app. simpl.
    destruct (wifi_cases (wifi env) payload)
      as [(_ & Ht & Hr)|[(_ & _ & Ht & Hr)|[(_ & _ & _ & Ht & Hr)
         |[(_ & _ & _ & _ & Ht & Hr)|(_ & _ & _ & _ & Ht & Hr)]]]];
      rewrite Ht, Hr; try (split; reflexivity);
      destruct (gsm env); split; reflexivity.
  - destruct (gsm env); split; reflexivity.
Qed.








(** ** The manual trigger *)

Lemma sendEmergencyDataToCloud_app (id : string) (env : UploadEnv) (now : Z)
    (hr spo2 : Q) (m : Motion) (l : Log) :
  sendEmergencyDataToCloud id env now hr spo2 m l
  = l ++ upload_trace env (emergency_doc id now hr spo2 m).
Proof. unfold sendEmergencyDataToCloud. rewrite upload_app. reflexivity. Qed.

Lemma manual_trigger_log (env : AlertEnv) (r : Reported) (m : Motion) (d : Device) :
  let d' := triggerManualEmergency env r m d in
  emergency d'
  = mkEmergency true false (usub (triggerClock (alertTrigger env)) CALL_INTERVAL)
  /\ log d'
     = fst (sendSMS (smsReply (alertTrigger env)) EMERGENCY_PHONE (manual_text r)
              (log d ++ upload_trace (network (alertCloud env))
                          (manual_doc (deviceId d) (cloudClock (alertCloud env)) r m))).
Proof.
  intros d'. unfold d', triggerManualEmergency.
  set (d1 := set_emergency _ d).
  set (d2 := set_log _ d1).
  assert (Hidle : idle d2 = true) by reflexivity.
  destruct (trigger_idle (alertTrigger env)
              (WithVitals "MANUAL EMERGENCY TEST! HR: "
                 (if Qltb 0 (currentHR r) then currentHR r else 75%Q)
                 (if Qltb 0 (currentSpO2 r) then currentSpO2 r else 98%Q)) d2 Hidle)
    as [He Hl].
  split; [exact He|].
  assert (Hlog2 : log d2 = log d ++ upload_trace (network (alertCloud env))
                    (manual_doc (deviceId d) (cloudClock (alertCloud env)) r m)).
  { unfold d2, d1. simpl. apply sendEmergencyDataToCloud_app. }
  rewrite Hl, Hlog2. reflexivity.
Qed.

(** The manual trigger works from every state: it ends Active with the
    first call due at once, uploads one emergency document (the cached
    readings, or 75 and 98 where there is none) without ever queueing it,
    and then starts exactly one SMS carrying the same values. *)
Theorem manual_trigger_overrides (env : AlertEnv) (r : Reported) (m : Motion)
    (d : Device) :
  let d' := triggerManualEmergency env r m d in
  emergency d'
  = mkEmergency true false (usub (triggerClock (alertTrigger env)) CALL_INTERVAL)
  /\ log d'
     = fst (sendSMS (smsReply (alertTrigger env)) EMERGENCY_PHONE (manual_text r)
              (log d ++ upload_trace (network (alertCloud env))
                          (manual_doc (deviceId d) (cloudClock (alertCloud env)) r m)))
  /\ sms_count (log d') = S (sms_count (log d))
  /\ dial_count (log d') = dial_count (log d)
  /\ queue d' = queue d /\ vitals d' = vitals d /\ fall d' = fall d.
Proof.
  intros d'. destruct (manual_trigger_log env r m d) as [He Hl]. fold d' in He, Hl.
  split; [exact He|]. split; [exact Hl|].
  destruct (upload_trace_silent (network (alertCloud env))
              (manual_doc (deviceId d) (cloudClock (alertCloud env)) r m)) as [Us Ud].
  split.
  { rewrite Hl, sendSMS_count, sms_count_app, Us. lia. }
  split.
  { rewrite Hl.
    destruct (smsReply (alertTrigger env)); simpl;
      rewrite !dial_count_app, Ud; unfold dial_count; simpl; lia. }
  unfold d', triggerManualEmergency, trigger.
  rewrite on_alarm_queue, on_alarm_vitals, on_alarm_fall.
  repeat split.
Qed.

(** The console commands, the button not being pressed: E or e runs the
    manual trigger, R or r returns to Idle without writing anything, and
    every other character changes nothing. *)
Theorem console_commands (ck : Clock) (inp : ManualIn) (r : Reported) (m : Motion)
    (d : Device) :
  buttonLow inp = false ->
  let d' := checkManualEmergencyTrigger ck inp r m d in
  buttonPressed (button d') = false
  /\ (console_is inp "E" "e" = true ->
      phase (emergency d') = Some Active
      /\ sms_count (log d') = S (sms_count (log d)))
  /\ (console_is inp "E" "e" = false -> console_is inp "R" "r" = true ->
      phase (emergency d') = Some Idle /\ log d' = log d)
  /\ (console_is inp "E" "e" = false -> console_is inp "R" "r" = false ->
      emergency d' = emergency d /\ log d' = log d).
Proof.
  intros Hb d'. unfold d', checkManualEmergencyTrigger, console_is. rewrite Hb.
  split; [reflexivity|].
  destruct (serialCmd inp) as [c|].
  - destruct (is_char c "E" "e").
    + split; [|split; discriminate]. intros _. simpl.
      destruct (manual_trigger_log (serialAlert inp) r m d) as [He Hl].
      split; [rewrite He; reflexivity|].
      destruct (upload_trace_silent (network (alertCloud (serialAlert inp)))
                  (manual_doc (deviceId d) (cloudClock (alertCloud (serialAlert inp))) r m))
        as [Us _].
      rewrite Hl, sendSMS_count, sms_count_app, Us. lia.
    + split; [discriminate|]. destruct (is_char c "R" "r").
      * split; [|discriminate]. intros _ _. split; reflexivity.
      * split; [discriminate|]. intros _ _. split; reflexivity.
  - split; [discriminate|]. split; [discriminate|]. intros _ _. split; reflexivity.
Qed.

Lemma console_commands_witness :
  phase (emergency acknowledged) = Some Handled
  /\ phase (emergency (checkManualEmergencyTrigger (at_time 4000) (manual_E 4000)
                         (mkReported 0 0) resting acknowledged)) = Some Active
  /\ sms_count (log (checkManualEmergencyTrigger (at_time 4000) (manual_E 4000)
                       (mkReported 0 0) resting acknowledged))
     = S (sms_count (log acknowledged)).
Proof.
  split; [vm_compute; reflexivity|].
  apply (proj1 (proj2 (console_commands (at_time 4000) (manual_E 4000)
                         (mkReported 0 0) resting acknowledged eq_refl))).
  vm_compute. reflexivity.
Defined.

(** ** Call scheduling *)

Lemma u32_range (z : Z) : 0 <= u32 z < two32.
Proof. unfold u32, two32. apply Z.mod_pos_bound. reflexivity. Qed.

(** Time since a moment that was moved back by [k]: the wrapped
    difference grows by [k]. *)
Lemma usub_back (t now k : Z) : usub t (usub now k) = u32 (usub t now + k).
Proof.
  unfold usub, u32.
  rewrite Zminus_mod_idemp_r, Zplus_mod_idemp_l. f_equal. lia.
Qed.

Lemma first_call_due (t now : Z) :
  (CALL_INTERVAL <=? usub t (usub now CALL_INTERVAL))
  = (usub t now <? two32 - CALL_INTERVAL).
Proof.
  rewrite usub_back. pose proof (u32_range (t - now)) as Hr.
  fold (usub t now) in Hr. unfold CALL_INTERVAL, two32 in *.
  destruct (Z.ltb_spec (usub t now) (2 ^ 32 - 30000)) as [Hlt|Hge].
  - unfold u32, two32. rewrite Z.mod_small by lia. apply Z.leb_le. lia.
  - unfold u32, two32.
    replace (usub t now + 30000) with ((usub t now + 30000 - 2 ^ 32) + 1 * 2 ^ 32) by lia.
    rewrite Z.mod_add by lia. rewrite Z.mod_small by lia. apply Z.leb_gt. lia.
Qed.

Lemma checkForIncomingSMS_cases (inp : SerialIn) (e : Emergency) (l : Log) :
  exists e' t,
    checkForIncomingSMS inp (e, l) = (e', l ++ t)
    /\ dial_count t = 0%nat
    /\ lastCallTime e' = lastCallTime e
    /\ (e' = e
        \/ (emergencyActive e' = false /\ emergencyHandled e' = true)
        \/ (emergencyActive e' = true /\ emergencyHandled e' = false)).
Proof.
  unfold checkForIncomingSMS.
  destruct (rx inp) as [data|];
    [|exists e, []; rewrite app_nil_r; auto].
  destruct (contains data "+CMTI:");
    [|exists e, []; rewrite app_nil_r; auto].
  destruct (contains (cmgrReply inp) "OK" || contains (cmgrReply inp) "ok").
  - destruct (ackReply inp); simpl; eexists; eexists;
      (split; [rewrite <- !app_assoc; reflexivity|]);
      (split; [reflexivity|]); (split; [reflexivity|]); auto.
  - destruct (contains (cmgrReply inp) "Resume" || contains (cmgrReply inp) "resume").
    + destruct (ackReply inp); simpl; eexists; eexists;
        (split; [rewrite <- !app_assoc; reflexivity|]);
        (split; [reflexivity|]); (split; [reflexivity|]); auto.
    + eexists. eexists. split; [rewrite <- app_assoc; reflexivity|].
      split; [reflexivity|]. split; [reflexivity|]. auto.
Qed.

Lemma monitor_call_shape (callStart : Z) (polls : list Poll) (e : Emergency) (l : Log)
    (x : MonitorExit) (e' : Emergency) (l' : Log) (rest : list Poll) :
  monitor_call callStart polls (e, l) = Some (x, (e', l'), rest) ->
  emergencyActive e = true -> emergencyHandled e = false ->
  exists mid,
    l' = l ++ mid /\ dial_count mid = 0%nat
    /\ lastCallTime e' = lastCallTime e
    /\ match x with
       | TimedOut => emergencyActive e' = true /\ emergencyHandled e' = false
       | _ => emergencyActive e' = false /\ emergencyHandled e' = true
              /\ exists m0, mid = m0 ++ [Ath]
       end.
Proof.
  revert e l. induction polls as [|p ps IH]; intros e l; [discriminate|].
  rewrite monitor_call_cons.
  destruct (usub (pollClock p) callStart <? 25000).
  - destruct (checkForIncomingSMS_cases (pollSerial p) e l) as (e1 & t & Hc & Hd & Ht & Hs).
    rewrite Hc.
    destruct (emergencyHandled e1) eqn:Hh.
    + intros [= <- <- <- <-] Ha Hn.
      exists (t ++ [Ath]). rewrite app_assoc, dial_count_app, Hd.
      split; [reflexivity|]. split; [reflexivity|]. split; [exact Ht|].
      destruct Hs as [->|[[Hx Hy]|[Hx Hy]]]; [congruence| |congruence].
      split; [exact Hx|]. split; [exact Hh|]. exists t. reflexivity.
    + intros Hm Ha Hn.
      assert (Ha1 : emergencyActive e1 = true)
        by (destruct Hs as [->|[[Hx Hy]|[Hx Hy]]]; congruence).
      destruct (clccReply p) as [resp|];
        [destruct (contains resp "+CLCC: 1,0,0,0,0")|].
      * injection Hm as <- <- <- <-.
        exists (t ++ [AtClcc; Delay 500] ++ [Ath]).
        rewrite <- !app_assoc, !dial_count_app, Hd.
        split; [reflexivity|]. split; [reflexivity|]. split; [exact Ht|].
        split; [reflexivity|]. split; [reflexivity|].
        exists (t ++ [AtClcc; Delay 500]). rewrite <- app_assoc. reflexivity.
      * destruct (IH _ _ Hm Ha1 Hh) as (mid & Hl & Hdm & Htm & Hx).
        exists (t ++ [AtClcc; Delay 500] ++ mid).
        rewrite Hl, <- !app_assoc, !dial_count_app, Hd, Hdm.
        split; [reflexivity|]. split; [reflexivity|]. split; [congruence|].
        destruct x; try exact Hx;
          destruct Hx as (Hx & Hy & m0 & ->); (split; [exact Hx|]);
          (split; [exact Hy|]); exists (t ++ [AtClcc; Delay 500] ++ m0);
          rewrite <- !app_assoc; reflexivity.
      * destruct (IH _ _ Hm Ha1 Hh) as (mid & Hl & Hdm & Htm & Hx).
        exists (t ++ [AtClcc; Delay 500] ++ mid).
        rewrite Hl, <- !app_assoc, !dial_count_app, Hd, Hdm.
        split; [reflexivity|]. split; [reflexivity|]. split; [congruence|].
        destruct x; try exact Hx;
          destruct Hx as (Hx & Hy & m0 & ->); (split; [exact Hx|]);
          (split; [exact Hy|]); exists (t ++ [AtClcc; Delay 500] ++ m0);
          rewrite <- !app_assoc; reflexivity.
  - intros [= <- <- <- <-] Ha Hn. exists []. rewrite app_nil_r. auto.
Qed.

Lemma handler_dial_trace (ck : Clock) (polls : list Poll) (e e' : Emergency)
    (l l' : Log) :
  handleEmergencyCalls ck polls (e, l) = Some (e', l') ->
  if call_due ck e then
    exists mid, l' = l ++ Atd EMERGENCY_PHONE :: mid ++ [Ath] /\ dial_count mid = 0%nat
  else e' = e /\ l' = l.
Proof.
  unfold handleEmergencyCalls, call_due.
  destruct (emergencyActive e) eqn:Ha; simpl; [|intros [= <- <-]; auto].
  destruct (emergencyHandled e) eqn:Hh; simpl; [intros [= <- <-]; auto|].
  destruct (CALL_INTERVAL <=? _); [|intros [= <- <-]; auto].
  destruct (monitor_call _ _ _) as [[[x [e2 l2]] rest]|] eqn:Hm; [|discriminate].
  destruct (monitor_call_shape _ _ _ _ _ _ _ _ Hm eq_refl eq_refl)
    as (mid & Hl & Hd & _ & Hx).
  destruct x.
  - intros [= <- <-]. destruct Hx as (_ & _ & m0 & ->).
    exists m0. rewrite Hl, <- app_assoc. simpl.
    rewrite dial_count_app in Hd. split; [reflexivity|lia].
  - intros [= <- <-]. destruct Hx as (_ & _ & m0 & ->).
    exists m0. rewrite Hl, <- app_assoc. simpl.
    rewrite dial_count_app in Hd. split; [reflexivity|lia].
  - destruct Hx as [Hx Hy]. rewrite Hx, Hy. simpl.
    intros [= <- <-]. exists mid. rewrite Hl, <- !app_assoc. simpl.
    split; [reflexivity|exact Hd].
Qed.

(** One invocation of the call handler either does nothing (not Active,
    already Handled, or less than [CALL_INTERVAL] since the last call) or
    dials exactly one call, records its time, and hangs up before it
    returns, whether the call was answered, cancelled by an
    acknowledgment, or given up; it returns Handled or still Active. *)
Theorem call_attempts (ck : Clock) (polls : list Poll) (e e' : Emergency)
    (l l' : Log) :
  handleEmergencyCalls ck polls (e, l) = Some (e', l') ->
  if call_due ck e then
    exists mid,
      l' = l ++ Atd EMERGENCY_PHONE :: mid ++ [Ath]
      /\ dial_count mid = 0%nat
      /\ lastCallTime e' = u32 (ck 900)
      /\ (phase e' = Some Active \/ phase e' = Some Handled)
  else e' = e /\ l' = l.
Proof.
  unfold handleEmergencyCalls, call_due.
  destruct (emergencyActive e) eqn:Ha; simpl; [|intros [= <- <-]; auto].
  destruct (emergencyHandled e) eqn:Hh; simpl; [intros [= <- <-]; auto|].
  destruct (CALL_INTERVAL <=? _); [|intros [= <- <-]; auto].
  destruct (monitor_call _ _ _) as [[[x [e2 l2]] rest]|] eqn:Hm; [|discriminate].
  destruct (monitor_call_shape _ _ _ _ _ _ _ _ Hm eq_refl eq_refl)
    as (mid & Hl & Hd & Ht & Hx).
  simpl in Ht.
  destruct x.
  - intros [= <- <-]. destruct Hx as (Hx & Hy & m0 & ->).
    exists m0. rewrite Hl, <- app_assoc. simpl.
    rewrite dial_count_app in Hd. split; [reflexivity|]. split; [lia|].
    split; [exact Ht|]. right. unfold phase. rewrite Hx, Hy. reflexivity.
  - intros [= <- <-]. destruct Hx as (Hx & Hy & m0 & ->).
    exists m0. rewrite Hl, <- app_assoc. simpl.
    rewrite dial_count_app in Hd. split; [reflexivity|]. split; [lia|].
    split; [exact Ht|]. right. unfold phase. rewrite Hx, Hy. reflexivity.
  - destruct Hx as [Hx Hy]. rewrite Hx, Hy. simpl.
    intros [= <- <-]. exists mid. rewrite Hl, <- !app_assoc. simpl.
    split; [reflexivity|]. split; [exact Hd|]. split; [exact Ht|].
    left. unfold phase. rewrite Hx, Hy. reflexivity.
Qed.

Lemma call_attempts_witness :
  exists e' mid,
    handleEmergencyCalls (at_time 1300) (unanswered 1300) just_alarmed
    = Some (e', snd just_alarmed ++ Atd EMERGENCY_PHONE :: mid ++ [Ath])
    /\ phase e' = Some Active /\ lastCallTime e' = 1300.
Proof.
  pose proof (call_attempts (at_time 1300) (unanswered 1300) (fst just_alarmed)
                (mkEmergency true false 1300)
                (snd just_alarmed)
                (snd just_alarmed
                 ++ [Atd EMERGENCY_PHONE; AtClcc; Delay 500; Ath])
                ltac:(vm_compute; reflexivity)) as H.
  change (call_due (at_time 1300) (fst just_alarmed)) with true in H.
  destruct H as (mid & Hl & _).
  exists (mkEmergency true false 1300), mid.
  split; [rewrite <- Hl; vm_compute; reflexivity|]. split; reflexivity.
Defined.

(** After an alarm raised at time [now], the first invocation of the call
    handler dials at once, also when the alarm comes within the first 30 s
    after boot or across a wrap of the millisecond counter: it dials
    exactly when the wrapped time since the alarm is below
    2^32 - [CALL_INTERVAL], and otherwise leaves everything as it was. *)
Theorem first_call_immediate (reply : SmsReply) (now : Z) (msg : SmsText)
    (ck : Clock) (polls : list Poll) (e e' : Emergency) (l l' : Log) :
  emergencyActive e || emergencyHandled e = false ->
  let st := triggerEmergency reply now msg (e, l) in
  handleEmergencyCalls ck polls st = Some (e', l') ->
  (usub (ck 899) now < two32 - CALL_INTERVAL ->
   dial_count l' = S (dial_count l) /\ exists l0, l' = l0 ++ [Ath])
  /\ (two32 - CALL_INTERVAL <= usub (ck 899) now -> (e', l') = st).
Proof.
  intros Hidle st Hcall. unfold st in *.
  rewrite (triggerEmergency_idle _ _ _ _ _ Hidle) in Hcall |- *.
  pose proof (handler_dial_trace _ _ _ _ _ _ Hcall) as H.
  unfold call_due in H. simpl in H. rewrite first_call_due in H.
  assert (Hdial : dial_count (fst (sendSMS reply EMERGENCY_PHONE msg l)) = dial_count l)
    by (destruct reply; simpl; rewrite dial_count_app; unfold dial_count; simpl; lia).
  split.
  - intros Hlt. apply Z.ltb_lt in Hlt. rewrite Hlt in H.
    destruct H as (mid & Hl & Hd). split.
    + rewrite Hl, dial_count_app. change (Atd EMERGENCY_PHONE :: mid ++ [Ath])
        with ([Atd EMERGENCY_PHONE] ++ mid ++ [Ath]).
      rewrite !dial_count_app, Hd, Hdial. unfold dial_count. simpl. lia.
    + exists (fst (sendSMS reply EMERGENCY_PHONE msg l) ++ Atd EMERGENCY_PHONE :: mid).
      rewrite Hl, <- app_assoc. reflexivity.
  - intros Hge. apply Z.ltb_ge in Hge. rewrite Hge in H.
    destruct H as [-> ->]. reflexivity.
Qed.

(** An alarm 5 ms after boot, the handler 10 ms later: the call is
    dialled although the counter is far below [CALL_INTERVAL]. *)
Lemma first_call_immediate_witness :
  exists e' l',
    handleEmergencyCalls (at_time 15) (unanswered 15)
      (triggerEmergency Confirmed 5 fall_text (boot_emergency, [])) = Some (e', l')
    /\ dial_count l' = 1%nat.
Proof.
  eexists. eexists. split; [vm_compute; reflexivity|].
  refine (proj1 (proj1 (first_call_immediate Confirmed 5 fall_text (at_time 15)
                          (unanswered 15) boot_emergency _ [] _ eq_refl _) _)).
  - vm_compute. reflexivity.
  - vm_compute. reflexivity.
Defined.

(** ** Inbound messages decide the state at the end of the pass *)

Lemma checkForIncomingSMS_resume (inp : SerialIn) (e : Emergency) (l : Log) :
  is_resume inp = true ->
  exists l',
    checkForIncomingSMS inp (e, l) = (mkEmergency true false (lastCallTime e), l').
Proof.
  unfold is_resume, checkForIncomingSMS.
  destruct (rx inp) as [data|]; [|discriminate].
  intros H. apply andb_true_iff in H. destruct H as [H H3].
  apply andb_true_iff in H. destruct H as [H1 H2]. apply negb_true_iff in H2.
  rewrite H1, H2, H3. eexists. reflexivity.
Qed.

(** A stored message read at line 456 decides how the pass ends, whatever
    the state before and whatever the detectors and the call handler did
    earlier in the pass (no console command, button not pressed): with the
    acknowledgment keyword the device ends Handled, also when it was Idle;
    with the resume keyword and no acknowledgment keyword it ends Active,
    also when it was Idle or Handled. *)
Theorem message_decides_pass (inp : LoopIn) (d d' : Device) :
  loop inp d = Some d' ->
  serialCmd (manual inp) = None -> buttonLow (manual inp) = false ->
  (is_ack (serial inp) = true -> phase (emergency d') = Some Handled)
  /\ (is_resume (serial inp) = true -> phase (emergency d') = Some Active).
Proof.
  unfold loop. intros H Hcmd Hbtn. revert H.
  destruct (read_vitals _ _ _) as [[v f] r].
  destruct (detect_fall _ _ _ _ _ _ _) as [d3|]; [|discriminate]. simpl.
  destruct (detect_vitals _ _ _ _ _) as [d4|]; [|discriminate]. simpl.
  destruct (escalate _ _) as [d5|]; [|discriminate]. simpl.
  intros H. rewrite (periodic_upload_emergency _ _ _ _ H).
  unfold checkManualEmergencyTrigger. rewrite Hcmd, Hbtn. simpl.
  rewrite on_alarm_emergency.
  split; intros Hm.
  - destruct (checkForIncomingSMS_ack (serial inp) (emergency d5) (log d5) Hm) as [l' ->].
    reflexivity.
  - destruct (checkForIncomingSMS_resume (serial inp) (emergency d5) (log d5) Hm) as [l' ->].
    reflexivity.
Qed.

(** The fourth beat raises the vitals alarm, the call is given up, and the
    acknowledgment read at the end of the same pass leaves the device
    Handled. *)
Lemma message_decides_pass_witness :
  run three_beats (boot "A1B2" true) = Some after_three_beats
  /\ loop alarm_then_ack after_three_beats = Some after_alarm_and_ack
  /\ sms_count (log after_alarm_and_ack) = 2%nat
  /\ phase (emergency after_alarm_and_ack) = Some Handled.
Proof.
  split; [vm_compute; reflexivity|]. split; [vm_compute; reflexivity|].
  split; [vm_compute; reflexivity|].
  apply (proj1 (message_decides_pass alarm_then_ack after_three_beats
                  after_alarm_and_ack ltac:(vm_compute; reflexivity)
                  eq_refl eq_refl)).
  vm_compute. reflexivity.
Defined.

(** ** Flushing the offline queue *)

Lemma upload_slot_fst (id : string) (envs : nat -> UploadEnv) (i : nat)
    (slots : list SensorData) (l : Log) :
  fst (upload_slot id envs i (slots, l))
  = match slots !! i with
    | Some d => <[i := flush_slot id envs i d]> slots
    | None => slots
    end.
Proof.
  unfold upload_slot, flush_slot.
  destruct (slots !! i) as [d|] eqn:E; [|reflexivity].
  destruct (pending d) eqn:Hp; simpl.
  - rewrite upload_app. simpl.
    destruct (delivered (envs i) (queued_doc id d)); [reflexivity|].
    symmetry. apply list_insert_id. exact E.
  - symmetry. apply list_insert_id. exact E.
Qed.

Lemma upload_slot_lookup (id : string) (envs : nat -> UploadEnv) (i j : nat)
    (slots : list SensorData) (l : Log) :
  fst (upload_slot id envs i (slots, l)) !! j
  = if decide (j = i) then flush_slot id envs i <$> slots !! i else slots !! j.
Proof.
  rewrite upload_slot_fst.
  destruct (slots !! i) as [d|] eqn:E.
  - destruct (decide (j = i)) as [->|Hne].
    + simpl. apply list_lookup_insert_eq. eapply lookup_lt_Some. exact E.
    + apply list_lookup_insert_ne. congruence.
  - destruct (decide (j = i)) as [->|Hne]; [rewrite E|]; reflexivity.
Qed.

Lemma upload_slots_lookup (id : string) (envs : nat -> UploadEnv) (idxs : list nat)
    (j : nat) (slots : list SensorData) (l : Log) :
  NoDup idxs ->
  fst (fold_left (fun acc i => upload_slot id envs i acc) idxs (slots, l)) !! j
  = if decide (j ∈ idxs) then flush_slot id envs j <$> slots !! j else slots !! j.
Proof.
  intros Hnd. revert slots l.
  induction Hnd as [|i idxs Hni Hnd IH]; intros slots l; cbn [fold_left].
  - destruct (decide (j ∈ [])) as [H|_]; [inversion H|reflexivity].
  - destruct (upload_slot id envs i (slots, l)) as [slots1 l1] eqn:E.
    rewrite IH.
    pose proof (upload_slot_lookup id envs i j slots l) as Hj. rewrite E in Hj.
    simpl in Hj. rewrite Hj.
    destruct (decide (j = i)) as [->|Hne].
    + destruct (decide (i ∈ idxs)) as [Hin|_]; [contradiction|].
      destruct (decide (i ∈ i :: idxs)) as [_|Hn]; [reflexivity|].
      exfalso. apply Hn. constructor.
    + destruct (decide (j ∈ idxs)) as [Hin|Hnin].
      * destruct (decide (j ∈ i :: idxs)) as [_|Hn]; [reflexivity|].
        exfalso. apply Hn. constructor. exact Hin.
      * destruct (decide (j ∈ i :: idxs)) as [Hin|_]; [|reflexivity].
        apply elem_of_cons in Hin. destruct Hin as [->|Hin]; contradiction.
Qed.

Lemma flush_lookup (id : string) (envs : nat -> UploadEnv)
    (q : Queue) (l : Log) (i : nat) :
  dataQueue (fst (uploadQueuedData id envs (q, l))) !! i
  = if decide (i < 5)%nat then flush_slot id envs i <$> dataQueue q !! i
    else dataQueue q !! i.
Proof.
  unfold uploadQueuedData.
  pose proof (upload_slots_lookup id envs (seq 0 (Z.to_nat DATA_QUEUE_SIZE)) i
                (dataQueue q) l (NoDup_seq 0 _)) as Hlook.
  destruct (fold_left _ _ _) as [slots l']. cbn [fst snd dataQueue queueHead] in *.
  rewrite Hlook.
  destruct (decide (i ∈ seq 0 (Z.to_nat DATA_QUEUE_SIZE))) as [Hin|Hnin];
    destruct (decide (i < 5)%nat) as [Hlt|Hge]; try reflexivity.
  - apply elem_of_seq in Hin. change (Z.to_nat DATA_QUEUE_SIZE) with 5%nat in Hin. lia.
  - exfalso. apply Hnin. apply elem_of_seq.
    change (Z.to_nat DATA_QUEUE_SIZE) with 5%nat. lia.
Qed.

(** A flush keeps the write index and every stored reading; it clears the
    pending flag of exactly those slots that were pending and whose upload
    was reported delivered.  A slot whose upload failed stays pending for
    the next flush. *)
Theorem flush_clears_delivered (id : string) (envs : nat -> UploadEnv)
    (q : Queue) (l : Log) (i : nat) :
  let q' := fst (uploadQueuedData id envs (q, l)) in
  queueHead q' = queueHead q
  /\ length (dataQueue q') = length (dataQueue q)
  /\ dataQueue q' !! i
     = if decide (i < 5)%nat then flush_slot id envs i <$> dataQueue q !! i
       else dataQueue q !! i.
Proof.
  intros q'. split; [|split; [|apply flush_lookup]]; unfold q', uploadQueuedData.
  - destruct (fold_left _ _ _) as [slots l']. reflexivity.
  - assert (Hlen : forall idxs st,
      length (fst (fold_left (fun acc i => upload_slot id envs i acc) idxs st))
      = length (fst st)).
    { induction idxs as [|k idxs IH]; intros st; cbn [fold_left]; [reflexivity|].
      rewrite IH. apply upload_slot_length. }
    specialize (Hlen (seq 0 (Z.to_nat DATA_QUEUE_SIZE)) (dataQueue q, l)).
    destruct (fold_left _ _ _) as [slots l']. exact Hlen.
Qed.

(** Two unsent readings; the flush delivers the first only. *)
Example flush_first_only :
  map pending (dataQueue (fst (uploadQueuedData "A1B2" first_only (two_pending, []))))
  = [false; true; false; false; false]
  /\ map q_hr (dataQueue (fst (uploadQueuedData "A1B2" first_only (two_pending, []))))
     = [61; 62; 0; 0; 0]%Q.
Proof. split; vm_compute; reflexivity. Qed.

(** ** A reading that could not be sent *)

Lemma delivered_uploads (env : UploadEnv) (payload : JsonDoc) :
  delivered env payload = true -> payload ∈ uploads (upload_trace env payload).
Proof.
  unfold delivered, upload_trace, upload.
  assert (Hw : forall w, wifi_result w payload = true ->
                         payload ∈ uploads (wifi_trace w payload)).
  { intros w Hr.
    destruct (wifi_cases w payload) as
      [(_ & _ & H)|[(_ & _ & -> & _)|[(_ & _ & _ & -> & _)|
       [(_ & _ & _ & _ & -> & _)|(_ & _ & _ & _ & _ & H)]]]];
      try congruence; simpl; repeat constructor. }
  destruct (wifiStatus env).
  - rewrite sendDataViaWiFi_app. simpl.
    destruct (wifi_result (wifi env) payload) eqn:E; simpl.
    + intros _. apply Hw. exact E.
    + destruct (gsm env) as [|b]; simpl; [discriminate|].
      intros _. rewrite uploads_app. apply elem_of_app. right. simpl. constructor.
  - destruct (gsm env) as [|b]; simpl; [discriminate|]. intros _. constructor.
Qed.

Lemma upload_slot_snd (id : string) (envs : nat -> UploadEnv) (i : nat)
    (slots : list SensorData) (l : Log) :
  snd (upload_slot id envs i (slots, l))
  = l ++ match slots !! i with
         | Some d => if pending d
                     then upload_trace (envs i) (queued_doc id d) ++ [Delay 100]
                     else []
         | None => []
         end.
Proof.
  unfold upload_slot. destruct (slots !! i) as [d|]; [|simpl; rewrite app_nil_r; reflexivity].
  destruct (pending d); [|simpl; rewrite app_nil_r; reflexivity].
  rewrite upload_app. simpl. rewrite app_assoc. reflexivity.
Qed.

Lemma upload_slots_trace (id : string) (envs : nat -> UploadEnv) (idxs : list nat)
    (i : nat) (d : SensorData) (slots : list SensorData) (l : Log) :
  NoDup idxs -> i ∈ idxs -> slots !! i = Some d -> pending d = true ->
  exists before after,
    snd (fold_left (fun acc k => upload_slot id envs k acc) idxs (slots, l))
    = l ++ before ++ upload_trace (envs i) (queued_doc id d) ++ after.
Proof.
  intros Hnd. revert slots l.
  induction Hnd as [|k idxs Hnk Hnd IH]; intros slots l Hin Hd Hp; [inversion Hin|].
  cbn [fold_left].
  pose proof (upload_slot_snd id envs k slots l) as Hs.
  pose proof (upload_slot_lookup id envs k i slots l) as Hl.
  destruct (upload_slot id envs k (slots, l)) as [slots1 l1]. simpl in Hs, Hl. subst l1.
  apply elem_of_cons in Hin. destruct Hin as [->|Hin].
  - rewrite Hd, Hp.
    destruct (upload_slots_uploads id envs idxs slots1
                (l ++ upload_trace (envs k) (queued_doc id d) ++ [Delay 100]))
      as (t & Ht & _).
    exists [], ([Delay 100] ++ t). rewrite Ht. simpl. rewrite <- !app_assoc. reflexivity.
  - destruct (decide (i = k)) as [->|Hne]; [contradiction|].
    rewrite Hd in Hl.
    destruct (IH slots1 (l ++ match slots !! k with
                              | Some d0 => if pending d0
                                           then upload_trace (envs k) (queued_doc id d0)
                                                  ++ [Delay 100]
                                           else []
                              | None => []
                              end) Hin Hl Hp) as (b & a & H).
    exists (match slots !! k with
            | Some d0 => if pending d0
                         then upload_trace (envs k) (queued_doc id d0) ++ [Delay 100]
                         else []
            | None => []
            end ++ b), a.
    rewrite H, <- !app_assoc. reflexivity.
Qed.

(** A reading that neither WiFi nor the modem delivered is stored in the
    slot at the write index with its pending flag set.  A later flush
    during which that slot's upload is delivered sends a document carrying
    the same heart rate, SpO2 and motion values, marked [queued] and
    without a [timestamp], and clears the flag, values untouched. *)
Theorem offline_round_trip (id : string) (env : UploadEnv) (envs : nat -> UploadEnv)
    (now : Z) (hr spo2 : Q) (m : Motion) (q : Queue) (l : Log) :
  let h := Z.to_nat (queueHead q) in
  let stored := mkSensorData hr spo2 m true in
  queue_ok q ->
  delivered env (cloud_doc id now hr spo2 m) = false ->
  delivered (envs h) (queued_doc id stored) = true ->
  exists q1 l1,
    sendDataToCloud id env now hr spo2 m (q, l) = Some (q1, l1)
    /\ dataQueue q1 !! h = Some stored
    /\ dataQueue (fst (uploadQueuedData id envs (q1, l1))) !! h
       = Some (mkSensorData hr spo2 m false)
    /\ (exists before after,
          snd (uploadQueuedData id envs (q1, l1))
          = l1 ++ before ++ upload_trace (envs h) (queued_doc id stored) ++ after)
    /\ queued_doc id stored ∈ uploads (upload_trace (envs h) (queued_doc id stored))
    /\ doc_get "heart_rate" (queued_doc id stored) = Some (JFloat hr)
    /\ doc_get "spo2" (queued_doc id stored) = Some (JFloat spo2)
    /\ doc_get "accel_z" (queued_doc id stored) = Some (JFloat (accel_z m))
    /\ doc_get "queued" (queued_doc id stored) = Some (JBool true)
    /\ doc_get "timestamp" (queued_doc id stored) = None.
Proof.
  intros h stored Hok Hfail Hlater.
  destruct Hok as [Hlen Hhead].
  assert (Hh : (h < length (dataQueue q))%nat).
  { rewrite Hlen. subst h. unfold DATA_QUEUE_SIZE in *. lia. }
  destruct (lookup_lt_is_Some_2 _ _ Hh) as [old Hold].
  unfold sendDataToCloud. rewrite upload_app, Hfail.
  unfold queueData. fold h. rewrite Hold.
  eexists _, _. split; [reflexivity|].
  assert (Hst : <[h := stored]> (dataQueue q) !! h = Some stored).
  { apply list_lookup_insert_eq. exact Hh. }
  split; [exact Hst|].
  split.
  { pose proof (flush_lookup id envs
                  (mkQueue (<[h := stored]> (dataQueue q))
                           (u8 ((queueHead q + 1) mod DATA_QUEUE_SIZE)))
                  (l ++ upload_trace env (cloud_doc id now hr spo2 m)) h) as H.
    cbn [dataQueue] in H. etrans; [exact H|]. rewrite Hst.
    destruct (decide (h < 5)%nat) as [_|Hge].
    - simpl. unfold flush_slot. fold stored. rewrite Hlater. reflexivity.
    - exfalso. apply Hge. rewrite Hlen in Hh. exact Hh. }
  split.
  { unfold uploadQueuedData. cbn [dataQueue queueHead].
    destruct (upload_slots_trace id envs (seq 0 (Z.to_nat DATA_QUEUE_SIZE)) h stored
                (<[h := stored]> (dataQueue q))
                (l ++ upload_trace env (cloud_doc id now hr spo2 m))
                (NoDup_seq 0 _)) as (b & a & H); [|exact Hst|reflexivity|].
    - apply elem_of_seq. rewrite Hlen in Hh. lia.
    - destruct (fold_left _ _ _) as [slots l']. simpl in H. exists b, a. exact H. }
  split; [apply delivered_uploads; exact Hlater|].
  repeat split; reflexivity.
Qed.

Lemma offline_round_trip_witness :
  queue_ok boot_queue
  /\ delivered net_down (cloud_doc "A1B2" 5000 72 98 resting) = false
  /\ exists q1 l1,
       sendDataToCloud "A1B2" net_down 5000 72 98 resting (boot_queue, []) = Some (q1, l1)
       /\ dataQueue q1 !! 0%nat = Some (mkSensorData 72 98 resting true)
       /\ dataQueue (fst (uploadQueuedData "A1B2" (fun _ => net_up) (q1, l1))) !! 0%nat
          = Some (mkSensorData 72 98 resting false).
Proof.
  split; [exact boot_queue_ok|]. split; [vm_compute; reflexivity|].
  destruct (offline_round_trip "A1B2" net_down (fun _ => net_up) 5000 72 98 resting
              boot_queue [] boot_queue_ok ltac:(vm_compute; reflexivity)
              ltac:(vm_compute; reflexivity)) as (q1 & l1 & H1 & H2 & H3 & _).
  exists q1, l1. split; [exact H1|]. split; [exact H2|exact H3].
Defined.

(** ** The SpO2 sampling buffers *)

Lemma boot_window_ok : window_ok boot_window.
Proof. split; simpl; try reflexivity; unfold BUFFER_LENGTH; lia. Qed.

Lemma start_collection_ok (ck : Clock) (w : Spo2Window) :
  window_ok w -> window_ok (start_collection ck w).
Proof.
  intros [Hi Hr Hx Ha]. unfold start_collection.
  destruct (negb (spo2CollectionActive w) && _); split; simpl; auto;
    unfold BUFFER_LENGTH; lia.
Qed.

Lemma collect_spo2_window (ck : Clock) (inp : PulseIn) (finger : bool) (v : Vitals) :
  window_ok (window v) -> window_ok (window (collect_spo2 ck inp finger v)).
Proof.
  intros Hok. unfold collect_spo2.
  destruct finger.
  - pose proof (start_collection_ok ck _ Hok) as [Hi Hr Hx Ha].
    set (w1 := start_collection ck (window v)) in *.
    destruct (spo2CollectionActive w1) eqn:Eact; cbn [andb];
      [|split; simpl; auto; congruence].
    destruct (SPO2_SAMPLE_INTERVAL <=? _); [|split; simpl; auto].
    destruct (sampleAvailable inp); [|split; simpl; auto].
    unfold store_sample. specialize (Ha eq_refl).
    unfold BUFFER_LENGTH in *.
    assert (Hu : u8 (spo2SampleIndex w1 + 1) = spo2SampleIndex w1 + 1)
      by (apply u8_small; lia).
    rewrite Hu.
    destruct (Z.leb_spec 100 (spo2SampleIndex w1 + 1)).
    + split; cbn [window with_window accept_estimate irBuffer redBuffer
                  spo2SampleIndex spo2CollectionActive];
        rewrite ?length_insert; unfold BUFFER_LENGTH; auto; [lia|discriminate].
    + split; cbn [window with_window irBuffer redBuffer
                  spo2SampleIndex spo2CollectionActive];
        rewrite ?length_insert; unfold BUFFER_LENGTH; auto; lia.
  - destruct Hok as [Hi Hr Hx Ha]. split; simpl; auto; unfold BUFFER_LENGTH; lia.
Qed.

Lemma detect_beat_window (ck : Clock) (inp : PulseIn) (finger : bool) (v : Vitals) :
  window (detect_beat ck inp finger v) = window v.
Proof.
  unfold detect_beat. destruct (finger && beatSeen inp); [|reflexivity].
  destruct (Qleb 40 _ && Qleb _ 180); [|reflexivity].
  destruct (store_beat _). reflexivity.
Qed.

Lemma read_vitals_window (ck : Clock) (inp : PulseIn) (v : Vitals) :
  window_ok (window v) -> window_ok (window (fst (fst (read_vitals ck inp v)))).
Proof.
  intros Hok. unfold read_vitals. cbn [fst].
  apply collect_spo2_window. rewrite detect_beat_window. cbn [window].
  destruct (negb (50000 <? irValue inp) && wasFingerDetected v); exact Hok.
Qed.

Lemma run_window_ok (inps : list LoopIn) (d d' : Device) :
  run inps d = Some d' -> window_ok (window (vitals d)) -> window_ok (window (vitals d')).
Proof.
  revert d. induction inps as [|inp rest IH]; intros d; simpl.
  - intros [= <-]. auto.
  - destruct (loop inp d) as [d1|] eqn:E; [|discriminate].
    intros H Hok. apply (IH d1 H). rewrite (loop_vitals _ _ _ E).
    apply read_vitals_window, Hok.
Qed.

(** In every state the loop reaches from boot, the two sample buffers have
    their 100 entries and the write cursor is at most 100; whenever the
    next pass stores a sample (a collection is running after line 343), the
    cursor it writes at is inside both buffers. *)
Theorem spo2_buffer_bounds (inps : list LoopIn) (mac : string) (w : bool) (d : Device) :
  run inps (boot mac w) = Some d ->
  window_ok (window (vitals d))
  /\ forall ck : Clock,
       let w1 := start_collection ck (window (vitals d)) in
       spo2CollectionActive w1 = true ->
       (Z.to_nat (spo2SampleIndex w1) < length (irBuffer w1))%nat
       /\ (Z.to_nat (spo2SampleIndex w1) < length (redBuffer w1))%nat.
Proof.
  intros Hrun.
  assert (Hok : window_ok (window (vitals d)))
    by (apply (run_window_ok _ _ _ Hrun); exact boot_window_ok).
  split; [exact Hok|].
  intros ck w1 Hact.
  destruct (start_collection_ok ck _ Hok) as [Hi Hr Hx Ha]. fold w1 in Hi, Hr, Hx, Ha.
  specialize (Ha Hact). rewrite Hi, Hr. unfold BUFFER_LENGTH in *. lia.
Qed.

Lemma spo2_buffer_bounds_witness :
  run three_beats (boot "A1B2" true) = Some after_three_beats
  /\ window_ok (window (vitals after_three_beats)).
Proof.
  split; [vm_compute; reflexivity|].
  apply (proj1 (spo2_buffer_bounds three_beats "A1B2" true after_three_beats
                  ltac:(vm_compute; reflexivity))).
Defined.

(** ** Which beats are accepted *)

(** The rate computed at line 318 for an interval that is not zero. *)
Lemma bpm_pos (p : positive) : (60 / (inject_Z (Z.pos p) / 1000))%Q = (60000 # p)%Q.
Proof.
  unfold Qdiv, Qmult, Qinv, inject_Z. cbn -[Z.mul Pos.mul].
  rewrite Z.mul_1_r. reflexivity.
Qed.

Lemma bpm_neg (p : positive) : (60 / (inject_Z (Z.neg p) / 1000))%Q = (-60000 # p)%Q.
Proof.
  unfold Qdiv, Qmult, Qinv, inject_Z. cbn -[Z.mul Pos.mul].
  rewrite Z.mul_1_r. reflexivity.
Qed.

Lemma bpm_guard (delta : Z) :
  Qleb 40 (60 / (inject_Z delta / 1000)) && Qleb (60 / (inject_Z delta / 1000)) 180 = true
  <-> interval_accepted delta.
Proof.
  unfold interval_accepted.
  destruct delta as [|p|p].
  - split; [intros H; vm_compute in H; discriminate|lia].
  - rewrite andb_true_iff, !Qleb_le, bpm_pos.
    unfold Qle. cbn [Qnum Qden]. lia.
  - rewrite andb_true_iff, !Qleb_le, bpm_neg.
    unfold Qle. cbn [Qnum Qden]. lia.
Qed.

Lemma bpm_byte (delta : Z) :
  interval_accepted delta ->
  byte_of_float (60 / (inject_Z delta / 1000)) = 60000 / delta.
Proof.
  unfold interval_accepted. intros Hd.
  destruct delta as [|p|p]; try lia.
  rewrite bpm_pos. unfold byte_of_float, Qtrunc. cbn [Qnum Qden].
  rewrite Z.quot_div_nonneg by lia.
  apply u8_small.
  assert (40 <= 60000 / Z.pos p) by (apply Z.div_le_lower_bound; lia).
  assert (60000 / Z.pos p <= 180) by (apply Z.div_le_upper_bound; lia).
  lia.
Qed.

(** A detected beat always restarts the interval measurement.  It is
    entered into the history exactly when the interval since the previous
    beat is between 334 and 1500 ms; the entry is the whole part of
    60000 / interval, written at the cursor, which then advances modulo 8,
    and the reported heart rate becomes the new average.  Any other
    interval leaves the history, the average and the reported rate as they
    were. *)
Theorem beat_interval_window (ck : Clock) (inp : PulseIn) (v : Vitals) :
  beats_ok v ->
  beatSeen inp = true ->
  let delta := beat_delta ck v in
  let b := beats v in
  let v' := detect_beat ck inp true v in
  let b' := beats v' in
  lastBeat b' = s32 (ck 317)
  /\ (interval_accepted delta ->
        rates b' = <[Z.to_nat (rateSpot b) := 60000 / delta]> (rates b)
        /\ rateSpot b' = (rateSpot b + 1) mod RATE_SIZE
        /\ validBeatCount b' = Z.min (validBeatCount b + 1) RATE_SIZE
        /\ beatAvg b' = mean (valid_entries b')
        /\ lastValidHR v' = inject_Z (beatAvg b'))
  /\ (~ interval_accepted delta ->
        rates b' = rates b /\ rateSpot b' = rateSpot b
        /\ validBeatCount b' = validBeatCount b /\ beatAvg b' = beatAvg b
        /\ lastValidHR v' = lastValidHR v).
Proof.
  intros Hok Hbeat delta b v' b'.
  pose proof (detect_beat_ok ck inp true v Hok) as Hok'. fold v' in Hok'.
  subst b' v'. unfold detect_beat in *. rewrite Hbeat in *. cbn [andb] in *.
  change (s32 (usub (ck 316) (u32 (lastBeat (beats v))))) with delta in Hok' |- *.
  change (beats v) with b in Hok' |- *.
  pose proof (bpm_guard delta) as Hg.
  destruct (Qleb 40 _ && Qleb _ 180) eqn:E.
  - assert (Hacc : interval_accepted delta) by (apply Hg; reflexivity).
    unfold store_beat in *. cbn [beats rates rateSpot validBeatCount beatAvg lastBeat
                                 lastValidHR beatsPerMinute] in *.
    split; [reflexivity|]. split; [|intros Hn; contradiction].
    intros _. rewrite (bpm_byte delta Hacc) in Hok' |- *.
    pose proof (ok_spot v Hok) as Hs. pose proof (ok_count v Hok) as Hc.
    fold b in Hs, Hc. unfold RATE_SIZE in *.
    split; [reflexivity|].
    split.
    { rewrite (u8_small (rateSpot b + 1)) by lia. apply u8_small.
      pose proof (Z.mod_pos_bound (rateSpot b + 1) 8). lia. }
    split.
    { destruct (Z.ltb_spec (validBeatCount b) 8); lia. }
    split; [|reflexivity].
    apply (ok_avg _ Hok'). cbn [beats validBeatCount].
    destruct (Z.ltb_spec (validBeatCount b) 8); lia.
  - split; [reflexivity|]. split.
    + intros Hacc. apply Hg in Hacc. discriminate.
    + intros _. repeat split; reflexivity.
Qed.

Lemma beat_interval_window_witness :
  beats_ok boot_vitals
  /\ interval_accepted (beat_delta (fun _ => 1000) boot_vitals)
  /\ rates (beats (detect_beat (fun _ => 1000) (pulse_in 60000 true) true boot_vitals))
     = [60; 0; 0; 0; 0; 0; 0; 0]
  /\ lastValidHR (detect_beat (fun _ => 1000) (pulse_in 60000 true) true boot_vitals)
     = 60%Q.
Proof.
  split; [exact boot_vitals_ok|].
  assert (Hacc : interval_accepted (beat_delta (fun _ => 1000) boot_vitals))
    by (vm_compute; split; discriminate).
  split; [exact Hacc|].
  destruct (beat_interval_window (fun _ => 1000) (pulse_in 60000 true) boot_vitals
              boot_vitals_ok eq_refl) as (_ & Hyes & _).
  destruct (Hyes Hacc) as (Hr & _ & _ & _ & Hhr).
  split; [rewrite Hr; reflexivity|rewrite Hhr; reflexivity].
Defined.

(** * The modem dialogue *)

Lemma bind_inv {A B : Type} (m : Modem.M A) (f : A -> Modem.M B)
    (g g' : Modem.Gsm) (b : B) :
  Modem.bind m f g = Some (b, g') ->
  exists a g1, m g = Some (a, g1) /\ f a g1 = Some (b, g').
Proof.
  unfold Modem.bind. destruct (m g) as [[a g1]|]; [|discriminate].
  intros H. exists a, g1. split; [reflexivity|exact H].
Qed.

Lemma send_inv (t : list Modem.Tx) (g g' : Modem.Gsm) (u : unit) :
  Modem.send t g = Some (u, g') ->
  g' = Modem.mkGsm (Modem.gprsConnected g) (Modem.wire g ++ t).
Proof. unfold Modem.send. intros [= _ <-]. reflexivity. Qed.

Lemma lift_inv {A : Type} (o : option A) (g g' : Modem.Gsm) (a : A) :
  Modem.lift o g = Some (a, g') -> o = Some a /\ g' = g.
Proof. unfold Modem.lift. destruct o; [|discriminate]. intros [= <- <-]. auto. Qed.

Lemma ret_inv {A : Type} (a b : A) (g g' : Modem.Gsm) :
  Modem.ret a g = Some (b, g') -> b = a /\ g' = g.
Proof. unfold Modem.ret. intros [= <- <-]. auto. Qed.

Lemma sendATCommand_inv (w : Modem.Wait ascii) (cmd expected : string) (timeout : Z)
    (g g' : Modem.Gsm) (b : bool) :
  Modem.sendATCommand w cmd expected timeout g = Some (b, g') ->
  g' = Modem.mkGsm (Modem.gprsConnected g) (Modem.wire g ++ [Modem.Println cmd])
  /\ Modem.await expected timeout (Modem.startTime w) (Modem.ticks w) EmptyString
     = Some b.
Proof.
  unfold Modem.sendATCommand. intros H.
  apply bind_inv in H. destruct H as (u & g1 & Hs & Hl).
  apply send_inv in Hs. apply lift_inv in Hl. destruct Hl as [Hl ->]. auto.
Qed.

(** One step of symbolic execution of a modem computation that returned. *)
Ltac modem_step :=
  match goal with
  | H : Modem.bind _ _ _ = Some _ |- _ =>
      apply bind_inv in H; destruct H as (? & ? & ? & H)
  | H : Modem.sendATCommand _ _ _ _ _ = Some _ |- _ =>
      apply sendATCommand_inv in H; destruct H as [? ?]
  | H : Modem.send _ _ = Some _ |- _ => apply send_inv in H
  | H : Modem.lift _ _ = Some _ |- _ => apply lift_inv in H; destruct H as [? ?]
  | H : Modem.ret _ _ = Some _ |- _ => apply ret_inv in H; destruct H as [? ?]
  | H : Modem.connected _ = Some _ |- _ => unfold Modem.connected in H
  | H : Modem.set_connected _ _ = Some _ |- _ => unfold Modem.set_connected in H
  | H : Some _ = Some _ |- _ => injection H as H; try subst
  | H : (if negb ?c then _ else _) _ = Some _ |- _ => destruct c eqn:?; cbn [negb] in H
  | H : (if ?c then _ else _) _ = Some _ |- _ => destruct c eqn:?
  end.

Lemma commands_app (t u : list Modem.Tx) :
  Modem.commands (t ++ u) = Modem.commands t ++ Modem.commands u.
Proof. apply omap_app. Qed.

Lemma printed_app (t u : list Modem.Tx) :
  Modem.printed (t ++ u) = Modem.printed t ++ Modem.printed u.
Proof. apply omap_app. Qed.

Lemma commands_pauses (n : nat) (ms : Z) :
  Modem.commands (replicate n (Modem.Pause ms)) = [].
Proof. induction n as [|n IH]; [reflexivity|exact IH]. Qed.

Lemma printed_pauses (n : nat) (ms : Z) :
  Modem.printed (replicate n (Modem.Pause ms)) = [].
Proof. induction n as [|n IH]; [reflexivity|exact IH]. Qed.

(** Bearer set-up: only bearer commands are sent, none through [print],
    and the flag is raised exactly when the function returns [true]. *)
Lemma initGPRS_spec (env : Modem.Line) (g g' : Modem.Gsm) (ok : bool) :
  Modem.initGPRS env g = Some (ok, g') ->
  exists t,
    Modem.wire g' = Modem.wire g ++ t
    /\ Modem.printed t = []
    /\ Forall (fun c => Modem.is_http c = false) (Modem.commands t)
    /\ Modem.gprsConnected g' = ok || Modem.gprsConnected g.
Proof.
  unfold Modem.initGPRS. intros H.
  change (0 <? String.length Modem.gsmUser)%nat with false in H.
  change (0 <? String.length Modem.gsmPass)%nat with false in H.
  repeat modem_step; subst; cbn [Modem.wire Modem.gprsConnected];
    rewrite <- ?app_assoc; (eexists; split; [reflexivity|]);
    (split; [reflexivity|]);
    (split; [repeat constructor|]);
    try reflexivity; destruct (Modem.gprsConnected g); reflexivity.
Qed.

Lemma last_commands_snoc (t : list Modem.Tx) (c : string) :
  last (Modem.commands (t ++ [Modem.Println c])) = Some c.
Proof. rewrite commands_app. apply last_snoc. Qed.

(** One GPRS upload, as the modem sees it.  Nothing is written with
    [print] but the payload, and at most once; a call that reports success
    has written it.  When it is written, the commands end with the size
    announcement, the POST and the end of the HTTP session.  Whenever an
    HTTP session was requested, the last command is the one that ends it,
    unless the request itself was the last command and the call failed. *)
Theorem gsm_upload_session (env : Modem.Line) (jsonPayload : string)
    (g g' : Modem.Gsm) (ok : bool) :
  Modem.sendDataViaGSM env jsonPayload g = Some (ok, g') ->
  exists t,
    Modem.wire g' = Modem.wire g ++ t
    /\ (Modem.printed t = [] \/ Modem.printed t = [jsonPayload])
    /\ (ok = true -> Modem.printed t = [jsonPayload])
    /\ (Modem.printed t = [jsonPayload] ->
        exists before,
          Modem.commands t
          = before ++ [Modem.http_data jsonPayload; Modem.http_action; Modem.http_term])
    /\ (Modem.http_init ∈ Modem.commands t ->
        last (Modem.commands t) = Some Modem.http_term
        \/ (last (Modem.commands t) = Some Modem.http_init /\ ok = false)).
Proof.
  unfold Modem.sendDataViaGSM. intros H.
  repeat modem_step; subst; try discriminate;
    repeat match goal with
           | H : Modem.initGPRS _ _ = Some _ |- _ =>
               apply initGPRS_spec in H; destruct H as (ti & Hw & Hp & Hc & _)
           end;
    cbn [Modem.wire Modem.gprsConnected]; rewrite ?Hw; rewrite <- ?app_assoc;
    (eexists; split; [reflexivity|]);
    rewrite ?printed_app, ?commands_app, ?Hp, ?printed_pauses, ?commands_pauses;
    cbn [Modem.printed Modem.commands omap Modem.raw_of Modem.command_of
         app option_bind mbind list_omap].
  all: split; [first [left; reflexivity|right; reflexivity]|].
  all: split; [intros; first [reflexivity|discriminate]|].
  all: split;
    [ intros Hpr;
      first
        [ discriminate Hpr
        | eexists [_; _; _; _]; reflexivity
        | eexists [_; _; _; _; _; _]; reflexivity
        | eexists (Modem.commands ti ++ [_; _; _; _]); rewrite <- app_assoc; reflexivity
        | eexists (Modem.commands ti ++ [_; _; _; _; _; _]);
          rewrite <- app_assoc; reflexivity ]
    | intros Hin;
      first
        [ left; rewrite ?last_app; reflexivity
        | right; split; [rewrite ?last_app; reflexivity|reflexivity]
        | exfalso; rewrite Forall_forall in Hc; specialize (Hc _ Hin);
          discriminate Hc ] ].
Qed.

(** The bearer is set up at most once.  A call that finds
    [gprsConnected] set leaves it set, whether or not the upload succeeds,
    and sends HTTP commands only.  A call that ends with the flag clear
    has failed in the set-up: it reports failure and has sent no HTTP
    command.  Success is reported only with the flag set. *)
Theorem gprs_attached_once (env : Modem.Line) (jsonPayload : string)
    (g g' : Modem.Gsm) (ok : bool) :
  Modem.sendDataViaGSM env jsonPayload g = Some (ok, g') ->
  exists t,
    Modem.wire g' = Modem.wire g ++ t
    /\ (Modem.gprsConnected g = true ->
        Modem.gprsConnected g' = true
        /\ Forall (fun c => Modem.is_http c = true) (Modem.commands t))
    /\ (Modem.gprsConnected g' = false ->
        ok = false /\ Forall (fun c => Modem.is_http c = false) (Modem.commands t))
    /\ (ok = true -> Modem.gprsConnected g' = true).
Proof.
  unfold Modem.sendDataViaGSM. intros H.
  repeat modem_step; subst; try discriminate;
    repeat match goal with
           | H : Modem.initGPRS _ _ = Some _ |- _ =>
               apply initGPRS_spec in H; destruct H as (ti & Hw & Hp & Hc & Hg)
           end;
    cbn [Modem.wire Modem.gprsConnected] in *; rewrite ?Hw; rewrite <- ?app_assoc;
    (eexists; split; [reflexivity|]);
    rewrite ?commands_app, ?commands_pauses;
    cbn [Modem.commands omap Modem.command_of app option_bind mbind list_omap].
  all: try match goal with
           | Hf : Modem.gprsConnected ?x = false, Hg : Modem.gprsConnected _ = _ |- _ =>
               rewrite Hf in Hg; cbn [orb] in Hg
           end.
  all: split; [intros Hup; first [congruence | split; [assumption|repeat constructor]]|].
  all: split; [intros Hdown; first [congruence | split; [reflexivity|assumption]]|].
  all: intros Hok; first [assumption | discriminate Hok].
Qed.

Lemma gsm_upload_session_witness :
  Modem.sendDataViaGSM Modem.obliging "{}" Modem.fresh = Some (true, uploaded_over_gprs)
  /\ Modem.printed (Modem.wire uploaded_over_gprs) = ["{}"%string].
Proof.
  assert (H : Modem.sendDataViaGSM Modem.obliging "{}" Modem.fresh
              = Some (true, uploaded_over_gprs)) by (vm_compute; reflexivity).
  split; [exact H|].
  destruct (gsm_upload_session Modem.obliging "{}" Modem.fresh uploaded_over_gprs true H)
    as (t & Hw & _ & Hok & _).
  rewrite Hw. exact (Hok eq_refl).
Defined.

Lemma gprs_attached_once_witness :
  Modem.sendDataViaGSM Modem.obliging "{}" Modem.fresh = Some (true, uploaded_over_gprs)
  /\ Modem.gprsConnected uploaded_over_gprs = true.
Proof.
  assert (H : Modem.sendDataViaGSM Modem.obliging "{}" Modem.fresh
              = Some (true, uploaded_over_gprs)) by (vm_compute; reflexivity).
  split; [exact H|].
  destruct (gprs_attached_once Modem.obliging "{}" Modem.fresh uploaded_over_gprs true H)
    as (t & _ & _ & _ & Hok).
  exact (Hok eq_refl).
Defined.

(** ** What a polling loop hears *)

Lemma append_assoc (a b c : string) :
  ((a ++ b) ++ c = a ++ (b ++ c))%string.
Proof. induction a as [|x a IH]; simpl; [reflexivity|rewrite IH; reflexivity]. Qed.

Lemma append_nil_r (a : string) : (a ++ EmptyString)%string = a.
Proof. induction a as [|x a IH]; simpl; [reflexivity|rewrite IH; reflexivity]. Qed.

Lemma prefix_append (p s t : string) :
  String.prefix p s = true -> String.prefix p (s ++ t) = true.
Proof.
  revert s. induction p as [|x p IH]; intros s;
    [intros _; destruct (s ++ t)%string; reflexivity|].
  destruct s as [|y s]; simpl; [discriminate|].
  destruct (ascii_dec x y); [apply IH|discriminate].
Qed.

Lemma index_append (pat s t : string) (n : nat) :
  String.index 0 pat s = Some n -> exists m, String.index 0 pat (s ++ t) = Some m.
Proof.
  revert n. induction s as [|y s IH]; intros n.
  - simpl. destruct pat; [|discriminate]. intros _.
    destruct t; simpl; eauto.
  - cbn [String.index String.append].
    destruct (String.prefix pat (String y s)) eqn:Ep.
    + intros _. change (String y (s ++ t)) with (String y s ++ t)%string.
      rewrite (prefix_append _ _ t Ep). eauto.
    + destruct (String.index 0 pat s) as [k|] eqn:Ek; [|discriminate].
      intros _. destruct (IH k eq_refl) as [m Hm]. rewrite Hm.
      destruct (String.prefix pat (String y (s ++ t))); eauto.
Qed.

(** Text that holds a pattern still holds it when more arrives. *)
Lemma contains_append (s t pat : string) :
  contains s pat = true -> contains (s ++ t) pat = true.
Proof.
  unfold contains, indexOf.
  destruct (String.index 0 pat s) as [n|] eqn:E; [|discriminate].
  intros _. destruct (index_append pat s t n E) as [m ->].
  apply negb_true_iff, Z.eqb_neq. lia.
Qed.

Lemma text_of_app (l k : list ascii) :
  Modem.text_of (l ++ k) = (Modem.text_of l ++ Modem.text_of k)%string.
Proof.
  unfold Modem.text_of. induction l as [|c l IH]; simpl; [reflexivity|].
  rewrite IH. reflexivity.
Qed.

(** The verdict of the reply loop, in terms of the text heard while its
    condition held. *)
Lemma await_verdict (expected : string) (timeout start : Z)
    (ts : list (Modem.Tick ascii)) (response : string) (b : bool) :
  Modem.await expected timeout start ts response = Some b ->
  let heard := (response
                ++ Modem.text_of (omap Modem.tickData (Modem.in_time timeout start ts)))%string in
  (b = true -> contains heard expected = true)
  /\ (b = false ->
      contains heard "ERROR" = true
      \/ existsb (fun t => timeout <=? usub (Modem.tickClock t) start) ts = true).
Proof.
  revert response. induction ts as [|t rest IH]; intros response; [discriminate|].
  cbn [Modem.await Modem.in_time existsb].
  destruct (Z.ltb_spec (usub (Modem.tickClock t) start) timeout) as [Hin|Hout].
  - set (response' := match Modem.tickData t with
                      | Some c => Modem.push response c
                      | None => response
                      end).
    assert (Hheard : forall l,
      (response ++ Modem.text_of (omap Modem.tickData (t :: l)))%string
      = (response' ++ Modem.text_of (omap Modem.tickData l))%string).
    { intros l. unfold response', Modem.push. cbn [omap list_omap].
      destruct (Modem.tickData t) as [c|]; cbn [option_bind mbind]; [|reflexivity].
      change (c :: omap Modem.tickData l) with ([c] ++ omap Modem.tickData l).
      rewrite text_of_app, <- append_assoc. reflexivity. }
    rewrite Hheard.
    destruct (contains response' expected) eqn:Eexp.
    + intros [= <-]. split; [|discriminate].
      intros _. apply contains_append. exact Eexp.
    + destruct (contains response' "ERROR") eqn:Eerr.
      * intros [= <-]. split; [discriminate|].
        intros _. left. apply contains_append. exact Eerr.
      * intros H. destruct (IH response' H) as [Ht Hf]. split; [exact Ht|].
        intros Hb. destruct (Hf Hb) as [?|Hex]; [left; assumption|].
        right. rewrite Hex. apply orb_true_r.
  - intros [= <-]. split; [discriminate|]. intros _. right.
    apply orb_true_iff. left. apply Z.leb_le. exact Hout.
Qed.

(** A command is reported accepted only if the expected text arrived while
    the timeout had not expired, and reported failed only if [ERROR]
    arrived in that time or the time ran out.  Either way the command line
    was sent, and nothing else. *)
Theorem at_command_verdict (w : Modem.Wait ascii) (cmd expected : string)
    (timeout : Z) (g g' : Modem.Gsm) (ok : bool) :
  Modem.sendATCommand w cmd expected timeout g = Some (ok, g') ->
  let heard := Modem.text_of (Modem.received timeout w) in
  Modem.wire g' = Modem.wire g ++ [Modem.Println cmd]
  /\ Modem.gprsConnected g' = Modem.gprsConnected g
  /\ (ok = true -> contains heard expected = true)
  /\ (ok = false -> contains heard "ERROR" = true \/ Modem.expires timeout w = true).
Proof.
  intros H heard. apply sendATCommand_inv in H. destruct H as [-> Haw].
  split; [reflexivity|]. split; [reflexivity|].
  apply await_verdict in Haw. exact Haw.
Qed.

Lemma at_command_verdict_witness :
  Modem.sendATCommand (Modem.reply "OK") "AT" "OK" 2000 Modem.fresh
  = Some (true, Modem.mkGsm false [Modem.Println "AT"])
  /\ contains (Modem.text_of (Modem.received 2000 (Modem.reply "OK"))) "OK" = true.
Proof.
  assert (H : Modem.sendATCommand (Modem.reply "OK") "AT" "OK" 2000 Modem.fresh
              = Some (true, Modem.mkGsm false [Modem.Println "AT"]))
    by (vm_compute; reflexivity).
  split; [exact H|].
  destruct (at_command_verdict _ _ _ _ _ _ _ H) as (_ & _ & Hok & _).
  exact (Hok eq_refl).
Defined.

Lemma await_prompt_verdict (start : Z) (ts : list (Modem.Tick ascii)) (b : bool) :
  Modem.await_prompt start ts = Some b ->
  b = existsb (Ascii.eqb ">") (omap Modem.tickData (Modem.in_time 3000 start ts)).
Proof.
  induction ts as [|t rest IH]; [discriminate|].
  cbn [Modem.await_prompt Modem.in_time].
  destruct (usub (Modem.tickClock t) start <? 3000); [|intros [= <-]; reflexivity].
  cbn [omap list_omap].
  destruct (Modem.tickData t) as [c|]; cbn [option_bind mbind existsb]; [|exact IH].
  rewrite (Ascii.eqb_sym ">" c).
  destruct (Ascii.eqb c ">"); [intros [= <-]; reflexivity|exact IH].
Qed.

(** The message text goes out only after the modem has prompted for it
    with ['>'] within three seconds, and is then closed with CTRL+Z;
    without the prompt the send is cancelled with ESC and the text is not
    written.  Success is reported only if, besides, [+CMGS:] arrived within
    the ten seconds that follow. *)
Theorem sms_text_after_prompt (env : Modem.Line) (num msg : string)
    (g g' : Modem.Gsm) (ok : bool) :
  Modem.sendSMS env num msg g = Some (ok, g') ->
  Modem.wire g'
  = Modem.wire g ++ sms_header num
    ++ (if prompted env
        then [Modem.Print msg; Modem.Pause 100; Modem.WriteByte 26]
        else [Modem.WriteByte 27])
  /\ Modem.gprsConnected g' = Modem.gprsConnected g
  /\ (ok = true ->
      prompted env = true
      /\ contains (Modem.text_of (Modem.received 10000 (Modem.chars env 1044)))
                  "+CMGS:" = true).
Proof.
  unfold Modem.sendSMS, prompted, Modem.received. intros H.
  repeat modem_step; subst;
    match goal with
    | Hp : Modem.await_prompt _ _ = Some _ |- _ =>
        apply await_prompt_verdict in Hp; rewrite <- Hp
    end;
    cbn [Modem.wire Modem.gprsConnected]; rewrite <- ?app_assoc.
  - split; [reflexivity|]. split; [reflexivity|].
    intros ->. split; [reflexivity|].
    match goal with
    | Ha : Modem.await _ _ _ _ _ = Some true |- _ =>
        apply await_verdict in Ha; destruct Ha as [Ha _]; exact (Ha eq_refl)
    end.
  - split; [reflexivity|]. split; [reflexivity|]. discriminate.
Qed.

Lemma sms_text_after_prompt_witness :
  Modem.sendSMS Modem.obliging EMERGENCY_PHONE "help" Modem.fresh = Some (true, sms_sent)
  /\ prompted Modem.obliging = true.
Proof.
  assert (H : Modem.sendSMS Modem.obliging EMERGENCY_PHONE "help" Modem.fresh
              = Some (true, sms_sent)) by (vm_compute; reflexivity).
  split; [exact H|].
  destruct (sms_text_after_prompt _ _ _ _ _ _ H) as (_ & _ & Hok).
  exact (proj1 (Hok eq_refl)).
Defined.

(** ** The modem calls under the watchdog *)

Lemma returns_as_refl {A : Type} (m : Modem.M A) : returns_as m m.
Proof. intros g r H. exact H. Qed.

Lemma returns_as_bind {A B : Type} (m1 m2 : Modem.M A) (f1 f2 : A -> Modem.M B) :
  returns_as m1 m2 -> (forall a, returns_as (f1 a) (f2 a)) ->
  returns_as (Modem.bind m1 f1) (Modem.bind m2 f2).
Proof.
  intros Hm Hf g r. unfold Modem.bind.
  destruct (m1 g) as [[a g1]|] eqn:E; [|discriminate].
  rewrite (Hm g (a, g1) E). apply Hf.
Qed.

Lemma returns_as_lift {A : Type} (o1 o2 : option A) :
  (forall a, o1 = Some a -> o2 = Some a) ->
  returns_as (Modem.lift o1) (Modem.lift o2).
Proof.
  intros H g r. unfold Modem.lift.
  destruct o1 as [a|]; [|discriminate]. rewrite (H a eq_refl). auto.
Qed.

(** A loop that ends on the turns the watchdog leaves it ends in the same
    way on all the turns. *)
Lemma await_before_restart (expected : string) (timeout start fed : Z)
    (ts : list (Modem.Tick ascii)) (response : string) (b : bool) :
  Modem.await expected timeout start (before_restart fed ts) response = Some b ->
  Modem.await expected timeout start ts response = Some b.
Proof.
  revert response. induction ts as [|t rest IH]; intros response; [auto|].
  cbn [before_restart].
  destruct (watchdog_expired _); [discriminate|].
  cbn [Modem.await]. destruct (_ <? timeout); [|auto].
  destruct (contains _ expected); [auto|].
  destruct (contains _ "ERROR"); [auto|]. apply IH.
Qed.

Lemma await_prompt_before_restart (start fed : Z) (ts : list (Modem.Tick ascii))
    (b : bool) :
  Modem.await_prompt start (before_restart fed ts) = Some b ->
  Modem.await_prompt start ts = Some b.
Proof.
  induction ts as [|t rest IH]; [auto|].
  cbn [before_restart].
  destruct (watchdog_expired _); [discriminate|].
  cbn [Modem.await_prompt]. destruct (_ <? 3000); [|auto].
  destruct (Modem.tickData t) as [c|]; [|exact IH].
  destruct (Ascii.eqb c ">"); [auto|exact IH].
Qed.

Lemma await_download_before_restart (start fed : Z) (ts : list (Modem.Tick string))
    (b : bool) :
  Modem.await_download start (before_restart fed ts) = Some b ->
  Modem.await_download start ts = Some b.
Proof.
  induction ts as [|t rest IH]; [auto|].
  cbn [before_restart].
  destruct (watchdog_expired _); [discriminate|].
  cbn [Modem.await_download]. destruct (_ <? 3000); [|auto].
  destruct (Modem.tickData t) as [c|]; [|exact IH].
  destruct (contains c "DOWNLOAD"); [auto|exact IH].
Qed.

Lemma await_action_before_restart (start fed : Z) (ts : list (Modem.Tick string))
    (n : nat) (r : bool * nat) :
  Modem.await_action start (before_restart fed ts) n = Some r ->
  Modem.await_action start ts n = Some r.
Proof.
  revert n. induction ts as [|t rest IH]; intros n; [auto|].
  cbn [before_restart].
  destruct (watchdog_expired _); [discriminate|].
  cbn [Modem.await_action]. destruct (_ <? 30000); [|auto].
  destruct (Modem.tickData t) as [c|]; [|apply IH].
  destruct (contains c "+HTTPACTION:"); [auto|apply IH].
Qed.

Lemma sendATCommand_watched (fed : Z) (w : Modem.Wait ascii) (cmd expected : string)
    (timeout : Z) :
  returns_as (Modem.sendATCommand (watched_wait fed w) cmd expected timeout)
             (Modem.sendATCommand w cmd expected timeout).
Proof.
  unfold Modem.sendATCommand. apply returns_as_bind; [apply returns_as_refl|].
  intros _. apply returns_as_lift. intros b. apply await_before_restart.
Qed.

(** One step of the comparison of a call under the watchdog with the call
    itself. *)
Ltac watched_step :=
  first
    [ apply sendATCommand_watched
    | apply returns_as_lift; intros ?;
      first [ apply await_before_restart | apply await_prompt_before_restart
            | apply await_download_before_restart | apply await_action_before_restart ]
    | apply returns_as_bind; [|intros ?]
    | match goal with
      | |- returns_as (if ?c then _ else _) (if ?c then _ else _) => destruct c
      end
    | apply returns_as_refl ].

Lemma initGPRS_watched (fed : Z) (env : Modem.Line) :
  returns_as (Modem.initGPRS (watched fed env)) (Modem.initGPRS env).
Proof.
  unfold Modem.initGPRS.
  cbn [watched Modem.chars Modem.chunks Modem.buffered].
  repeat watched_step.
Qed.

Lemma sendDataViaGSM_watched (fed : Z) (env : Modem.Line) (jsonPayload : string) :
  returns_as (Modem.sendDataViaGSM (watched fed env) jsonPayload)
             (Modem.sendDataViaGSM env jsonPayload).
Proof.
  unfold Modem.sendDataViaGSM.
  apply returns_as_bind; [apply returns_as_refl|]. intros up.
  apply returns_as_bind.
  { destruct (negb up); [apply initGPRS_watched|apply returns_as_refl]. }
  intros ready.
  cbn [watched Modem.chars Modem.chunks Modem.buffered watched_wait
       Modem.startTime Modem.ticks].
  repeat watched_step.
Qed.

Lemma sendSMS_watched (fed : Z) (env : Modem.Line) (num msg : string) :
  returns_as (Modem.sendSMS (watched fed env) num msg) (Modem.sendSMS env num msg).
Proof.
  unfold Modem.sendSMS.
  cbn [watched Modem.chars Modem.chunks Modem.buffered watched_wait
       Modem.startTime Modem.ticks].
  repeat watched_step.
Qed.

(** The response wait does not reach its deadline under a watchdog fed
    before it began: if it ends, it has read a report. *)
Lemma await_action_reported (start fed : Z) (ts : list (Modem.Tick string))
    (n : nat) (r : bool * nat) :
  Forall (fun t => usub (Modem.tickClock t) start <= usub (Modem.tickClock t) fed) ts ->
  Modem.await_action start (before_restart fed ts) n = Some r ->
  existsb (fun resp => contains resp "+HTTPACTION:")
          (omap Modem.tickData (Modem.in_time 30000 start ts)) = true.
Proof.
  intros Hfed. revert n.
  induction Hfed as [|t rest Ht _ IH]; intros n; [discriminate|].
  cbn [before_restart]. unfold watchdog_expired, WDT_TIMEOUT.
  destruct (Z.leb_spec (30 * 1000) (usub (Modem.tickClock t) fed)) as [|Halive];
    [discriminate|].
  cbn [Modem.await_action Modem.in_time].
  destruct (Z.ltb_spec (usub (Modem.tickClock t) start) 30000) as [_|Hout]; [|lia].
  cbn [omap list_omap].
  destruct (Modem.tickData t) as [resp|]; [|apply IH].
  cbn [existsb].
  destruct (contains resp "+HTTPACTION:"); [reflexivity|apply IH].
Qed.

Lemma under_watchdog_inv {A : Type} (fed : Z) (call : Modem.Line -> Modem.M A)
    (env : Modem.Line) (g : Modem.Gsm) (r : A * Modem.Gsm) :
  under_watchdog fed call env g = Some r ->
  call (watched fed env) g = Some r
  /\ paused (Modem.wire (snd r)) - paused (Modem.wire g) < WDT_TIMEOUT * 1000.
Proof.
  unfold under_watchdog, watchdog_expired.
  destruct (call (watched fed env) g) as [[a g']|]; [|discriminate].
  destruct (Z.leb_spec (WDT_TIMEOUT * 1000)
              (paused (Modem.wire g') - paused (Modem.wire g))); [discriminate|].
  intros [= <-]. split; [reflexivity|assumption].
Qed.

(** The watchdog and the modem calls.  [fed] is the time at which line 257
    last ran.  A GPRS upload and an SMS that return under the watchdog
    return what the code computes without it, and have spent less than
    the period in [delay()]: the watchdog changes no result, it keeps
    calls from returning.  And an upload that has written the payload
    returns only if the response wait of lines 603-620 has read the
    modem's report on the HTTP action: the 30 s deadline of that wait is
    as long as the watchdog period, so that a wait which would end by its
    deadline is ended by the restart of the chip instead. *)
Theorem modem_calls_under_watchdog (fed : Z) (env : Modem.Line)
    (jsonPayload num msg : string) (g : Modem.Gsm) :
  (forall ok g',
     under_watchdog fed (fun e => Modem.sendDataViaGSM e jsonPayload) env g
     = Some (ok, g') ->
     Modem.sendDataViaGSM env jsonPayload g = Some (ok, g')
     /\ paused (Modem.wire g') - paused (Modem.wire g) < WDT_TIMEOUT * 1000)
  /\ (forall ok g',
        under_watchdog fed (fun e => Modem.sendSMS e num msg) env g = Some (ok, g') ->
        Modem.sendSMS env num msg g = Some (ok, g')
        /\ paused (Modem.wire g') - paused (Modem.wire g) < WDT_TIMEOUT * 1000)
  /\ (fed_before fed (Modem.chunks env 603) ->
      forall ok g',
        under_watchdog fed (fun e => Modem.sendDataViaGSM e jsonPayload) env g
        = Some (ok, g') ->
        exists t,
          Modem.wire g' = Modem.wire g ++ t
          /\ (Modem.printed t = [jsonPayload] -> action_reported env = true)).
Proof.
  split.
  { intros ok g' H. apply under_watchdog_inv in H. destruct H as [H Hp].
    split; [exact (sendDataViaGSM_watched fed env jsonPayload g _ H)|exact Hp]. }
  split.
  { intros ok g' H. apply under_watchdog_inv in H. destruct H as [H Hp].
    split; [exact (sendSMS_watched fed env num msg g _ H)|exact Hp]. }
  intros Hfed ok g' H. apply under_watchdog_inv in H. destruct H as [H _].
  assert (Hrep : forall n r,
            Modem.await_action (Modem.startTime (Modem.chunks (watched fed env) 603))
                               (Modem.ticks (Modem.chunks (watched fed env) 603)) n
            = Some r ->
            action_reported env = true).
  { intros n r. cbn [watched Modem.chunks watched_wait Modem.startTime Modem.ticks].
    apply await_action_reported. exact Hfed. }
  unfold Modem.sendDataViaGSM in H.
  repeat modem_step; subst; try discriminate;
    repeat match goal with
           | H : Modem.initGPRS _ _ = Some _ |- _ =>
               apply initGPRS_spec in H; destruct H as (ti & Hw & Hp & _ & _)
           end;
    cbn [Modem.wire Modem.gprsConnected]; rewrite ?Hw; rewrite <- ?app_assoc;
    (eexists; split; [reflexivity|]);
    rewrite ?printed_app, ?Hp, ?printed_pauses;
    cbn [Modem.printed omap Modem.raw_of app option_bind mbind list_omap];
    intros Hpr; first [discriminate Hpr | eapply Hrep; eassumption].
Qed.

(** An obliging modem, the watchdog fed when the call begins: the upload
    returns as it does without the watchdog, and the report was read.
    With a server that does not answer, the code alone ends the response
    wait at its deadline and returns failure; under the watchdog the call
    does not return.  Nor does it when the report comes after 400 turns
    of the response wait, each with its [delay(100)]. *)
Lemma modem_calls_under_watchdog_witness :
  fed_before 0 (Modem.chunks Modem.obliging 603)
  /\ under_watchdog 0 (fun e => Modem.sendDataViaGSM e "{}") Modem.obliging Modem.fresh
     = Some (true, uploaded_over_gprs)
  /\ Modem.sendDataViaGSM Modem.obliging "{}" Modem.fresh = Some (true, uploaded_over_gprs)
  /\ action_reported Modem.obliging = true
  /\ (exists g', Modem.sendDataViaGSM silent_server "{}" Modem.fresh = Some (false, g'))
  /\ under_watchdog 0 (fun e => Modem.sendDataViaGSM e "{}") silent_server Modem.fresh
     = None
  /\ (exists g', Modem.sendDataViaGSM slow_report "{}" Modem.fresh = Some (true, g')
                 /\ paused (Modem.wire g') = 42500)
  /\ under_watchdog 0 (fun e => Modem.sendDataViaGSM e "{}") slow_report Modem.fresh
     = None.
Proof.
  assert (Hfed : fed_before 0 (Modem.chunks Modem.obliging 603)).
  { unfold fed_before. repeat constructor; vm_compute; discriminate. }
  assert (Hup : under_watchdog 0 (fun e => Modem.sendDataViaGSM e "{}") Modem.obliging
                               Modem.fresh
                = Some (true, uploaded_over_gprs)) by (vm_compute; reflexivity).
  pose proof (modem_calls_under_watchdog 0 Modem.obliging "{}" EMERGENCY_PHONE "help"
                Modem.fresh) as (Hsame & _ & Hreport).
  split; [exact Hfed|]. split; [exact Hup|].
  split; [exact (proj1 (Hsame true uploaded_over_gprs Hup))|].
  split.
  - destruct (Hreport Hfed true uploaded_over_gprs Hup) as (t & Hw & Hrep).
    apply Hrep. apply (app_inv_head (Modem.wire Modem.fresh)) in Hw.
    rewrite <- Hw. vm_compute. reflexivity.
  - split; [eexists; vm_compute; reflexivity|].
    split; [vm_compute; reflexivity|].
    split; [eexists; split; vm_compute; reflexivity|vm_compute; reflexivity].
Defined.

(** * The device identifier *)

Lemma digit_value_hex (n : Z) : 0 <= n < 16 -> digit_value (hex_digit n) = n.
Proof.
  intros Hn. unfold digit_value, hex_digit.
  rewrite nat_ascii_embedding by (destruct (n <? 10); lia).
  destruct (Z.ltb_spec n 10) as [Hlt|Hge].
  - rewrite Z2Nat.id by lia. destruct (Z.ltb_spec (48 + n) 58); lia.
  - rewrite Z2Nat.id by lia. destruct (Z.ltb_spec (55 + n) 58); lia.
Qed.

Lemma hex2_inj (a b : Z) : is_byte a -> is_byte b -> hex2 a = hex2 b -> a = b.
Proof.
  unfold is_byte, hex2. intros Ha Hb [= Hhi Hlo].
  assert (Hdiv : forall x, 0 <= x < 256 -> 0 <= x / 16 < 16)
    by (intros x Hx; split; [apply Z.div_pos; lia|apply Z.div_lt_upper_bound; lia]).
  assert (Hmod : forall x, 0 <= x mod 16 < 16) by (intros x; apply Z.mod_pos_bound; lia).
  apply (f_equal digit_value) in Hhi. apply (f_equal digit_value) in Hlo.
  rewrite !digit_value_hex in Hhi by auto.
  rewrite !digit_value_hex in Hlo by auto.
  rewrite (Z.div_mod a 16), (Z.div_mod b 16) by lia. congruence.
Qed.

Lemma macStr_inj (mac mac' : list Z) :
  Forall is_byte mac -> Forall is_byte mac' -> macStr mac = macStr mac' -> mac = mac'.
Proof.
  intros Hb. revert mac'. induction Hb as [|a rest Ha Hrest IH]; intros mac' Hb'.
  - destruct mac' as [|a' rest']; [reflexivity|discriminate].
  - destruct Hb' as [|a' rest' Ha' Hrest']; [discriminate|].
    cbn [macStr hex2 String.append]. intros [= Hhi Hlo Htail].
    assert (a = a') as <- by (apply hex2_inj; [assumption..|unfold hex2; congruence]).
    f_equal. apply IH; assumption.
Qed.

Lemma macStr_length (mac : list Z) :
  String.length (macStr mac) = (2 * length mac)%nat.
Proof.
  induction mac as [|b rest IH]; [reflexivity|].
  cbn [macStr hex2 String.append String.length length]. rewrite IH. lia.
Qed.

(** The identifier that [setup] derives from the MAC address has twelve
    characters, and two devices have the same identifier only if they have
    the same address. *)
Theorem device_id_unique (mac mac' : list Z) :
  is_mac mac -> is_mac mac' ->
  String.length (macStr mac) = 12%nat
  /\ (deviceId (boot (macStr mac) true) = deviceId (boot (macStr mac') true) ->
      mac = mac').
Proof.
  intros [Hlen Hb] [Hlen' Hb'].
  split; [rewrite macStr_length, Hlen; reflexivity|].
  cbn [boot deviceId]. apply macStr_inj; assumption.
Qed.

Lemma device_id_unique_witness :
  is_mac [36; 10; 196; 0; 1; 26]
  /\ String.length (macStr [36; 10; 196; 0; 1; 26]) = 12%nat.
Proof.
  assert (H : is_mac [36; 10; 196; 0; 1; 26])
    by (split; [reflexivity|repeat constructor; unfold is_byte; lia]).
  split; [exact H|].
  exact (proj1 (device_id_unique _ _ H H)).
Defined.

Example device_id_of_mac : macStr [36; 10; 196; 0; 1; 26] = "240AC400011A"%string.
Proof. reflexivity. Qed.

(** * Readings that wait for the network *)

Lemma keeps_waiting_refl (q : Queue) : keeps_waiting q q.
Proof. intros i s Hs Hp. exists s. auto. Qed.

Lemma keeps_waiting_trans (q1 q2 q3 : Queue) :
  keeps_waiting q1 q2 -> keeps_waiting q2 q3 -> keeps_waiting q1 q3.
Proof.
  intros H12 H23 i s Hs Hp.
  destruct (H12 i s Hs Hp) as (s2 & Hs2 & Hp2). exact (H23 i s2 Hs2 Hp2).
Qed.

Lemma nothing_resent_refl (l : Log) : nothing_resent l l.
Proof. exists []. rewrite app_nil_r. split; [reflexivity|constructor]. Qed.

Lemma nothing_resent_trans (l1 l2 l3 : Log) :
  nothing_resent l1 l2 -> nothing_resent l2 l3 -> nothing_resent l1 l3.
Proof.
  intros (t & -> & Ht) (u & -> & Hu). exists (t ++ u).
  split; [rewrite app_assoc; reflexivity|].
  rewrite uploads_app. apply Forall_app. auto.
Qed.

(** Output that carries no document. *)
Lemma nothing_resent_plain (l t : Log) :
  uploads t = [] -> nothing_resent l (l ++ t).
Proof. intros H. exists t. split; [reflexivity|]. rewrite H. constructor. Qed.

Lemma sendSMS_resent (reply : SmsReply) (num : string) (msg : SmsText) (l : Log) :
  nothing_resent l (fst (sendSMS reply num msg l)).
Proof. destruct reply; apply nothing_resent_plain; reflexivity. Qed.

Lemma triggerEmergency_resent (reply : SmsReply) (now : Z) (msg : SmsText)
    (e : Emergency) (l : Log) :
  nothing_resent l (snd (triggerEmergency reply now msg (e, l))).
Proof.
  unfold triggerEmergency. destruct (_ || _); [apply nothing_resent_refl|].
  pose proof (sendSMS_resent reply EMERGENCY_PHONE msg l) as H.
  destruct (sendSMS _ _ _ _). exact H.
Qed.

Lemma checkForIncomingSMS_resent (inp : SerialIn) (e : Emergency) (l : Log) :
  nothing_resent l (snd (checkForIncomingSMS inp (e, l))).
Proof.
  unfold checkForIncomingSMS.
  destruct (rx inp) as [data|]; [|apply nothing_resent_refl].
  destruct (contains data "+CMTI:"); [|apply nothing_resent_refl].
  set (index := toInt _).
  assert (H1 : nothing_resent l (l ++ [AtCmgr index; Delay 500]))
    by (apply nothing_resent_plain; reflexivity).
  destruct (contains (cmgrReply inp) "OK" || contains (cmgrReply inp) "ok");
    [|destruct (contains (cmgrReply inp) "Resume" || contains (cmgrReply inp) "resume")];
    cbn [snd];
    repeat first
      [ exact H1
      | apply nothing_resent_plain; reflexivity
      | apply sendSMS_resent
      | eapply nothing_resent_trans ].
Qed.

Lemma monitor_call_resent (callStart : Z) (polls rest : list Poll)
    (e e' : Emergency) (l l' : Log) (x : MonitorExit) :
  monitor_call callStart polls (e, l) = Some (x, (e', l'), rest) ->
  nothing_resent l l'.
Proof.
  revert e l. induction polls as [|p more IH]; intros e l; [discriminate|].
  rewrite monitor_call_cons.
  destruct (usub (pollClock p) callStart <? 25000);
    [|intros [= _ _ <- _]; apply nothing_resent_refl].
  pose proof (checkForIncomingSMS_resent (pollSerial p) e l) as Hsms.
  destruct (checkForIncomingSMS (pollSerial p) (e, l)) as [e1 l1]. cbn [snd] in Hsms.
  assert (Hath : forall k, nothing_resent k (k ++ [Ath]))
    by (intros k; apply nothing_resent_plain; reflexivity).
  assert (Hclcc : nothing_resent l (l1 ++ [AtClcc; Delay 500])).
  { eapply nothing_resent_trans; [exact Hsms|].
    apply nothing_resent_plain. reflexivity. }
  destruct (emergencyHandled e1).
  { intros [= _ _ <- _]. eapply nothing_resent_trans; [exact Hsms|apply Hath]. }
  destruct (clccReply p) as [resp|].
  - destruct (contains resp "+CLCC: 1,0,0,0,0").
    + intros [= _ _ <- _]. eapply nothing_resent_trans; [exact Hclcc|apply Hath].
    + intros H. eapply nothing_resent_trans; [exact Hclcc|exact (IH _ _ H)].
  - intros H. eapply nothing_resent_trans; [exact Hclcc|exact (IH _ _ H)].
Qed.

Lemma handleEmergencyCalls_resent (ck : Clock) (polls : list Poll)
    (e e' : Emergency) (l l' : Log) :
  handleEmergencyCalls ck polls (e, l) = Some (e', l') -> nothing_resent l l'.
Proof.
  unfold handleEmergencyCalls.
  destruct (negb (emergencyActive e) || emergencyHandled e);
    [intros [= _ <-]; apply nothing_resent_refl|].
  destruct (CALL_INTERVAL <=? _); [|intros [= _ <-]; apply nothing_resent_refl].
  assert (Hatd : nothing_resent l (l ++ [Atd EMERGENCY_PHONE]))
    by (apply nothing_resent_plain; reflexivity).
  destruct (monitor_call _ _ _) as [[[x [e2 l2]] rest]|] eqn:E; [|discriminate].
  apply monitor_call_resent in E.
  pose proof (nothing_resent_trans _ _ _ Hatd E) as H2.
  destruct x; try (intros [= _ <-]; exact H2).
  destruct (negb (emergencyHandled e2) && emergencyActive e2);
    intros [= _ <-]; [|exact H2].
  eapply nothing_resent_trans; [exact H2|]. apply nothing_resent_plain. reflexivity.
Qed.

Lemma upload_resent (env : UploadEnv) (payload : JsonDoc) (l : Log) :
  has_key payload "queued" = false ->
  nothing_resent l (fst (upload env payload l)).
Proof.
  intros Hk. destruct (upload_uploads env payload l) as (t & -> & Hall).
  exists t. split; [reflexivity|].
  eapply Forall_impl; [exact Hall|]. intros doc <-. exact Hk.
Qed.

(** Storing a reading keeps every waiting slot waiting. *)
Lemma queueData_keeps (hr spo2 : Q) (m : Motion) (q q' : Queue) :
  queueData hr spo2 m q = Some q' -> keeps_waiting q q'.
Proof.
  unfold queueData.
  destruct (dataQueue q !! Z.to_nat (queueHead q)) as [old|] eqn:E; [|discriminate].
  intros [= <-] i s Hs Hp. cbn [dataQueue].
  destruct (decide (i = Z.to_nat (queueHead q))) as [->|Hne].
  - exists (mkSensorData hr spo2 m true). split; [|reflexivity].
    apply list_lookup_insert_eq. eapply lookup_lt_Some. exact E.
  - exists s. split; [|exact Hp].
    rewrite list_lookup_insert_ne by congruence. exact Hs.
Qed.

Lemma cloud_waits (env : CloudEnv) (hr spo2 : Q) (m : Motion) (d d' : Device) :
  cloud env hr spo2 m d = Some d' ->
  net d' = net d
  /\ keeps_waiting (queue d) (queue d') /\ nothing_resent (log d) (log d').
Proof.
  unfold cloud, on_store, sendDataToCloud.
  pose proof (upload_resent (network env)
                (cloud_doc (deviceId d) (cloudClock env) hr spo2 m) (log d) eq_refl) as Hl.
  destruct (upload _ _ _) as [l1 ok]. cbn [fst] in Hl.
  destruct ok.
  - intros [= <-]. split; [reflexivity|]. split; [apply keeps_waiting_refl|exact Hl].
  - destruct (queueData hr spo2 m (queue d)) as [q'|] eqn:E; [|discriminate].
    intros [= <-]. split; [reflexivity|].
    split; [exact (queueData_keeps _ _ _ _ _ E)|exact Hl].
Qed.

Lemma trigger_waits (env : TriggerEnv) (msg : SmsText) (d : Device) :
  net (trigger env msg d) = net d
  /\ queue (trigger env msg d) = queue d
  /\ nothing_resent (log d) (log (trigger env msg d)).
Proof.
  unfold trigger, on_alarm.
  pose proof (triggerEmergency_resent (smsReply env) (triggerClock env) msg
                (emergency d) (log d)) as H.
  destruct (triggerEmergency _ _ _ _) as [e l]. auto.
Qed.

Lemma waits_refl (d : Device) : waits d d.
Proof. split; [apply keeps_waiting_refl|apply nothing_resent_refl]. Qed.

Lemma waits_trans (d1 d2 d3 : Device) : waits d1 d2 -> waits d2 d3 -> waits d1 d3.
Proof.
  intros [Hq Hl] [Hq' Hl'].
  split; [eapply keeps_waiting_trans|eapply nothing_resent_trans]; eassumption.
Qed.

Lemma waits_same (d d' : Device) : queue d' = queue d -> log d' = log d -> waits d d'.
Proof.
  intros Hq Hl. unfold waits. rewrite Hq, Hl.
  split; [apply keeps_waiting_refl|apply nothing_resent_refl].
Qed.

Lemma alarm_waits (tenv : TriggerEnv) (cenv : CloudEnv) (msg : SmsText)
    (hr spo2 : Q) (m : Motion) (d d' : Device) :
  cloud cenv hr spo2 m (trigger tenv msg d) = Some d' -> waits d d'.
Proof.
  intros H. destruct (cloud_waits _ _ _ _ _ _ H) as (_ & Hq & Hl).
  destruct (trigger_waits tenv msg d) as (_ & Hq0 & Hl0).
  rewrite Hq0 in Hq. split; [exact Hq|].
  eapply nothing_resent_trans; eassumption.
Qed.

Lemma detect_fall_waits (ck : Clock) (env : AlertEnv) (a g : Q) (r : Reported)
    (m : Motion) (d d' : Device) :
  detect_fall ck env a g r m d = Some d' -> waits d d'.
Proof.
  unfold detect_fall.
  destruct (fall_confirm _ _ _ _ _ _) as [d1|] eqn:E; [|discriminate].
  intros [= <-].
  assert (H1 : waits d d1).
  { revert E. unfold fall_confirm, fall_impact.
    repeat match goal with
           | |- context [if ?c then _ else _] => destruct c
           end;
      try (intros [= <-]; apply waits_same; reflexivity);
      intros H; apply alarm_waits in H; exact H. }
  eapply waits_trans; [exact H1|].
  unfold fall_timeout. destruct (_ && _); apply waits_same; reflexivity.
Qed.

Lemma detect_vitals_waits (env : AlertEnv) (f : bool) (r : Reported) (m : Motion)
    (d d' : Device) :
  detect_vitals env f r m d = Some d' -> waits d d'.
Proof.
  unfold detect_vitals.
  repeat match goal with
         | |- context [if ?c then _ else _] => destruct c
         end;
    try (intros [= <-]; apply waits_refl);
    intros H; apply alarm_waits in H; exact H.
Qed.

Lemma escalate_waits (inp : LoopIn) (d d' : Device) :
  escalate inp d = Some d' -> waits d d'.
Proof.
  unfold escalate. destruct (_ && _); [|intros [= <-]; apply waits_refl].
  destruct (handleEmergencyCalls _ _ _) as [[e l]|] eqn:E; [|discriminate].
  intros [= <-]. split; [apply keeps_waiting_refl|].
  exact (handleEmergencyCalls_resent _ _ _ _ _ _ E).
Qed.

Lemma triggerManualEmergency_waits (env : AlertEnv) (r : Reported) (m : Motion)
    (d : Device) :
  waits d (triggerManualEmergency env r m d).
Proof.
  unfold triggerManualEmergency.
  set (d1 := set_emergency _ d). set (d2 := set_log _ d1).
  destruct (trigger_waits (alertTrigger env)
              (WithVitals "MANUAL EMERGENCY TEST! HR: "
                 (if Qltb 0 (currentHR r) then currentHR r else 75%Q)
                 (if Qltb 0 (currentSpO2 r) then currentSpO2 r else 98%Q)) d2)
    as (_ & Hq & Hl).
  split; [rewrite Hq; apply keeps_waiting_refl|].
  eapply nothing_resent_trans; [|exact Hl].
  unfold d2, d1, sendEmergencyDataToCloud. cbn [log set_log set_emergency deviceId].
  apply upload_resent. reflexivity.
Qed.

Lemma checkManualEmergencyTrigger_waits (ck : Clock) (inp : ManualIn)
    (r : Reported) (m : Motion) (d : Device) :
  waits d (checkManualEmergencyTrigger ck inp r m d).
Proof.
  unfold checkManualEmergencyTrigger.
  set (d1 := match serialCmd inp with Some _ => _ | None => _ end).
  assert (H1 : waits d d1).
  { unfold d1. destruct (serialCmd inp) as [c|]; [|apply waits_refl].
    destruct (is_char c "E" "e"); [apply triggerManualEmergency_waits|].
    destruct (is_char c "R" "r"); [apply waits_same; reflexivity|apply waits_refl]. }
  eapply waits_trans; [exact H1|].
  destruct (buttonLow inp); [|apply waits_same; reflexivity].
  destruct (2000 <=? _); [|apply waits_same; reflexivity].
  set (d2 := set_button _ d1).
  eapply waits_trans; [apply (waits_same d1 d2); reflexivity|].
  eapply waits_trans; [apply triggerManualEmergency_waits|].
  split; [apply keeps_waiting_refl|]. apply nothing_resent_plain. reflexivity.
Qed.

Lemma periodic_upload_waits (inp : LoopIn) (r : Reported) (d d' : Device) :
  periodic_upload inp r d = Some d' -> waits d d'.
Proof.
  unfold periodic_upload. destruct (DATA_INTERVAL <=? _); [|intros [= <-]; apply waits_refl].
  intros H. destruct (cloud_waits _ _ _ _ _ _ H) as (_ & Hq & Hl). split; assumption.
Qed.

Lemma check_wifi_waits (inp : LoopIn) (d : Device) :
  reconnects inp d = false -> waits d (check_wifi inp d).
Proof.
  unfold reconnects, check_wifi.
  destruct (wlStatus inp); destruct (wifiConnected (net d)); cbn [is_connected negb andb];
    try discriminate; intros _;
    repeat match goal with
           | |- context [if ?c then _ else _] => destruct c
           end;
    try (apply waits_same; reflexivity);
    (split; [apply keeps_waiting_refl|apply nothing_resent_plain; reflexivity]).
Qed.

(** Readings that wait in the queue are sent again only by the pass that
    sees WiFi come back.  In every other pass that completes, whatever the
    network does, each waiting slot is still waiting at the end and no
    queued reading is among the documents uploaded. *)
Theorem resend_waits_for_reconnect (inp : LoopIn) (d d' : Device) :
  loop inp d = Some d' ->
  reconnects inp d = false ->
  keeps_waiting (queue d) (queue d') /\ nothing_resent (log d) (log d').
Proof.
  unfold loop. intros H Hre.
  pose proof (check_wifi_waits inp d Hre) as H1.
  destruct (read_vitals _ _ _) as [[v f] r]. cbn beta iota in H.
  set (d2 := set_vitals v (check_wifi inp d)) in *.
  destruct (detect_fall _ _ _ _ _ _ d2) as [d3|] eqn:E3; [|discriminate]. simpl in H.
  destruct (detect_vitals _ _ _ _ d3) as [d4|] eqn:E4; [|discriminate]. simpl in H.
  destruct (escalate _ d4) as [d5|] eqn:E5; [|discriminate]. simpl in H.
  apply detect_fall_waits in E3. apply detect_vitals_waits in E4.
  apply escalate_waits in E5. apply periodic_upload_waits in H.
  assert (H6 : waits d5 (on_alarm (checkForIncomingSMS (serial inp)) d5)).
  { unfold on_alarm.
    pose proof (checkForIncomingSMS_resent (serial inp) (emergency d5) (log d5)) as Hs.
    destruct (checkForIncomingSMS _ _) as [e l].
    split; [apply keeps_waiting_refl|exact Hs]. }
  pose proof (checkManualEmergencyTrigger_waits (clock inp) (manual inp) r (motion inp)
                (on_alarm (checkForIncomingSMS (serial inp)) d5)) as H7.
  assert (H2 : waits (check_wifi inp d) d2) by (apply waits_same; reflexivity).
  exact (waits_trans _ _ _ H1 (waits_trans _ _ _ H2 (waits_trans _ _ _ E3
          (waits_trans _ _ _ E4 (waits_trans _ _ _ E5 (waits_trans _ _ _ H6
          (waits_trans _ _ _ H7 H))))))).
Qed.

Lemma resend_waits_for_reconnect_witness :
  loop (pass 130000 (pulse_in 100 false) 10 0) holding_one = Some after_connected_pass
  /\ reconnects (pass 130000 (pulse_in 100 false) 10 0) holding_one = false
  /\ keeps_waiting (queue holding_one) (queue after_connected_pass).
Proof.
  assert (H : loop (pass 130000 (pulse_in 100 false) 10 0) holding_one
              = Some after_connected_pass) by (vm_compute; reflexivity).
  split; [exact H|]. split; [reflexivity|].
  exact (proj1 (resend_waits_for_reconnect _ _ _ H eq_refl)).
Defined.

(** With WiFi up the whole time and the server answering, the scheduled
    upload of the pass goes through and the reading that waits stays where
    it is. *)
Example connected_pass_leaves_queue :
  map pending (dataQueue (queue after_connected_pass)) = [true; false; false; false; false]
  /\ length (uploads (log after_connected_pass)) = 1%nat
  /\ Forall (fun doc => has_key doc "queued" = false) (uploads (log after_connected_pass)).
Proof.
  split; [reflexivity|]. split; [reflexivity|]. repeat constructor.
Qed.

(** * Time across the overflow of [millis()] *)

Lemma usub_elapsed (t0 elapsed : Z) :
  0 <= elapsed < two32 -> usub (u32 (t0 + elapsed)) (u32 t0) = elapsed.
Proof.
  intros H. unfold usub, u32.
  rewrite <- Zminus_mod.
  replace (t0 + elapsed - t0) with elapsed by lia.
  apply Z.mod_small. exact H.
Qed.

(** The two schedules of the firmware measure the time that has really
    passed, also when [millis()] has overflowed in between (every 49.7
    days), as long as less than one full period of the counter has passed:
    the scheduled upload runs exactly when at least [DATA_INTERVAL] has
    passed since the previous one, and a call is due exactly when the
    device is Active and unacknowledged and at least [CALL_INTERVAL] has
    passed since the last call. *)
Theorem schedules_survive_overflow (t0 elapsed : Z) (inp : LoopIn) (r : Reported)
    (d : Device) (ck : Clock) (e : Emergency) :
  0 <= elapsed < two32 ->
  (previousMillis d = u32 t0 -> clock inp 462 = u32 (t0 + elapsed) ->
   periodic_upload inp r d
   = if DATA_INTERVAL <=? elapsed
     then cloud (periodic inp) (currentHR r) (currentSpO2 r) (motion inp)
                (set_previousMillis (u32 (t0 + elapsed)) d)
     else Some d)
  /\ (lastCallTime e = u32 t0 -> ck 899 = u32 (t0 + elapsed) ->
      call_due ck e
      = emergencyActive e && negb (emergencyHandled e) && (CALL_INTERVAL <=? elapsed)).
Proof.
  intros Hel. split.
  - intros Hprev Hck. unfold periodic_upload. rewrite Hprev, Hck.
    assert (Hu : u32 (u32 (t0 + elapsed)) = u32 (t0 + elapsed))
      by (unfold u32; apply Z.mod_mod; unfold two32; lia).
    rewrite Hu, (usub_elapsed t0 elapsed Hel). reflexivity.
  - intros Hlast Hck. unfold call_due. rewrite Hlast, Hck.
    rewrite (usub_elapsed t0 elapsed Hel). reflexivity.
Qed.

Lemma schedules_survive_overflow_witness :
  previousMillis before_overflow = u32 (two32 - 50000)
  /\ true_time (two32 + 70000) 462 = 70000
  /\ periodic_upload (pass_with_clock (true_time (two32 + 70000))) (mkReported 0 0)
                     before_overflow
     = cloud (mkCloudEnv net_up 0) 0 0 resting (set_previousMillis 70000 before_overflow).
Proof.
  split; [reflexivity|]. split; [reflexivity|].
  exact (proj1 (schedules_survive_overflow (two32 - 50000) 120000
                  (pass_with_clock (true_time (two32 + 70000))) (mkReported 0 0)
                  before_overflow (true_time 0) boot_emergency
                  ltac:(unfold two32; lia)) eq_refl eq_refl).
Defined.

(** * Message notifications *)

Lemma prefix_empty (s : string) : String.prefix EmptyString s = true.
Proof. destruct s; reflexivity. Qed.

Lemma index_first_comma (head rest : string) :
  comma_free head = true ->
  String.index 0 "," (head ++ String "," rest) = Some (String.length head).
Proof.
  unfold comma_free. induction head as [|c head IH].
  - intros _. cbn [String.append String.index String.prefix String.length].
    destruct (ascii_dec "," ","); [|contradiction].
    rewrite prefix_empty. reflexivity.
  - cbn [String.append String.index String.length String.prefix].
    destruct (ascii_dec "," c) as [->|Hne].
    + rewrite prefix_empty. discriminate.
    + destruct (String.index 0 "," head) as [n|] eqn:E; [discriminate|].
      intros _. rewrite (IH eq_refl). reflexivity.
Qed.

Lemma substring_all (s : string) : String.substring 0 (String.length s) s = s.
Proof. induction s as [|c s IH]; [reflexivity|]. simpl. rewrite IH. reflexivity. Qed.

Lemma substring_after (head rest : string) (c : ascii) :
  substringFrom (head ++ String c rest) (Z.of_nat (String.length head) + 1) = rest.
Proof.
  unfold substringFrom.
  replace (Z.to_nat (Z.of_nat (String.length head) + 1)) with (S (String.length head))
    by lia.
  induction head as [|x head IH].
  - cbn [String.append String.length String.substring].
    rewrite Nat.sub_succ, Nat.sub_0_r. apply substring_all.
  - cbn [String.append String.length String.substring].
    rewrite Nat.sub_succ. exact IH.
Qed.

Lemma digit_of_char (d : Z) : is_digit d -> digit_of (digit_char d) = Some d.
Proof.
  unfold is_digit, digit_of, digit_char. intros Hd.
  rewrite nat_ascii_embedding by lia. rewrite Z2Nat.id by lia.
  destruct (Z.leb_spec 48 (48 + d)); [|lia].
  destruct (Z.leb_spec (48 + d) 57); [|lia].
  cbn [andb]. f_equal. lia.
Qed.

Lemma read_digits_numeral (ds : list Z) (tail : string) (acc : Z) :
  Forall is_digit ds -> ends_number tail = true ->
  read_digits (numeral ds ++ tail) acc = fold_left (fun a d => 10 * a + d) ds acc.
Proof.
  intros Hds Htail. revert acc. induction Hds as [|d rest Hd Hrest IH]; intros acc.
  - cbn [numeral String.append fold_left].
    destruct tail as [|c tail]; [reflexivity|].
    cbn [read_digits]. cbn [ends_number] in Htail.
    destruct (digit_of c); [discriminate|reflexivity].
  - cbn [numeral String.append read_digits fold_left].
    rewrite (digit_of_char d Hd). apply IH.
Qed.

Lemma numeral_value_from (ds : list Z) (acc : Z) :
  Forall is_digit ds -> 0 <= acc -> 0 <= fold_left (fun a d => 10 * a + d) ds acc.
Proof.
  intros Hds. revert acc. induction Hds as [|d rest Hd _ IH]; intros acc Hacc.
  - exact Hacc.
  - cbn [fold_left]. apply IH. unfold is_digit in Hd. lia.
Qed.

Lemma saturate_nonneg (z : Z) : 0 <= z -> saturate z = Z.min z LONG_MAX.
Proof. unfold saturate, LONG_MAX, LONG_MIN. lia. Qed.

(** [toInt] reads back a number written in decimal digits, up to the
    largest [long]. *)
Lemma toInt_numeral (ds : list Z) (tail : string) :
  Forall is_digit ds -> ds <> [] -> ends_number tail = true ->
  toInt (numeral ds ++ tail) = Z.min (numeral_value ds) LONG_MAX.
Proof.
  intros Hds Hne Htail.
  rewrite <- saturate_nonneg by (apply numeral_value_from; [assumption|lia]).
  unfold toInt, numeral_value. f_equal.
  rewrite <- (read_digits_numeral ds tail 0 Hds Htail).
  destruct ds as [|d rest]; [contradiction|].
  assert (Hd : is_digit d) by (inversion Hds; assumption).
  unfold is_digit in Hd.
  assert (Hc : d = 0 \/ d = 1 \/ d = 2 \/ d = 3 \/ d = 4 \/ d = 5 \/ d = 6 \/ d = 7
               \/ d = 8 \/ d = 9) by lia.
  destruct Hc as [->|[->|[->|[->|[->|[->|[->|[->|[->| ->]]]]]]]]]; reflexivity.
Qed.

(** The message a notification names is the one that is read and, whatever
    it says, deleted: the index after the first comma of the notification,
    read into a 32-bit [long] (so 2147483647 for every larger number), is
    the index sent with [AT+CMGR] and with [AT+CMGD], and in between at
    most one confirmation SMS is started. *)
Theorem notification_names_message (head tail : string) (ds : list Z)
    (inp : SerialIn) (e : Emergency) (l : Log) :
  comma_free head = true ->
  Forall is_digit ds -> ds <> [] -> ends_number tail = true ->
  rx inp = Some (notification head ds tail) ->
  contains (notification head ds tail) "+CMTI:" = true ->
  let index := Z.min (numeral_value ds) LONG_MAX in
  exists mid,
    snd (checkForIncomingSMS inp (e, l))
    = l ++ [AtCmgr index; Delay 500] ++ mid ++ [AtCmgd index]
    /\ (sms_count mid <= 1)%nat
    /\ dial_count mid = 0%nat.
Proof.
  intros Hhead Hds Hne Htail Hrx Hcmti index.
  unfold checkForIncomingSMS. rewrite Hrx, Hcmti.
  assert (Hidx : toInt (substringFrom (notification head ds tail)
                          (indexOf (notification head ds tail) "," + 1))
                 = index).
  { unfold indexOf, notification.
    rewrite (index_first_comma head _ Hhead), substring_after.
    apply toInt_numeral; assumption. }
  rewrite Hidx.
  destruct (contains (cmgrReply inp) "OK" || contains (cmgrReply inp) "ok");
    [|destruct (contains (cmgrReply inp) "Resume" || contains (cmgrReply inp) "resume")];
    cbn [snd fst]; try destruct (ackReply inp); cbn [sendSMS fst];
    rewrite <- ?app_assoc; cbn [app];
    first [ exists []; split; [reflexivity|]
          | eexists [_; _; _]; split; [reflexivity|]
          | eexists [_; _; _; _]; split; [reflexivity|] ];
    split; cbn; lia.
Qed.

(** Message 12 is read and deleted as message 12; an index of ten digits,
    4294967299, is read and deleted as 2147483647. *)
Lemma notification_names_message_witness :
  rx notified = Some "+CMTI: SM,12"%string
  /\ (exists mid,
       snd (checkForIncomingSMS notified (boot_emergency, []))
       = [] ++ [AtCmgr 12; Delay 500] ++ mid ++ [AtCmgd 12]
       /\ (sms_count mid <= 1)%nat /\ dial_count mid = 0%nat)
  /\ rx notified_beyond_long = Some "+CMTI: SM,4294967299"%string
  /\ (exists mid,
       snd (checkForIncomingSMS notified_beyond_long (boot_emergency, []))
       = [] ++ [AtCmgr 2147483647; Delay 500] ++ mid ++ [AtCmgd 2147483647]
       /\ (sms_count mid <= 1)%nat /\ dial_count mid = 0%nat).
Proof.
  split; [reflexivity|]. split.
  - assert (Hds : Forall is_digit [1; 2]) by (repeat constructor; unfold is_digit; lia).
    assert (Hne : [1; 2] <> ([] : list Z)) by discriminate.
    exact (notification_names_message "+CMTI: SM" EmptyString [1; 2] notified
             boot_emergency [] eq_refl Hds Hne eq_refl eq_refl eq_refl).
  - split; [reflexivity|].
    assert (Hds : Forall is_digit [4; 2; 9; 4; 9; 6; 7; 2; 9; 9])
      by (repeat constructor; unfold is_digit; lia).
    assert (Hne : [4; 2; 9; 4; 9; 6; 7; 2; 9; 9] <> ([] : list Z)) by discriminate.
    exact (notification_names_message "+CMTI: SM" EmptyString
             [4; 2; 9; 4; 9; 6; 7; 2; 9; 9] notified_beyond_long
             boot_emergency [] eq_refl Hds Hne eq_refl eq_refl eq_refl).
Defined.

(** * The device under the watchdog *)

Lemma watched_loop_finished (inp : LoopIn) (d d' : Device) :
  watched_loop inp d = Some (Finished d') ->
  loop inp d = Some d'
  /\ delayed (log d') - delayed (log d) < WDT_TIMEOUT * 1000.
Proof.
  unfold watched_loop, watchdog_expired.
  destruct (loop inp d) as [d1|]; [|discriminate].
  destruct (Z.leb_spec (WDT_TIMEOUT * 1000) (delayed (log d1) - delayed (log d)));
    [discriminate|].
  intros [= <-]. split; [reflexivity|assumption].
Qed.

Lemma reachable_queue_ok (mac : string) (d : Device) :
  reachable mac d -> queue_ok (queue d).
Proof.
  induction 1 as [w|inp d d' _ IH Hpass].
  - exact boot_queue_ok.
  - apply watched_loop_finished in Hpass. destruct Hpass as [Hloop _].
    exact (loop_queue_ok inp d d' Hloop IH).
Qed.

(** In every state that the device reaches from power-on, through passes
    that the watchdog lets finish and through the restarts it forces, the
    offline queue has its five slots and the write index points into the
    array, so that [queueData] stores the next reading inside it. *)
Theorem queue_index_in_bounds (mac : string) (d : Device) :
  reachable mac d ->
  length (dataQueue (queue d)) = 5%nat
  /\ (Z.to_nat (queueHead (queue d)) < length (dataQueue (queue d)))%nat
  /\ forall hr spo2 m, exists q',
       queueData hr spo2 m (queue d) = Some q'
       /\ length (dataQueue q') = 5%nat
       /\ (Z.to_nat (queueHead q') < length (dataQueue q'))%nat.
Proof.
  intros Hreach. pose proof (reachable_queue_ok mac d Hreach) as Hok.
  assert (Hin : forall q, queue_ok q ->
            length (dataQueue q) = 5%nat
            /\ (Z.to_nat (queueHead q) < length (dataQueue q))%nat).
  { intros q [Hlen Hhead]. split; [exact Hlen|].
    rewrite Hlen. unfold DATA_QUEUE_SIZE in *. lia. }
  destruct (Hin _ Hok) as [Hlen Hhead].
  split; [exact Hlen|]. split; [exact Hhead|].
  intros hr spo2 m.
  destruct (queueData_total hr spo2 m (queue d) Hok) as (q' & Hq & Hok').
  exists q'. split; [exact Hq|]. exact (Hin _ Hok').
Qed.

(** The state after the pass in which the wearer hits the ground. *)
Lemma queue_index_in_bounds_witness :
  reachable "A1B2" after_impact
  /\ length (dataQueue (queue after_impact)) = 5%nat
  /\ (Z.to_nat (queueHead (queue after_impact))
      < length (dataQueue (queue after_impact)))%nat.
Proof.
  assert (H : reachable "A1B2" after_impact).
  { apply (reach_pass "A1B2" (pass 1000 (pulse_in 100 false) 30 250) (boot "A1B2" true));
      [apply reach_setup|vm_compute; reflexivity]. }
  split; [exact H|].
  destruct (queue_index_in_bounds "A1B2" after_impact H) as (Hlen & Hhead & _).
  split; [exact Hlen|exact Hhead].
Defined.

(** A pass that the watchdog does not let finish.  The wearer has fallen
    300 ms earlier and lies still.  The pass sends the FALL message
    (1.1 s in [delay()]), fails three times to upload over WiFi (2 s),
    dials, and polls the call status fifty times, 500 ms each, without
    an answer (25 s); the periodic upload is due as well and fails over
    WiFi again (2 s).  That is 30.1 s in [delay()] alone. *)
Example alarm_pass_outlasts_watchdog :
  exists d1 d2,
    run [pass 119800 (pulse_in 100 false) 30 250] (boot "A1B2" true) = Some d1
    /\ loop alarm_with_long_call d1 = Some d2
    /\ delayed (log d2) - delayed (log d1) = 30100
    /\ watched_loop alarm_with_long_call d1 = Some Restarted.
Proof.
  eexists. eexists.
  split; [vm_compute; reflexivity|].
  split; [vm_compute; reflexivity|].
  split; vm_compute; reflexivity.
Qed.

(** A read-back of a resume message that ends with the modem's result code
    holds both keywords; the acknowledgment keyword is looked for first. *)
Example resume_with_result_code_acknowledges :
  let inp := mkSerialIn (Some "+CMTI: SM,3"%string) "+CMGR: REC UNREAD Resume OK"
                        Confirmed in
  phase (fst (checkForIncomingSMS inp (fst just_alarmed, []))) = Some Handled.
Proof. reflexivity. Qed.

(** * The emergency button over several passes *)

Lemma set_button_same (d : Device) : set_button (button d) d = d.
Proof. destruct d. reflexivity. Qed.

Lemma manual_check_held (t0 : Z) (p : ManualPass) (d : Device) :
  held_since t0 p -> button d = mkButton t0 true -> manual_check p d = d.
Proof.
  intros (Hcmd & Hlow & Hlt) Hb.
  unfold manual_check, checkManualEmergencyTrigger. rewrite Hcmd, Hlow, Hb.
  cbn [buttonPressed buttonPressStart].
  replace (2000 <=? usub (mpClock p 801) t0) with false
    by (symmetry; apply Z.leb_gt; exact Hlt).
  rewrite <- Hb. apply set_button_same.
Qed.

Lemma presses_held (t0 : Z) (ps : list ManualPass) (d : Device) :
  Forall (held_since t0) ps -> button d = mkButton t0 true -> presses ps d = d.
Proof.
  intros Hall Hb. induction Hall as [|p rest Hp _ IH]; [reflexivity|].
  cbn [presses]. rewrite (manual_check_held t0 p d Hp Hb). exact IH.
Qed.

Lemma manual_check_first (p : ManualPass) (d : Device) :
  buttonPressed (button d) = false ->
  held_since (u32 (mpClock p 798)) p ->
  manual_check p d = set_button (mkButton (u32 (mpClock p 798)) true) d.
Proof.
  intros Hup (Hcmd & Hlow & Hlt).
  unfold manual_check, checkManualEmergencyTrigger. rewrite Hcmd, Hlow, Hup.
  cbn [buttonPressed buttonPressStart].
  replace (2000 <=? usub (mpClock p 801) (u32 (mpClock p 798))) with false
    by (symmetry; apply Z.leb_gt; exact Hlt).
  reflexivity.
Qed.

(** A press of the button counts from the pass that first sees it down.
    If every pass until the release finds less than two seconds on its
    clock since then, the press changes nothing but the stored start time.
    If a pass finds two seconds or more, that pass, and no earlier one,
    runs the manual trigger, pauses one second and forgets the press, so
    that a button still held starts a new press at the next pass. *)
Theorem button_long_press (first : ManualPass) (more : list ManualPass)
    (final : ManualPass) (d : Device) :
  let t0 := u32 (mpClock first 798) in
  buttonPressed (button d) = false ->
  Forall (held_since t0) (first :: more) ->
  (released final ->
   presses (first :: more ++ [final]) d = set_button (mkButton t0 false) d)
  /\ (held_long t0 final ->
      presses (first :: more ++ [final]) d
      = emit [Delay 1000]
          (set_button (mkButton t0 false)
             (triggerManualEmergency (buttonAlert (mpIn final)) (mpReported final)
                (mpMotion final) (set_button (mkButton t0 true) d)))).
Proof.
  intros t0 Hup Hall.
  assert (Hfirst : held_since t0 first) by (inversion Hall; assumption).
  assert (Hmore : Forall (held_since t0) more) by (inversion Hall; assumption).
  assert (Hrun : forall p, presses (first :: more ++ [p]) d
                           = manual_check p (set_button (mkButton t0 true) d)).
  { intros p. cbn [presses]. rewrite (manual_check_first first d Hup Hfirst). fold t0.
    assert (Happ : forall ps x, presses (ps ++ [p]) x = manual_check p (presses ps x)).
    { induction ps as [|q ps IH]; intros x; [reflexivity|]. cbn [presses app]. apply IH. }
    rewrite Happ, (presses_held t0 more _ Hmore); reflexivity. }
  split.
  - intros (Hcmd & Hlow). rewrite Hrun.
    unfold manual_check, checkManualEmergencyTrigger. rewrite Hcmd, Hlow. reflexivity.
  - intros (Hcmd & Hlow & Hge). rewrite Hrun.
    unfold manual_check, checkManualEmergencyTrigger. rewrite Hcmd, Hlow.
    cbn [button set_button buttonPressed buttonPressStart].
    replace (2000 <=? usub (mpClock final 801) t0) with true
      by (symmetry; apply Z.leb_le; exact Hge).
    reflexivity.
Qed.

Lemma button_long_press_witness :
  Forall (held_since (u32 (mpClock (button_at 1000 true) 798)))
         [button_at 1000 true; button_at 2000 true]
  /\ sms_count (log (presses [button_at 1000 true; button_at 2000 true;
                              button_at 2500 false] (boot "A1B2" true))) = 0%nat
  /\ sms_count (log (presses [button_at 1000 true; button_at 2000 true;
                              button_at 3000 true] (boot "A1B2" true))) = 1%nat.
Proof.
  assert (H : Forall (held_since (u32 (mpClock (button_at 1000 true) 798)))
                     [button_at 1000 true; button_at 2000 true]).
  { repeat constructor; vm_compute; reflexivity. }
  split; [exact H|].
  destruct (button_long_press (button_at 1000 true) [button_at 2000 true]
              (button_at 2500 false) (boot "A1B2" true) eq_refl H) as [Hrel _].
  destruct (button_long_press (button_at 1000 true) [button_at 2000 true]
              (button_at 3000 true) (boot "A1B2" true) eq_refl H) as [_ Hlong].
  split.
  - change (presses [button_at 1000 true; button_at 2000 true; button_at 2500 false]
              (boot "A1B2" true))
      with (presses (button_at 1000 true :: [button_at 2000 true] ++ [button_at 2500 false])
              (boot "A1B2" true)).
    rewrite Hrel; [reflexivity|split; reflexivity].
  - change (presses [button_at 1000 true; button_at 2000 true; button_at 3000 true]
              (boot "A1B2" true))
      with (presses (button_at 1000 true :: [button_at 2000 true] ++ [button_at 3000 true])
              (boot "A1B2" true)).
    rewrite Hlong; [reflexivity|].
    split; [reflexivity|]. split; [reflexivity|]. vm_compute. discriminate.
Defined.

(** The rest of the pass leaves the button globals alone: after a pass
    they are what the manual check of that pass makes of those before
    it. *)
Lemma on_alarm_button (f : Emergency * Log -> Emergency * Log) (d : Device) :
  button (on_alarm f d) = button d.
Proof. unfold on_alarm. destruct (f (emergency d, log d)). reflexivity. Qed.

Lemma cloud_button (env : CloudEnv) (hr spo2 : Q) (m : Motion) (d d' : Device) :
  cloud env hr spo2 m d = Some d' -> button d' = button d.
Proof.
  intros H. destruct (cloud_shape _ _ _ _ _ _ H) as (q & l & ->). reflexivity.
Qed.

Lemma detect_fall_button (ck : Clock) (env : AlertEnv) (a g : Q) (r : Reported)
    (m : Motion) (d d' : Device) :
  detect_fall ck env a g r m d = Some d' -> button d' = button d.
Proof.
  unfold detect_fall.
  destruct (fall_confirm _ _ _ _ _ _) as [d1|] eqn:E; [|discriminate].
  intros [= <-].
  assert (H1 : button d1 = button d).
  { revert E. unfold fall_confirm, fall_impact.
    repeat match goal with
           | |- context [if ?c then _ else _] => destruct c
           end;
      try (intros [= <-]; reflexivity);
      intros H; apply cloud_button in H; rewrite H; unfold trigger;
      rewrite on_alarm_button; reflexivity. }
  rewrite <- H1. unfold fall_timeout. destruct (_ && _); reflexivity.
Qed.

Lemma detect_vitals_button (env : AlertEnv) (f : bool) (r : Reported) (m : Motion)
    (d d' : Device) :
  detect_vitals env f r m d = Some d' -> button d' = button d.
Proof.
  unfold detect_vitals.
  repeat match goal with
         | |- context [if ?c then _ else _] => destruct c
         end;
    try (intros [= <-]; reflexivity);
    intros H; apply cloud_button in H; rewrite H; unfold trigger;
    rewrite on_alarm_button; reflexivity.
Qed.

Lemma escalate_button (inp : LoopIn) (d d' : Device) :
  escalate inp d = Some d' -> button d' = button d.
Proof.
  unfold escalate. destruct (_ && _); [|intros [= <-]; reflexivity].
  destruct (handleEmergencyCalls _ _ _) as [[e l]|]; [|discriminate].
  intros [= <-]. reflexivity.
Qed.

Lemma check_wifi_button (inp : LoopIn) (d : Device) :
  button (check_wifi inp d) = button d.
Proof.
  unfold check_wifi.
  destruct (wlStatus inp); destruct (wifiConnected (net d));
    repeat match goal with
           | |- context [if ?c then _ else _] => destruct c
           | |- context [uploadQueuedData ?a ?b ?c] => destruct (uploadQueuedData a b c)
           end; reflexivity.
Qed.

Lemma triggerManualEmergency_button (env : AlertEnv) (r : Reported) (m : Motion)
    (d : Device) :
  button (triggerManualEmergency env r m d) = button d.
Proof. unfold triggerManualEmergency, trigger. rewrite on_alarm_button. reflexivity. Qed.

(** What the manual check makes of the button globals depends on them and
    on what the check reads, and on nothing else. *)
Lemma manual_check_button (ck : Clock) (inp : ManualIn) (r r' : Reported)
    (m m' : Motion) (d d0 : Device) :
  button d = button d0 ->
  button (checkManualEmergencyTrigger ck inp r m d)
  = button (checkManualEmergencyTrigger ck inp r' m' d0).
Proof.
  intros Hb. unfold checkManualEmergencyTrigger.
  set (d1 := match serialCmd inp with Some _ => _ | None => _ end).
  set (d1' := match serialCmd inp with Some _ => _ | None => _ end).
  assert (H1 : button d1 = button d).
  { unfold d1. destruct (serialCmd inp) as [c|]; [|reflexivity].
    destruct (is_char c "E" "e"); [apply triggerManualEmergency_button|].
    destruct (is_char c "R" "r"); reflexivity. }
  assert (H1' : button d1' = button d0).
  { unfold d1'. destruct (serialCmd inp) as [c|]; [|reflexivity].
    destruct (is_char c "E" "e"); [apply triggerManualEmergency_button|].
    destruct (is_char c "R" "r"); reflexivity. }
  destruct (buttonLow inp); cbn [button set_button emit set_log];
    rewrite H1, H1', Hb; [|reflexivity].
  destruct (2000 <=? _); reflexivity.
Qed.

Lemma periodic_upload_button (inp : LoopIn) (r : Reported) (d d' : Device) :
  periodic_upload inp r d = Some d' -> button d' = button d.
Proof.
  unfold periodic_upload. destruct (DATA_INTERVAL <=? _); [|intros [= <-]; reflexivity].
  intros H. apply cloud_button in H. exact H.
Qed.

Lemma loop_button (inp : LoopIn) (p : ManualPass) (d d' : Device) :
  loop inp d = Some d' ->
  mpClock p = clock inp -> mpIn p = manual inp ->
  button d' = button (manual_check p d).
Proof.
  unfold loop, manual_check. intros H -> ->.
  destruct (read_vitals _ _ _) as [[v f] r]. cbn beta iota in H.
  destruct (detect_fall _ _ _ _ _ _ _) as [d3|] eqn:E3; [|discriminate]. simpl in H.
  destruct (detect_vitals _ _ _ _ d3) as [d4|] eqn:E4; [|discriminate]. simpl in H.
  destruct (escalate _ d4) as [d5|] eqn:E5; [|discriminate]. simpl in H.
  rewrite (periodic_upload_button _ _ _ _ H).
  apply manual_check_button.
  rewrite on_alarm_button, (escalate_button _ _ _ E5), (detect_vitals_button _ _ _ _ _ _ E4),
    (detect_fall_button _ _ _ _ _ _ _ _ E3).
  cbn [button set_vitals]. apply check_wifi_button.
Qed.
